(** * NEMU riscv64 privileged core: trap delegation, address translation, PMP

    A shallow embedding of [src/isa/riscv64/system/intr.c] and
    [src/isa/riscv64/system/mmu.c] in the build with the hypervisor
    extension ([CONFIG_RVH]) and [FORCE_RAISE_PF] (defined unconditionally in
    [isa-def.h]); [CONFIG_MULTICORE_DIFF] is off.  Of the PMP variants the
    region check ([CONFIG_RV_PMP_CHECK]) is embedded as
    [isa_pmp_check_permission], and the table extension
    ([CONFIG_PMPTABLE_EXTENSION]) as [isa_pmp_check_permission_table], with
    the host memory it reads as a parameter.  The remaining compile-time
    switches that the embedded functions test are fields of [config].

    Machine integers are [Z] with the wrap-around written out; the CSR file
    and the C globals are a store indexed by location names; [longjmp_exception]
    and failed assertions are outcomes of a small state-and-exception monad.
    Logging ([Logtr], [printf]) and the calls into the difftest harness
    ([difftest_skip_dut]) have no effect on the state embedded here and are
    left out. *)

From Stdlib Require Import ZArith List Bool Lia.
Import ListNotations.
Local Open Scope Z_scope.

(** ** Machine integers *)

(** [uint64_t] arithmetic wraps modulo 2^64. *)
Definition wrap64 (x : Z) : Z := x mod 2 ^ 64.

(** [~x] on a [uint64_t]. *)
Definition not64 (x : Z) : Z := wrap64 (Z.lnot x).

(** [x << n] on a [uint64_t]. *)
Definition shl64 (x n : Z) : Z := wrap64 (Z.shiftl x n).

(** Conversion of a 64-bit value to [int] (two's complement, 32 bits). *)
Definition to_int (x : Z) : Z :=
  let y := x mod 2 ^ 32 in if y <? 2 ^ 31 then y else y - 2 ^ 32.

(** The [int] expression [1 << n], converted to [uint64_t] where it meets a
    [word_t] operand.  For [0 <= n < 31] this is [2^n]; the C expression is
    undefined beyond that, and the model follows the usual two's-complement
    result (shift count taken modulo 32, sign-extended). *)
Definition int_shl1 (n : Z) : Z := wrap64 (to_int (Z.shiftl 1 (n mod 32))).

(** Modelled from the spec: the [SEXT] macro of [macro.h] is not part of the
    sources; sign-extension of the low [len] bits to 64 bits. *)
Definition SEXT (x len : Z) : Z :=
  let y := x mod 2 ^ len in
  if Z.testbit y (len - 1) then wrap64 (y - 2 ^ len) else y.

(** ** Constants *)

(** [enum { MODE_U = 0, MODE_S, MODE_RS, MODE_M }] of [isa-def.h]. *)
Definition MODE_U : Z := 0.
Definition MODE_S : Z := 1.
Definition MODE_RS : Z := 2.
Definition MODE_M : Z := 3.

(** Modelled from the spec: the access-type enumeration of [isa.h] is not
    part of the sources; instruction fetch, read and write, and the two kinds
    of page-table reads that [pte_read] derives from them. *)
Inductive mem_type : Type :=
| MEM_TYPE_IFETCH
| MEM_TYPE_READ
| MEM_TYPE_WRITE
| MEM_TYPE_IFETCH_READ
| MEM_TYPE_WRITE_READ.

Scheme Equality for mem_type.

Definition mem_type_eqb (a b : mem_type) : bool := mem_type_beq a b.

(** Modelled from the spec: [local-include/intr.h] is not part of the
    sources; the exception and interrupt numbers are the cause codes of the
    RISC-V privileged architecture, whose layout the spec says the CSR state
    follows. *)
Definition EX_IAM : Z := 0.
Definition EX_IAF : Z := 1.
Definition EX_II : Z := 2.
Definition EX_BP : Z := 3.
Definition EX_LAM : Z := 4.
Definition EX_LAF : Z := 5.
Definition EX_SAM : Z := 6.
Definition EX_SAF : Z := 7.
Definition EX_IPF : Z := 12.
Definition EX_LPF : Z := 13.
Definition EX_SPF : Z := 15.
Definition EX_IGPF : Z := 20.
Definition EX_LGPF : Z := 21.
Definition EX_VI : Z := 22.
Definition EX_SGPF : Z := 23.

Definition IRQ_USIP : Z := 0.
Definition IRQ_SSIP : Z := 1.
Definition IRQ_VSSIP : Z := 2.
Definition IRQ_MSIP : Z := 3.
Definition IRQ_UTIP : Z := 4.
Definition IRQ_STIP : Z := 5.
Definition IRQ_VSTIP : Z := 6.
Definition IRQ_MTIP : Z := 7.
Definition IRQ_UEIP : Z := 8.
Definition IRQ_SEIP : Z := 9.
Definition IRQ_VSEIP : Z := 10.
Definition IRQ_MEIP : Z := 11.
Definition IRQ_SGEI : Z := 12.
Definition IRQ_LCOFI : Z := 13.

Definition INTR_BIT : Z := 2 ^ 63.
Definition INTR_EMPTY : Z := 2 ^ 64 - 1.

(** Modelled from the spec: the result codes and page geometry of [isa.h]
    and [memory/paddr.h] are not part of the sources; 4 KiB pages, and the
    three results "ok", "fail" and "cross-page" of a translation. *)
Definition MEM_RET_OK : Z := 0.
Definition MEM_RET_FAIL : Z := 1.
Definition MEM_RET_CROSS_PAGE : Z := 2.
Definition MMU_DIRECT : Z := 0.
Definition MMU_TRANSLATE : Z := 1.
Definition PAGE_SIZE : Z := 4096.
Definition PAGE_MASK : Z := PAGE_SIZE - 1.

(** The macros of [mmu.c].  [PGBASE] shifts in 64 bits. *)
Definition PGSHFT : Z := 12.
Definition PGMASK : Z := 2 ^ PGSHFT - 1.
Definition PGBASE (pn : Z) : Z := shl64 pn PGSHFT.
Definition PTE_SIZE : Z := 8.
Definition VPNMASK : Z := 0x1ff.
Definition GPVPNMASK : Z := 0x7ff.

(** Compile-time configuration. *)
Record config : Type := {
  CONFIG_SHARE : bool;
  CONFIG_USE_XS_ARCH_CSRS : bool;
  CONFIG_RV_SV48 : bool;
  CONFIG_TVAL_EX_II : bool;
  CONFIG_RV_SDTRIG : bool;
  CONFIG_RV_SSCOFPMF : bool;
  CONFIG_AC_SOFT : bool
}.

(** ** Architectural state *)

(** Modelled from the spec: [local-include/csr.h] is not part of the
    sources; the CSRs are the ones the code names, and a field is as wide
    as in the RISC-V privileged architecture ([mpp] two bits, [mode] of a
    [satp]-like CSR four bits, the status flags one bit each).

    The word-valued locations: [cpu] members ([isa-def.h]), the [val] of
    whole CSRs, the wide bit-fields of the [satp]-like CSRs and of
    [mstatus], the globals of [mmu.c] and the [static] arrays of
    [force_raise_pf_record] and [force_raise_gpf_record], indexed by access
    type. *)
Inductive zloc : Type :=
| cpu_mode | cpu_v | cpu_instr
| mideleg | medeleg | hideleg | hedeleg | mie | mip
| mcause | mepc | mtval | mtval2 | mtinst | mtvec
| scause | sepc | stval | stvec | htval | htinst
| vscause | vsepc | vstval | vstvec
| satp_mode | satp_ppn | vsatp_mode | vsatp_ppn | hgatp_mode | hgatp_ppn
| mstatus_mpp
| pt_level | ifetch_mmu_state | data_mmu_state | h_mmu_state
| guide_exception_num | guide_mtval | guide_stval
| guide_mtval2 | guide_htval | guide_vstval
| pf_last_addr (t : mem_type) | pf_force_count (t : mem_type)
| gpf_last_addr (t : mem_type) | gpf_force_count (t : mem_type).

(** Modelled from the spec: the one-bit fields of the status CSRs and of
    [tcontrol] ([csr.h] is not part of the sources), next to the [bool]
    members of [cpu], the globals [hlvx] and [hld_st] of [mmu.c], and the
    flag that [set_sys_state_flag(SYS_STATE_FLUSH_TCACHE)] raises. *)
Inductive bloc : Type :=
| cpu_amo | cpu_guided_exec | guide_force_raise_exception
| mstatus_mie | mstatus_sie | mstatus_mpie | mstatus_spie | mstatus_spp
| mstatus_mprv | mstatus_sum | mstatus_mxr | mstatus_gva | mstatus_mpv
| vsstatus_sie | vsstatus_spie | vsstatus_spp | vsstatus_sum | vsstatus_mxr
| hstatus_gva | hstatus_spv | hstatus_spvp
| tcontrol_mte | tcontrol_mpte
| hlvx | hld_st
| sys_state_flush_tcache.

Scheme Equality for zloc.
Scheme Equality for bloc.

(** The store; [reads] lists the physical addresses of the page-table
    entries read so far, latest first. *)
Record state : Type := {
  zv : zloc -> Z;
  bv : bloc -> bool;
  reads : list Z
}.

Definition set_z (l : zloc) (v : Z) (s : state) : state :=
  {| zv := fun l' => if zloc_beq l' l then v else zv s l';
     bv := bv s;
     reads := reads s |}.

Definition set_b (l : bloc) (v : bool) (s : state) : state :=
  {| zv := zv s;
     bv := fun l' => if bloc_beq l' l then v else bv s l';
     reads := reads s |}.

Definition log_read (a : Z) (s : state) : state :=
  {| zv := zv s; bv := bv s; reads := a :: reads s |}.

(** ** The monad of the simulator's code

    A call either returns, or leaves through [longjmp_exception] with a cause,
    or stops the simulator on a failed [assert]. *)
Inductive outcome (A : Type) : Type :=
| Ret (a : A) (s : state)
| Exc (ex : Z) (s : state)
| Crash.
Arguments Ret {A} a s.
Arguments Exc {A} ex s.
Arguments Crash {A}.

Definition M (A : Type) : Type := state -> outcome A.

Definition ret {A} (a : A) : M A := fun s => Ret a s.

Definition bind {A B} (m : M A) (k : A -> M B) : M B :=
  fun s => match m s with
           | Ret a s' => k a s'
           | Exc ex s' => Exc ex s'
           | Crash => Crash
           end.

Notation "x <- m ;; k" := (bind m (fun x => k))
  (at level 61, m at next level, right associativity).
Notation "m ;;; k" := (bind m (fun _ => k))
  (at level 61, right associativity).

Definition get : M state := fun s => Ret s s.
Definition wr_z (l : zloc) (v : Z) : M unit := fun s => Ret tt (set_z l v s).
Definition wr_b (l : bloc) (v : bool) : M unit := fun s => Ret tt (set_b l v s).
Definition longjmp_exception {A} (ex : Z) : M A := fun s => Exc ex s.
Definition assert (b : bool) : M unit := fun s => if b then Ret tt s else Crash.
Definition when (b : bool) (m : M unit) : M unit := if b then m else ret tt.

(** The C truth value of a word. *)
Definition nz (x : Z) : bool := negb (x =? 0).
(** Assignment of a word to a one-bit field keeps bit 0. *)
Definition bit0 (x : Z) : bool := Z.odd x.
(** [x == c1 || x == c2 || ...], also the labels of one [switch] arm. *)
Definition among (x : Z) (l : list Z) : bool := existsb (Z.eqb x) l.

(** Conversion of a 64-bit value to [uint32_t]. *)
Definition to_u32 (x : Z) : Z := x mod 2 ^ 32.

Section Core.

Variable cfg : config.

(** ** [intr.c] *)

Definition intr_deleg_S (exceptionNO : Z) (s : state) : bool :=
  let deleg := if nz (Z.land exceptionNO INTR_BIT)
               then zv s mideleg else zv s medeleg in
  nz (Z.land deleg (int_shl1 (Z.land exceptionNO 0xff)))
  && (zv s cpu_mode <? MODE_M).

Definition intr_deleg_VS (exceptionNO : Z) (s : state) : bool :=
  let delegS := intr_deleg_S exceptionNO s in
  let deleg := if nz (Z.land exceptionNO INTR_BIT)
               then zv s hideleg else zv s hedeleg in
  let delegVS := nz (zv s cpu_v)
                 && nz (Z.land deleg (int_shl1 (Z.land exceptionNO 0xff)))
                 && (zv s cpu_mode <? MODE_M) in
  delegS && delegVS.

Definition get_trap_pc (xtvec xcause : Z) : Z :=
  let base := shl64 (Z.shiftr xtvec 2) 2 in
  let mode := Z.land xtvec 0x1 in
  let is_intr := Z.shiftr xcause 63 =? 1 in
  let cause_no := Z.land xcause 0xff in
  if is_intr && (mode =? 1) then wrap64 (base + shl64 cause_no 2) else base.

Definition INTR_TVAL_SV48_SEXT (vaddr : Z) : Z :=
  if CONFIG_RV_SV48 cfg
  then SEXT (Z.land vaddr 0xFFFFFFFFFFFF) 48
  else SEXT (Z.land vaddr 0x7FFFFFFFFF) 39.

(** Modelled from the spec: the macro [INTR_TVAL_REG] of
    [local-include/intr.h] is not part of the sources; the trap-value
    register of the level the cause is delegated to, one of virtual
    supervisor, supervisor and machine. *)
Definition INTR_TVAL_REG (ex : Z) (s : state) : zloc :=
  if intr_deleg_VS ex s then vstval
  else if intr_deleg_S ex s then stval
  else mtval.

(** [IFDEF(CONFIG_USE_XS_ARCH_CSRS, vaddr = INTR_TVAL_SV48_SEXT(vaddr))] *)
Definition xs_tval (vaddr : Z) : Z :=
  if CONFIG_USE_XS_ARCH_CSRS cfg then INTR_TVAL_SV48_SEXT vaddr else vaddr.

(** ** [mmu.c]: the MMU-state cache *)

Definition atp_mode_ok (m : Z) : bool :=
  if CONFIG_RV_SV48 cfg then among m [0; 8; 9] else among m [0; 8].

Definition atp_mode_on (m : Z) : bool :=
  if CONFIG_RV_SV48 cfg then among m [8; 9] else among m [8].

Definition update_h_mmu_state_internal (ifetch : bool) : M Z :=
  s <- get ;;
  let mode := to_u32 (if bv s mstatus_mprv && negb ifetch
                      then zv s mstatus_mpp else zv s cpu_mode) in
  if mode <? MODE_M then
    assert (atp_mode_ok (zv s vsatp_mode)) ;;;
    assert (atp_mode_ok (zv s hgatp_mode)) ;;;
    if atp_mode_on (zv s vsatp_mode) || atp_mode_on (zv s hgatp_mode)
    then ret MMU_TRANSLATE else ret MMU_DIRECT
  else ret MMU_DIRECT.

Definition update_mmu_state_internal (ifetch : bool) : M Z :=
  s <- get ;;
  let mode := to_u32 (if bv s mstatus_mprv && negb ifetch
                      then zv s mstatus_mpp else zv s cpu_mode) in
  if mode <? MODE_M then
    assert (atp_mode_ok (zv s satp_mode)) ;;;
    if atp_mode_on (zv s satp_mode)
    then ret MMU_TRANSLATE else ret MMU_DIRECT
  else ret MMU_DIRECT.

Definition update_mmu_state : M bool :=
  i <- update_mmu_state_internal true ;;
  wr_z ifetch_mmu_state i ;;;
  s <- get ;;
  let data_mmu_state_old := zv s data_mmu_state in
  d <- update_mmu_state_internal false ;;
  wr_z data_mmu_state d ;;;
  h <- update_h_mmu_state_internal false ;;
  wr_z h_mmu_state h ;;;
  ret (nz (Z.lxor d data_mmu_state_old)).

(** ** [intr.c]: taking a trap *)

Definition page_or_access_fault (NO : Z) : bool :=
  among NO [EX_IPF; EX_LPF; EX_SPF; EX_LAM; EX_SAM; EX_IAF; EX_LAF; EX_SAF].

Definition guest_page_fault (NO : Z) : bool :=
  among NO [EX_IGPF; EX_LGPF; EX_SGPF].

(** The value written to [hstatus->gva] and [mstatus->gva]. *)
Definition gva_of (NO : Z) (v : Z) (hld_st_temp : bool) : bool :=
  guest_page_fault NO
  || ((nz v || hld_st_temp)
      && (((0 <=? NO) && (NO <=? 7) && negb (NO =? 2))
          || among NO [EX_IPF; EX_LPF; EX_SPF])).

Definition tval_ex_ii (s : state) : Z :=
  if CONFIG_TVAL_EX_II cfg then zv s cpu_instr else 0.

(** [raise_intr] ([intr.c], lines 58-222). *)
Definition raise_intr (NO epc : Z) : M Z :=
  s0 <- get ;;
  let delegS := intr_deleg_S NO s0 in
  let hld_st_temp := bv s0 hld_st in
  wr_b hld_st false ;;;
  s <- get ;;
  let delegVS := intr_deleg_VS NO s in
  if delegVS then
    wr_z vscause (if nz (Z.land NO INTR_BIT)
                  then Z.lor (wrap64 (Z.land NO (not64 INTR_BIT) - 1)) INTR_BIT
                  else NO) ;;;
    wr_z vsepc epc ;;;
    wr_b vsstatus_spp (bit0 (zv s cpu_mode)) ;;;
    wr_b vsstatus_spie (bv s vsstatus_sie) ;;;
    wr_b vsstatus_sie false ;;;
    (if page_or_access_fault NO then ret tt
     else if NO =? EX_BP then wr_z vstval epc
     else if NO =? EX_II then wr_z vstval (tval_ex_ii s)
     else wr_z vstval 0) ;;;
    wr_z cpu_v 1 ;;;
    wr_z cpu_mode MODE_S ;;;
    update_mmu_state ;;;
    s' <- get ;;
    ret (get_trap_pc (zv s' vstvec) (zv s' vscause))
  else if delegS then
    let v := to_int (if bv s mstatus_mprv
                     then (if bv s mstatus_mpv then 1 else 0)
                     else zv s cpu_v) in
    wr_b hstatus_gva (gva_of NO v hld_st_temp) ;;;
    wr_b hstatus_spv (bit0 (zv s cpu_v)) ;;;
    when (nz (zv s cpu_v)) (wr_b hstatus_spvp (bit0 (zv s cpu_mode))) ;;;
    wr_z cpu_v 0 ;;;
    wr_b sys_state_flush_tcache true ;;;
    wr_z scause NO ;;;
    wr_z sepc epc ;;;
    wr_b mstatus_spp (bit0 (zv s cpu_mode)) ;;;
    wr_b mstatus_spie (bv s mstatus_sie) ;;;
    wr_b mstatus_sie false ;;;
    (if page_or_access_fault NO then wr_z htval 0
     else if guest_page_fault NO then ret tt
     else if among NO [EX_II; EX_VI] then
       wr_z stval (tval_ex_ii s) ;;; wr_z htval 0
     else if NO =? EX_BP then wr_z htval 0 ;;; wr_z stval epc
     else wr_z stval 0 ;;; wr_z htval 0) ;;;
    wr_z htinst 0 ;;;
    wr_z cpu_mode MODE_S ;;;
    update_mmu_state ;;;
    s' <- get ;;
    ret (get_trap_pc (zv s' stvec) (zv s' scause))
  else
    let v := to_int (if bv s mstatus_mprv
                     then (if bv s mstatus_mpv then 1 else 0)
                     else zv s cpu_v) in
    wr_b mstatus_gva (gva_of NO v hld_st_temp) ;;;
    wr_b mstatus_mpv (bit0 (zv s cpu_v)) ;;;
    wr_z cpu_v 0 ;;;
    wr_b sys_state_flush_tcache true ;;;
    when (CONFIG_RV_SDTRIG cfg)
      (wr_b tcontrol_mpte (bv s tcontrol_mte) ;;; wr_b tcontrol_mte false) ;;;
    wr_z mcause NO ;;;
    wr_z mepc epc ;;;
    wr_z mstatus_mpp (zv s cpu_mode mod 4) ;;;
    wr_b mstatus_mpie (bv s mstatus_mie) ;;;
    wr_b mstatus_mie false ;;;
    (if page_or_access_fault NO then wr_z mtval2 0
     else if guest_page_fault NO then ret tt
     else if among NO [EX_II; EX_VI] then
       wr_z mtval (tval_ex_ii s) ;;; wr_z mtval2 0
     else if NO =? EX_BP then wr_z mtval epc
     else wr_z mtval 0 ;;; wr_z mtval2 0) ;;;
    wr_z mtinst 0 ;;;
    wr_z cpu_mode MODE_M ;;;
    update_mmu_state ;;;
    s' <- get ;;
    ret (get_trap_pc (zv s' mtvec) (zv s' mcause)).

(** ** [intr.c]: pending interrupts *)

Definition priority : list Z :=
  [IRQ_MEIP; IRQ_MSIP; IRQ_MTIP;
   IRQ_SEIP; IRQ_SSIP; IRQ_STIP;
   IRQ_UEIP; IRQ_USIP; IRQ_UTIP;
   IRQ_VSEIP; IRQ_VSSIP; IRQ_VSTIP; IRQ_SGEI]
  ++ (if CONFIG_RV_SSCOFPMF cfg then [IRQ_LCOFI] else []).

Definition global_enable (irq : Z) (s : state) : bool :=
  let deleg := nz (Z.land (zv s mideleg) (int_shl1 irq)) in
  let hdeleg := nz (Z.land (zv s hideleg) (int_shl1 irq)) in
  if hdeleg && deleg then
    (nz (zv s cpu_v) && (zv s cpu_mode =? MODE_S) && bv s vsstatus_sie)
    || (nz (zv s cpu_v) && (zv s cpu_mode <? MODE_S))
  else if deleg then
    ((zv s cpu_mode =? MODE_S) && bv s mstatus_sie)
    || (zv s cpu_mode <? MODE_S) || nz (zv s cpu_v)
  else
    ((zv s cpu_mode =? MODE_M) && bv s mstatus_mie)
    || (zv s cpu_mode <? MODE_M).

(** The [for] loop of [isa_query_intr] over the rest [prio] of
    [priority]. *)
Fixpoint isa_query_intr_loop (prio : list Z) (intr_vec : Z) (s : state) : Z :=
  match prio with
  | [] => INTR_EMPTY
  | irq :: rest =>
      if nz (Z.land intr_vec (int_shl1 irq)) && global_enable irq s
      then Z.lor irq INTR_BIT
      else isa_query_intr_loop rest intr_vec s
  end.

(** [isa_query_intr] ([intr.c], lines 224-270). *)
Definition isa_query_intr (s : state) : Z :=
  let intr_vec := Z.land (zv s mie) (zv s mip) in
  if negb (nz intr_vec) then INTR_EMPTY
  else isa_query_intr_loop priority intr_vec s.

(** ** [mmu.c]: page-table entries *)

(** The bit-fields of [union PageTableEntry], by shift and mask on [val]. *)
Definition pte_v (pte : Z) : bool := Z.testbit pte 0.
Definition pte_r (pte : Z) : bool := Z.testbit pte 1.
Definition pte_w (pte : Z) : bool := Z.testbit pte 2.
Definition pte_x (pte : Z) : bool := Z.testbit pte 3.
Definition pte_u (pte : Z) : bool := Z.testbit pte 4.
Definition pte_g (pte : Z) : bool := Z.testbit pte 5.
Definition pte_a (pte : Z) : bool := Z.testbit pte 6.
Definition pte_d (pte : Z) : bool := Z.testbit pte 7.
Definition pte_ppn (pte : Z) : Z := Z.land (Z.shiftr pte 10) (2 ^ 44 - 1).
Definition pte_pad (pte : Z) : Z := Z.land (Z.shiftr pte 54) (2 ^ 10 - 1).

Definition VPNiSHFT (i : Z) : Z := PGSHFT + 9 * i.
Definition VPNi (va i : Z) : Z := Z.land (Z.shiftr va (VPNiSHFT i)) VPNMASK.
Definition GVPNi (va i : Z) : Z :=
  if i =? 2 then Z.land (Z.shiftr va (VPNiSHFT i)) GPVPNMASK
  else Z.land (Z.shiftr va (VPNiSHFT i)) VPNMASK.

(** Physical memory as [paddr_read] sees it (eight bytes at an address), and
    the memory-mapped I/O test of [pte_read]: external collaborators. *)
Variable pmem : Z -> Z.
Variable is_in_mmio : Z -> bool.

Definition paddr_read (addr : Z) : M Z :=
  fun s => Ret (pmem addr) (log_read addr s).

(** ** [mmu.c]: the permission checker *)

(** [check_permission] ([mmu.c], lines 78-196).  The [return false] after
    each [longjmp_exception] is never reached. *)
Definition check_permission (pte : Z) (ok : bool) (vaddr : Z)
    (type : mem_type) (virt mode : Z) : M bool :=
  let ifetch := mem_type_eqb type MEM_TYPE_IFETCH in
  assert ((mode =? MODE_U) || (mode =? MODE_S)) ;;;
  s <- get ;;
  let ok := ok && pte_v pte in
  let ok := ok && negb ((mode =? MODE_U) && negb (pte_u pte)) in
  let ok := ok && negb (pte_u pte
                        && ((mode =? MODE_S)
                            && (negb (if nz virt then bv s vsstatus_sum
                                      else bv s mstatus_sum)
                                || ifetch))) in
  if ifetch then
    let update_ad := if CONFIG_SHARE cfg then negb (pte_a pte) else false in
    if negb (ok && pte_x pte && (pte_pad pte =? 0)) || update_ad then
      assert (negb (bv s cpu_amo)) ;;;
      wr_z (INTR_TVAL_REG EX_IPF s) (xs_tval vaddr) ;;;
      longjmp_exception EX_IPF
    else ret true
  else if mem_type_eqb type MEM_TYPE_READ then
    let can_load :=
      if bv s hlvx then pte_x pte
      else pte_r pte
           || ((bv s mstatus_mxr || (bv s vsstatus_mxr && nz virt))
               && pte_x pte) in
    let update_ad := if CONFIG_SHARE cfg then negb (pte_a pte) else false in
    if negb (ok && can_load && (pte_pad pte =? 0)) || update_ad then
      let ex := if bv s cpu_amo then EX_SPF else EX_LPF in
      wr_z (INTR_TVAL_REG ex s) (xs_tval vaddr) ;;;
      wr_b cpu_amo false ;;;
      longjmp_exception ex
    else ret true
  else
    let update_ad := if CONFIG_SHARE cfg
                     then negb (pte_a pte) || negb (pte_d pte) else false in
    if negb (ok && pte_w pte && (pte_pad pte =? 0)) || update_ad then
      wr_z (INTR_TVAL_REG EX_SPF s) (xs_tval vaddr) ;;;
      wr_b cpu_amo false ;;;
      longjmp_exception EX_SPF
    else ret true.

(** ** [mmu.c]: forced exceptions of guided execution *)

Definition force_raise_pf_record (vaddr : Z) (type : mem_type) : M bool :=
  s <- get ;;
  when (negb (vaddr =? zv s (pf_last_addr type)))
    (wr_z (pf_last_addr type) vaddr ;;; wr_z (pf_force_count type) 0) ;;;
  s' <- get ;;
  let c := to_int (zv s' (pf_force_count type) + 1) in
  wr_z (pf_force_count type) c ;;;
  ret (c =? 5).

Definition force_raise_pf (vaddr : Z) (type : mem_type) : M Z :=
  let ifetch := mem_type_eqb type MEM_TYPE_IFETCH in
  s <- get ;;
  if bv s cpu_guided_exec && bv s guide_force_raise_exception then
    if ifetch && (zv s guide_exception_num =? EX_IPF) then
      r <- force_raise_pf_record vaddr type ;;
      if r then ret MEM_RET_OK else
      s' <- get ;;
      (if intr_deleg_VS EX_IPF s' then wr_z vstval (zv s' guide_vstval)
       else if intr_deleg_S EX_IPF s' then wr_z stval (zv s' guide_stval)
       else wr_z mtval (zv s' guide_mtval)) ;;;
      longjmp_exception EX_IPF
    else if negb ifetch && mem_type_eqb type MEM_TYPE_READ
            && (zv s guide_exception_num =? EX_LPF) then
      r <- force_raise_pf_record vaddr type ;;
      if r then ret MEM_RET_OK else
      s' <- get ;;
      wr_z (INTR_TVAL_REG EX_LPF s') (xs_tval vaddr) ;;;
      longjmp_exception EX_LPF
    else if mem_type_eqb type MEM_TYPE_WRITE
            && (zv s guide_exception_num =? EX_SPF) then
      r <- force_raise_pf_record vaddr type ;;
      if r then ret MEM_RET_OK else
      s' <- get ;;
      wr_z (INTR_TVAL_REG EX_SPF s') (xs_tval vaddr) ;;;
      longjmp_exception EX_SPF
    else ret MEM_RET_OK
  else ret MEM_RET_OK.

Definition force_raise_gpf_record (vaddr : Z) (type : mem_type) : M bool :=
  s <- get ;;
  when (negb (vaddr =? zv s (gpf_last_addr type)))
    (wr_z (gpf_last_addr type) vaddr ;;; wr_z (gpf_force_count type) 0) ;;;
  s' <- get ;;
  let c := to_int (zv s' (gpf_force_count type) + 1) in
  wr_z (gpf_force_count type) c ;;;
  ret (c =? 5).

Definition force_raise_gpf (vaddr : Z) (type : mem_type) : M Z :=
  let ifetch := mem_type_eqb type MEM_TYPE_IFETCH in
  s <- get ;;
  if bv s cpu_guided_exec && bv s guide_force_raise_exception then
    if ifetch && (zv s guide_exception_num =? EX_IGPF) then
      r <- force_raise_gpf_record vaddr type ;;
      if r then ret MEM_RET_OK else
      s' <- get ;;
      (if intr_deleg_S EX_IGPF s' then
         wr_z stval (zv s' guide_stval) ;;; wr_z htval (zv s' guide_htval)
       else
         wr_z mtval (zv s' guide_mtval) ;;; wr_z mtval2 (zv s' guide_mtval2)) ;;;
      longjmp_exception EX_IGPF
    else if negb ifetch && mem_type_eqb type MEM_TYPE_READ
            && (zv s guide_exception_num =? EX_LGPF) then
      r <- force_raise_gpf_record vaddr type ;;
      if r then ret MEM_RET_OK else
      s' <- get ;;
      wr_z (INTR_TVAL_REG EX_LGPF s') vaddr ;;;
      wr_z htval (zv s' guide_htval) ;;;
      wr_z mtval2 (zv s' guide_mtval2) ;;;
      longjmp_exception EX_LGPF
    else if mem_type_eqb type MEM_TYPE_WRITE
            && (zv s guide_exception_num =? EX_SGPF) then
      r <- force_raise_gpf_record vaddr type ;;
      if r then ret MEM_RET_OK else
      s' <- get ;;
      wr_z (INTR_TVAL_REG EX_SPF s') vaddr ;;;
      wr_z htval (zv s' guide_htval) ;;;
      wr_z mtval2 (zv s' guide_mtval2) ;;;
      longjmp_exception EX_SGPF
    else ret MEM_RET_OK
  else ret MEM_RET_OK.

(** ** [mmu.c]: the two-stage guest translator *)

Definition has_two_stage_translation (s : state) : bool :=
  bv s hld_st || (bv s mstatus_mprv && bv s mstatus_mpv) || nz (zv s cpu_v).

(** The cause that [raise_guest_excep] leaves with. *)
Definition guest_fault_of (type : mem_type) (amo : bool) : Z :=
  match type with
  | MEM_TYPE_IFETCH => EX_IGPF
  | MEM_TYPE_READ => if amo then EX_SGPF else EX_LGPF
  | _ => EX_SGPF
  end.

(** [raise_guest_excep] ([mmu.c], lines 202-240); it never returns. *)
Definition raise_guest_excep {A} (gpaddr vaddr : Z) (type : mem_type) : M A :=
  s0 <- get ;;
  when (bv s0 cpu_guided_exec && bv s0 guide_force_raise_exception
        && among (zv s0 guide_exception_num) [EX_IPF; EX_LPF; EX_SPF])
    (force_raise_pf vaddr type ;;; ret tt) ;;;
  s <- get ;;
  let ex := guest_fault_of type (bv s cpu_amo) in
  (if intr_deleg_S ex s then
     wr_z stval vaddr ;;; wr_z htval (Z.shiftr gpaddr 2)
   else
     wr_z mtval vaddr ;;; wr_z mtval2 (Z.shiftr gpaddr 2)) ;;;
  longjmp_exception ex.

(** The access-type rule of the second stage: [true] when the entry is
    refused. *)
Definition gpa_refused (pte : Z) (type : mem_type) (s : state) : bool :=
  if mem_type_eqb type MEM_TYPE_IFETCH || bv s hlvx then negb (pte_x pte)
  else if mem_type_eqb type MEM_TYPE_READ
       then negb (pte_r pte) && negb (bv s mstatus_mxr && pte_x pte)
  else negb (pte_r pte && pte_w pte).

(** The [for] loop of [gpa_stage] with [n] levels left ([level = n - 1]),
    followed by the code after the loop. *)
Fixpoint gpa_stage_loop (n : nat) (pg_base gpaddr vaddr : Z)
    (type : mem_type) : M Z :=
  match n with
  | O => raise_guest_excep gpaddr vaddr type
  | S n' =>
      let level := Z.of_nat n' in
      let p_pte := wrap64 (pg_base + GVPNi gpaddr level * PTE_SIZE) in
      pte <- paddr_read p_pte ;;
      let pg_base := PGBASE (pte_ppn pte) in
      s <- get ;;
      if pte_v pte && negb (pte_r pte) && negb (pte_w pte) && negb (pte_x pte)
      then gpa_stage_loop n' pg_base gpaddr vaddr type
      else if negb (pte_v pte) || (negb (pte_r pte) && pte_w pte)
      then raise_guest_excep gpaddr vaddr type
      else if negb (pte_u pte)
      then raise_guest_excep gpaddr vaddr type
      else if gpa_refused pte type s
      then raise_guest_excep gpaddr vaddr type
      else if 0 <? level then
        let pg_mask := 2 ^ VPNiSHFT level - 1 in
        if nz (Z.land pg_base pg_mask) then ret MEM_RET_FAIL
        else
          let pg_base :=
            Z.lor (Z.land pg_base (not64 pg_mask))
                  (Z.land (Z.land gpaddr pg_mask) (not64 PGMASK)) in
          ret (Z.lor pg_base (Z.land gpaddr PAGE_MASK))
      else ret (Z.lor pg_base (Z.land gpaddr PAGE_MASK))
  end.

(** [gpa_stage] ([mmu.c], lines 242-302). *)
Definition gpa_stage (gpaddr vaddr : Z) (type : mem_type) : M Z :=
  wr_z pt_level 0 ;;;
  s <- get ;;
  if zv s hgatp_mode =? 0 then ret gpaddr
  else
    max_level <-
      (if zv s hgatp_mode =? 9 then
         when (nz (Z.land gpaddr (not64 (2 ^ 50 - 1))))
           (raise_guest_excep gpaddr vaddr type) ;;;
         ret 4%nat
       else if zv s hgatp_mode =? 8 then
         when (nz (Z.land gpaddr (not64 (2 ^ 41 - 1))))
           (raise_guest_excep gpaddr vaddr type) ;;;
         ret 3%nat
       else ret 0%nat) ;;
    gpa_stage_loop max_level (PGBASE (zv s hgatp_ppn)) gpaddr vaddr type.

(** ** [mmu.c]: the page-table walker *)

Definition pte_read (addr : Z) (type : mem_type) (vaddr : Z) : M Z :=
  (if CONFIG_SHARE cfg && is_in_mmio addr then
     let cause := if mem_type_eqb type MEM_TYPE_IFETCH then EX_IAF
                  else if mem_type_eqb type MEM_TYPE_WRITE then EX_SAF
                  else EX_LAF in
     s <- get ;;
     wr_z (INTR_TVAL_REG cause s) (xs_tval vaddr) ;;;
     longjmp_exception cause
   else ret tt) ;;;
  paddr_read addr.

(** Conversion to [int64_t], and the canonical form of an address computed by
    [(int64_t)(vaddr << (64 - k)) >> (64 - k)]. *)
Definition to_int64 (x : Z) : Z :=
  let y := wrap64 x in if y <? 2 ^ 63 then y else y - 2 ^ 64.
Definition sext_by_shift (vaddr k : Z) : Z :=
  wrap64 (Z.shiftr (to_int64 (shl64 vaddr (64 - k))) (64 - k)).

(** The page fault of an access type, as all raising sites compute it. *)
Definition page_fault_of (type : mem_type) (amo : bool) : Z :=
  match type with
  | MEM_TYPE_IFETCH => EX_IPF
  | MEM_TYPE_READ => if amo then EX_SPF else EX_LPF
  | _ => EX_SPF
  end.

(** Label [bad] of [ptw]. *)
Definition ptw_bad (pte vaddr : Z) (type : mem_type) (virt mode : Z) : M Z :=
  check_permission pte false vaddr type virt mode ;;;
  ret MEM_RET_FAIL.

(** The raise of [ptw] for a clear accessed or dirty bit (builds without
    [CONFIG_SHARE]). *)
Definition ptw_ad_fault (vaddr : Z) (type : mem_type) : M unit :=
  s <- get ;;
  match type with
  | MEM_TYPE_IFETCH | MEM_TYPE_READ | MEM_TYPE_WRITE =>
      let ex := page_fault_of type (bv s cpu_amo) in
      (if nz (zv s cpu_v) then
         if intr_deleg_S ex s then wr_z vstval vaddr else wr_z mtval vaddr
       else wr_z (INTR_TVAL_REG ex s) vaddr) ;;;
      longjmp_exception ex
  | _ => ret tt
  end.

(** The code of [ptw] after its [for] loop. *)
Definition ptw_after_loop (level pte pg_base vaddr : Z) (type : mem_type)
    (virt mode : Z) : M Z :=
  ok <- check_permission pte true vaddr type virt mode ;;
  if negb ok then ret MEM_RET_FAIL else
  wr_z pt_level level ;;;
  let pg_mask := 2 ^ VPNiSHFT level - 1 in
  if (0 <? level) && nz (Z.land pg_base pg_mask)
  then ptw_bad pte vaddr type virt mode
  else
    let pg_base :=
      if 0 <? level
      then Z.lor (Z.land pg_base (not64 pg_mask))
                 (Z.land (Z.land vaddr pg_mask) (not64 PGMASK))
      else pg_base in
    pg_base <-
      (if nz virt then
         r <- gpa_stage (Z.lor pg_base (Z.land vaddr PAGE_MASK)) vaddr type ;;
         ret (Z.land r (not64 PAGE_MASK))
       else ret pg_base) ;;
    if nz virt && (pg_base =? MEM_RET_FAIL) then ret MEM_RET_FAIL else
    (if CONFIG_SHARE cfg then ret tt
     else
       let is_write := mem_type_eqb type MEM_TYPE_WRITE in
       when (negb (pte_a pte) || (negb (pte_d pte) && is_write))
         (ptw_ad_fault vaddr type)) ;;;
    ret (Z.lor pg_base MEM_RET_OK).

(** The [for] loop of [ptw] with [n] levels left ([level = n - 1]); [pte] is
    the current content of the local variable. *)
Fixpoint ptw_loop (n : nat) (pte pg_base vaddr : Z) (type : mem_type)
    (virt mode : Z) : M Z :=
  match n with
  | O => ptw_after_loop (-1) pte pg_base vaddr type virt mode
  | S n' =>
      let level := Z.of_nat n' in
      let p_pte := wrap64 (pg_base + VPNi vaddr level * PTE_SIZE) in
      p_pte <- (if nz virt then gpa_stage p_pte vaddr type else ret p_pte) ;;
      pte <- pte_read p_pte type vaddr ;;
      let pg_base := PGBASE (pte_ppn pte) in
      if negb (pte_v pte) || (negb (pte_r pte) && pte_w pte)
      then ptw_bad pte vaddr type virt mode
      else if pte_r pte || pte_x pte || nz (pte_pad pte)
      then ptw_after_loop level pte pg_base vaddr type virt mode
      else match n' with
           | O => ptw_bad pte vaddr type virt mode
           | S _ => ptw_loop n' pte pg_base vaddr type virt mode
           end
  end.

(** The local [pte] of [ptw] before its first assignment. *)
Variable pte_uninit : Z.

(** The effective [virt] and [mode] that [ptw] computes. *)
Definition ptw_virt_mode (type : mem_type) (s : state) : Z * Z :=
  let virt := to_int (zv s cpu_v) in
  let mode := to_int (zv s cpu_mode) in
  if negb (mem_type_eqb type MEM_TYPE_IFETCH) then
    let '(virt, mode) :=
      if bv s mstatus_mprv then
        let mode := zv s mstatus_mpp in
        ((if bv s mstatus_mpv && negb (mode =? MODE_M) then 1 else 0), mode)
      else (virt, mode) in
    if bv s hld_st then (1, if bv s hstatus_spvp then 1 else 0)
    else (virt, mode)
  else (virt, mode).

(** [ptw] ([mmu.c], lines 328-514). *)
Definition ptw (vaddr : Z) (type : mem_type) : M Z :=
  s <- get ;;
  let pg_base := PGBASE (zv s satp_ppn) in
  let max_level := if zv s satp_mode =? 8 then 3%nat else 4%nat in
  let '(virt, mode) := ptw_virt_mode type s in
  if nz virt && (zv s vsatp_mode =? 0) then
    r <- gpa_stage vaddr vaddr type ;;
    ret (Z.land r (not64 PAGE_MASK))
  else
    let pg_base := if nz virt then PGBASE (zv s vsatp_ppn) else pg_base in
    let max_level :=
      if nz virt then (if zv s vsatp_mode =? 8 then 3%nat else 4%nat)
      else max_level in
    let k := if (max_level =? 4)%nat then 48 else 39 in
    if negb (sext_by_shift vaddr k =? vaddr)
    then ptw_bad pte_uninit vaddr type virt mode
    else ptw_loop max_level pte_uninit pg_base vaddr type virt mode.

(** ** [mmu.c]: the MMU check *)

Definition isa_misalign_data_addr_check (vaddr len : Z) (type : mem_type)
    : M unit :=
  if nz (Z.land vaddr (wrap64 (len - 1))) && CONFIG_AC_SOFT cfg then
    s <- get ;;
    let ex := if bv s cpu_amo || mem_type_eqb type MEM_TYPE_WRITE
              then EX_SAM else EX_LAM in
    wr_z (INTR_TVAL_REG ex s) (xs_tval vaddr) ;;;
    longjmp_exception ex
  else ret tt.

Definition enable_39 (s : state) : bool :=
  (zv s satp_mode =? 8)
  || (nz (zv s cpu_v) && ((zv s vsatp_mode =? 8) || (zv s hgatp_mode =? 8))).

Definition enable_48 (s : state) : bool :=
  (zv s satp_mode =? 9)
  || (nz (zv s cpu_v) && ((zv s vsatp_mode =? 9) || (zv s hgatp_mode =? 9))).

Definition vm_enable (is_ifetch : bool) (s : state) : bool :=
  ((if bv s mstatus_mprv && negb is_ifetch
    then zv s mstatus_mpp else zv s cpu_mode) <? MODE_M)
  && (enable_39 s || enable_48 s).

(** [va_msbs_ok] for the boundary bit [b] (47 or 38). *)
Definition va_msbs_ok_at (b vaddr : Z) : bool :=
  let va_mask := shl64 1 (63 - b + 1) - 1 in
  let va_msbs := Z.shiftr vaddr b in
  (va_msbs =? va_mask) || (va_msbs =? 0).

(** The raise of [isa_mmu_check] when [va_msbs_ok] is false. *)
Definition isa_mmu_check_fault {A} (vaddr : Z) (type : mem_type) (gpf : bool)
    : M A :=
  s <- get ;;
  if bv s hld_st || gpf then
    let ex := guest_fault_of type (bv s cpu_amo) in
    (if intr_deleg_S ex s then
       wr_z stval vaddr ;;; wr_z htval (Z.shiftr vaddr 2)
     else
       wr_z mtval vaddr ;;; wr_z mtval2 (Z.shiftr vaddr 2)) ;;;
    longjmp_exception ex
  else if nz (zv s cpu_v) then
    let ex := page_fault_of type (bv s cpu_amo) in
    (if intr_deleg_S ex s then wr_z vstval vaddr else wr_z mtval vaddr) ;;;
    longjmp_exception ex
  else
    let ex := page_fault_of type (bv s cpu_amo) in
    wr_z (INTR_TVAL_REG ex s)
         (if mem_type_eqb type MEM_TYPE_IFETCH then vaddr else xs_tval vaddr) ;;;
    longjmp_exception ex.

(** [isa_mmu_check] ([mmu.c], lines 570-725). *)
Definition isa_mmu_check (vaddr len : Z) (type : mem_type) : M Z :=
  let is_ifetch := mem_type_eqb type MEM_TYPE_IFETCH in
  when (negb is_ifetch) (isa_misalign_data_addr_check vaddr len type) ;;;
  s <- get ;;
  va_msbs_ok <-
    (if vm_enable is_ifetch s then
       if enable_48 s then ret (va_msbs_ok_at 47 vaddr)
       else if enable_39 s then ret (va_msbs_ok_at 38 vaddr)
       else fun _ => Crash
     else ret true) ;;
  let '(va_msbs_ok, gpf) :=
    if nz (zv s cpu_v) && (zv s vsatp_mode =? 0) then
      if enable_48 s then
        if Z.land vaddr (not64 (shl64 1 50 - 1)) =? 0
        then (true, false) else (va_msbs_ok, true)
      else if enable_39 s then
        if Z.land vaddr (not64 (shl64 1 41 - 1)) =? 0
        then (true, false) else (va_msbs_ok, true)
      else (va_msbs_ok, false)
    else (va_msbs_ok, false) in
  if negb va_msbs_ok then isa_mmu_check_fault vaddr type gpf
  else if nz (zv s cpu_v) && is_ifetch then
    ret (if nz (zv s h_mmu_state) then MMU_TRANSLATE else MMU_DIRECT)
  else if is_ifetch then
    ret (if nz (zv s ifetch_mmu_state) then MMU_TRANSLATE else MMU_DIRECT)
  else if bv s hld_st then
    ret (if nz (zv s h_mmu_state) then MMU_TRANSLATE else MMU_DIRECT)
  else
    ret (if nz (zv s data_mmu_state) then MMU_TRANSLATE else MMU_DIRECT).

(** ** [mmu.c]: translation *)

Definition is_cross_page (vaddr len : Z) : bool :=
  PAGE_SIZE <? wrap64 (Z.land vaddr PAGE_MASK + wrap64 len).

(** [isa_mmu_translate] ([mmu.c], lines 739-754). *)
Definition isa_mmu_translate (vaddr len : Z) (type : mem_type) : M Z :=
  if is_cross_page vaddr len then ret MEM_RET_CROSS_PAGE else
  ptw_result <- ptw vaddr type ;;
  if negb (ptw_result =? MEM_RET_FAIL) then
    r1 <- force_raise_pf vaddr type ;;
    if negb (r1 =? MEM_RET_OK) then ret MEM_RET_FAIL else
    r2 <- force_raise_gpf vaddr type ;;
    if negb (r2 =? MEM_RET_OK) then ret MEM_RET_FAIL else
    ret ptw_result
  else ret ptw_result.

End Core.

(** ** [mmu.c]: region PMP ([CONFIG_RV_PMP_CHECK]) *)

(** Modelled from the spec: the [pmpcfg] layout of [csr.h] is not part of the
    sources; R/W/X permission bits, the two-bit addressing mode (off,
    top-of-range, naturally aligned four bytes, naturally aligned power of
    two) and the lock bit, placed as the RISC-V privileged architecture
    places them. *)
Definition PMP_R : Z := 0x01.
Definition PMP_W : Z := 0x02.
Definition PMP_X : Z := 0x04.
Definition PMP_A : Z := 0x18.
Definition PMP_L : Z := 0x80.
Definition PMP_TOR : Z := 0x08.
Definition PMP_NA4 : Z := 0x10.
Definition PMP_NAPOT : Z := 0x18.
Definition PMP_SHIFT : Z := 2.

Section Pmp.

(** The number of active entries, the accessors of the PMP CSRs and the
    granularity mask: declared in [csr.h], outside the sources. *)
Variable CONFIG_RV_PMP_ACTIVE_NUM : nat.
Variable pmpaddr_from_index : nat -> Z.
Variable pmpcfg_from_index : nat -> Z.
Variable pmp_tor_mask : Z.

Definition pmp_tor (i : nat) : Z :=
  shl64 (Z.land (pmpaddr_from_index i) pmp_tor_mask) PMP_SHIFT.

(** [uint8_t cfg = pmpcfg_from_index(i)] *)
Definition pmp_cfg (i : nat) : Z := Z.land (pmpcfg_from_index i) 0xff.

Definition pmp_mask (i : nat) : Z :=
  let is_na4 := Z.land (pmp_cfg i) PMP_A =? PMP_NA4 in
  let mask := Z.lor (Z.lor (shl64 (pmpaddr_from_index i) 1)
                           (if is_na4 then 0 else 1))
                    (not64 pmp_tor_mask) in
  shl64 (not64 (Z.land mask (not64 (wrap64 (mask + 1))))) PMP_SHIFT.

(** [match] for the sector at [cur_addr] against entry [i] with floor
    [base]. *)
Definition pmp_match (i : nat) (base cur_addr : Z) : bool :=
  let is_tor := Z.land (pmp_cfg i) PMP_A =? PMP_TOR in
  let napot_match :=
    Z.land (Z.lxor cur_addr (pmp_tor i)) (pmp_mask i) =? 0 in
  let tor_match := (base <=? cur_addr) && (cur_addr <? pmp_tor i) in
  if is_tor then tor_match else napot_match.

(** The inner [for] loop over the four-byte sectors, [n] iterations from
    [offset] on. *)
Fixpoint pmp_sector_loop (n : nat) (offset addr : Z) (i : nat) (base : Z)
    (any_match all_match : bool) : bool * bool :=
  match n with
  | O => (any_match, all_match)
  | S n' =>
      let cur_addr := wrap64 (addr + offset) in
      let m := pmp_match i base cur_addr in
      pmp_sector_loop n' (wrap64 (offset + shl64 1 PMP_SHIFT)) addr i base
        (any_match || m) (all_match && m)
  end.

(** The number of sectors of an access of [len] bytes: the offsets
    [0, 4, 8, ...] below [len].  (A negative [len] converts to a huge
    unsigned bound; the accesses of the simulator have [0 <= len].) *)
Definition pmp_sectors (len : Z) : nat := Z.to_nat ((wrap64 len + 3) / 4).

Definition pmp_is_read (type : mem_type) : bool :=
  mem_type_eqb type MEM_TYPE_READ || mem_type_eqb type MEM_TYPE_IFETCH_READ
  || mem_type_eqb type MEM_TYPE_WRITE_READ.

(** The outer [for] loop over the entries [i, i+1, ...], [k] of them. *)
Fixpoint pmp_entry_loop (k : nat) (i : nat) (base addr len : Z)
    (type : mem_type) (mode : Z) : bool :=
  match k with
  | O => mode =? MODE_M
  | S k' =>
      let tor := pmp_tor i in
      let cfg := pmp_cfg i in
      if nz (Z.land cfg PMP_A) then
        let '(any_match, all_match) :=
          pmp_sector_loop (pmp_sectors len) 0 addr i base false true in
        if any_match then
          if negb all_match then false
          else
            ((mode =? MODE_M) && negb (nz (Z.land cfg PMP_L)))
            || (pmp_is_read type && nz (Z.land cfg PMP_R))
            || (mem_type_eqb type MEM_TYPE_WRITE && nz (Z.land cfg PMP_W))
            || (mem_type_eqb type MEM_TYPE_IFETCH && nz (Z.land cfg PMP_X))
        else pmp_entry_loop k' (S i) tor addr len type mode
      else pmp_entry_loop k' (S i) tor addr len type mode
  end.

(** [isa_pmp_check_permission] ([mmu.c], lines 1072-1173). *)
Definition isa_pmp_check_permission (addr len : Z) (type : mem_type)
    (out_mode : Z) (s : state) : bool :=
  let ifetch := mem_type_eqb type MEM_TYPE_IFETCH in
  let mode :=
    to_u32 (if out_mode =? MODE_M
            then (if bv s mstatus_mprv && negb ifetch
                  then zv s mstatus_mpp else zv s cpu_mode)
            else out_mode) in
  if (CONFIG_RV_PMP_ACTIVE_NUM =? 0)%nat then true
  else pmp_entry_loop CONFIG_RV_PMP_ACTIVE_NUM 0 0 addr len type mode.

(** The floor that the entry loop holds when it reaches entry [i]: the top
    of the entry before it. *)
Definition pmp_base (i : nat) : Z :=
  match i with O => 0 | S j => pmp_tor j end.

(** The offsets of the four-byte sectors of an access of [len] bytes. *)
Definition pmp_sector_offsets (len : Z) : list Z :=
  map (fun k => 4 * Z.of_nat k) (seq 0 (pmp_sectors len)).

(** Entry [i] is on and matches the sector at offset [off] of the access at
    [addr]. *)
Definition pmp_entry_matches (i : nat) (addr off : Z) : bool :=
  nz (Z.land (pmp_cfg i) PMP_A) && pmp_match i (pmp_base i) (wrap64 (addr + off)).

End Pmp.

(** ** Notions used to state the properties *)

(** The cause number that selects the delegation bit. *)
Definition cause_no (NO : Z) : Z := Z.land NO 0xff.

(** The machine-level and the hypervisor-level delegation register that
    apply to a cause: the interrupt ones when the interrupt bit is set. *)
Definition machine_deleg (NO : Z) (s : state) : Z :=
  if Z.testbit NO 63 then zv s mideleg else zv s medeleg.
Definition hypervisor_deleg (NO : Z) (s : state) : Z :=
  if Z.testbit NO 63 then zv s hideleg else zv s hedeleg.

(** The translation-mode fields hold values that the assertions of
    [update_mmu_state] accept. *)
Definition atp_legal (cfg : config) (s : state) : Prop :=
  atp_mode_ok cfg (zv s satp_mode) = true
  /\ atp_mode_ok cfg (zv s vsatp_mode) = true
  /\ atp_mode_ok cfg (zv s hgatp_mode) = true.

(** In the words of the spec: an interrupt is pending and individually
    enabled when its bit is set in [mie] and in [mip]. *)
Definition irq_pending_enabled (s : state) (irq : Z) : bool :=
  Z.testbit (zv s mie) irq && Z.testbit (zv s mip) irq.

(** In the words of the spec, the fixed order of the scan, by cause
    number: machine external (11), software (3) and timer (7); supervisor
    external (9), software (1) and timer (5); user external (8), software
    (0) and timer (4); virtual-supervisor external (10), software (2) and
    timer (6); the guest-external line (12); and, where it is configured,
    the counter-overflow line (13). *)
Definition interrupt_order (counter_overflow : bool) : list Z :=
  [11; 3; 7; 9; 1; 5; 8; 0; 4; 10; 2; 6; 12]
  ++ (if counter_overflow then [13] else []).

(** In the words of the spec, the global enable under the
    delegation-dependent rule.  Delegated to VS (by [mideleg] and
    [hideleg]): guest mode, with [vsstatus.SIE] in supervisor mode or in a
    mode below it.  Delegated to S only: supervisor mode with [mstatus.SIE],
    a mode below supervisor, or guest mode.  Otherwise, for machine mode: a
    mode below machine, or machine mode with [mstatus.MIE]. *)
Definition irq_globally_enabled (s : state) (irq : Z) : bool :=
  let mode := zv s cpu_mode in
  let guest := nz (zv s cpu_v) in
  if Z.testbit (zv s mideleg) irq && Z.testbit (zv s hideleg) irq then
    guest && (((mode =? MODE_S) && bv s vsstatus_sie) || (mode <? MODE_S))
  else if Z.testbit (zv s mideleg) irq then
    ((mode =? MODE_S) && bv s mstatus_sie) || (mode <? MODE_S) || guest
  else
    (mode <? MODE_M) || ((mode =? MODE_M) && bv s mstatus_mie).

(** The level that [raise_intr] takes a trap to: the branch it selects. *)
Inductive trap_target : Type := TargetVS | TargetS | TargetM.

Definition trap_target_of (NO : Z) (s : state) : trap_target :=
  if intr_deleg_VS NO s then TargetVS
  else if intr_deleg_S NO s then TargetS
  else TargetM.

(** The trap registers of one level hold in [s'] what they held in [s]. *)
Definition m_trap_regs_kept (s s' : state) : Prop :=
  zv s' mcause = zv s mcause /\ zv s' mepc = zv s mepc
  /\ zv s' mtval = zv s mtval
  /\ zv s' mstatus_mpp = zv s mstatus_mpp
  /\ bv s' mstatus_mpie = bv s mstatus_mpie
  /\ bv s' mstatus_mie = bv s mstatus_mie.

Definition s_trap_regs_kept (s s' : state) : Prop :=
  zv s' scause = zv s scause /\ zv s' sepc = zv s sepc
  /\ zv s' stval = zv s stval
  /\ bv s' mstatus_spp = bv s mstatus_spp
  /\ bv s' mstatus_spie = bv s mstatus_spie
  /\ bv s' mstatus_sie = bv s mstatus_sie.

Definition vs_trap_regs_kept (s s' : state) : Prop :=
  zv s' vscause = zv s vscause /\ zv s' vsepc = zv s vsepc
  /\ zv s' vstval = zv s vstval
  /\ bv s' vsstatus_spp = bv s vsstatus_spp
  /\ bv s' vsstatus_spie = bv s vsstatus_spie
  /\ bv s' vsstatus_sie = bv s vsstatus_sie.

(** ** Concrete configurations, states and memories *)

Definition cfg_plain : config :=
  {| CONFIG_SHARE := false; CONFIG_USE_XS_ARCH_CSRS := false;
     CONFIG_RV_SV48 := true; CONFIG_TVAL_EX_II := false;
     CONFIG_RV_SDTRIG := false; CONFIG_RV_SSCOFPMF := false;
     CONFIG_AC_SOFT := false |}.

(** Every location zero, nothing read yet. *)
Definition st_reset : state :=
  {| zv := fun _ => 0; bv := fun _ => false; reads := [] |}.

Definition set_zs (l : list (zloc * Z)) (s : state) : state :=
  fold_left (fun s p => set_z (fst p) (snd p) s) l s.

(** A memory that holds the listed words and zero elsewhere. *)
Definition mem_of (l : list (Z * Z)) : Z -> Z :=
  fun a => match find (fun p => fst p =? a) l with
           | Some p => snd p
           | None => 0
           end.

Definition no_mmio : Z -> bool := fun _ => false.

(** A page-table entry from its page number and its low flag bits. *)
Definition mk_pte (ppn flags : Z) : Z := Z.lor (Z.shiftl ppn 10) flags.

(** Second stage on in the 39-bit scheme, root table at [0x80000000]. *)
Definition st_gstage : state :=
  set_zs [(hgatp_mode, 8); (hgatp_ppn, 0x80000); (cpu_mode, MODE_S)] st_reset.

(** The root entry for guest-physical [0 .. 1 GiB) is a leaf with every
    permission, whose page number 1 is not aligned to 1 GiB. *)
Definition mem_misaligned_gleaf : Z -> Z :=
  mem_of [(0x80000000, mk_pte 1 0xdf)].

(** Guest mode on, first stage off ([vsatp.mode = 0]), second stage as in
    [st_gstage]. *)
Definition st_guest_bare : state := set_zs [(cpu_v, 1)] st_gstage.

(** First stage in the 39-bit scheme, root table at [0x80000000], supervisor
    mode, no virtualization. *)
Definition st_sv39 : state :=
  set_zs [(satp_mode, 8); (satp_ppn, 0x80000); (cpu_mode, MODE_S)] st_reset.

(** A root entry that is valid with R, W and X clear, but with reserved bit
    54 set; below it a complete mapping of the virtual page at [0x5000] to
    [0x80003000]. *)
Definition pte_pointer_pad : Z := Z.lor (mk_pte 0x80001 0x01) (2 ^ 54).
Definition mem_pointer_pad : Z -> Z :=
  mem_of [(0x80000000, pte_pointer_pad);
          (0x80001000, mk_pte 0x80002 0x01);
          (0x80002028, mk_pte 0x80003 0xcf)].

(** In the words of the spec, the access-type rule and the user-page rule
    under which an access is let through; [virt] selects the guest's
    [vsstatus] where the rule says so.  The [hlvx] case is the one the code
    adds: a hypervisor load with execute permission reads through the
    execute bit alone. *)
Definition permitted_by_rule (pte : Z) (type : mem_type) (virt mode : Z)
    (s : state) : Prop :=
  (type = MEM_TYPE_IFETCH -> pte_x pte = true)
  /\ (type = MEM_TYPE_READ ->
      if bv s hlvx then pte_x pte = true
      else pte_r pte = true
           \/ ((bv s mstatus_mxr = true
                \/ (virt <> 0 /\ bv s vsstatus_mxr = true))
               /\ pte_x pte = true))
  /\ (type <> MEM_TYPE_IFETCH -> type <> MEM_TYPE_READ -> pte_w pte = true)
  /\ (pte_u pte = true -> mode = MODE_S ->
      (if nz virt then bv s vsstatus_sum else bv s mstatus_sum) = true
      /\ type <> MEM_TYPE_IFETCH).

(** The state in which [check_permission] leaves with a page fault: the
    trap value recorded in the register of the delegation target, and the
    atomic-operation flag cleared on the data paths. *)
Definition check_permission_fault_state (cfg : config) (vaddr : Z)
    (type : mem_type) (s : state) : state :=
  let ex := page_fault_of type (bv s cpu_amo) in
  let s1 := set_z (INTR_TVAL_REG ex s) (xs_tval cfg vaddr) s in
  match type with
  | MEM_TYPE_IFETCH => s1
  | _ => set_b cpu_amo false s1
  end.

(** A hypervisor load with execute permission in progress. *)
Definition st_hlvx : state := set_b hlvx true st_sv39.

(** Two-stage translation: guest mode on, both stages in the 39-bit scheme,
    the guest's root table at guest-physical 0, the second-stage root at
    [0x80000000]. *)
Definition st_two_stage : state :=
  set_zs [(cpu_v, 1); (cpu_mode, MODE_S); (vsatp_mode, 8); (vsatp_ppn, 0);
          (hgatp_mode, 8); (hgatp_ppn, 0x80000)] st_reset.

(** The guest maps the 2 MiB superpage at virtual 0 to guest-physical
    [0x200000]; the second stage maps guest pages one by one, and sends
    guest-physical [0x201000] to [0x90005000]. *)
Definition mem_two_stage : Z -> Z :=
  mem_of [(0x80000000, mk_pte 0x80001 0x01);
          (0x80001000, mk_pte 0x80002 0x01);
          (0x80001008, mk_pte 0x80003 0x01);
          (0x80002000, mk_pte 0x90000 0xdf);
          (0x80002008, mk_pte 0x90001 0xdf);
          (0x80003008, mk_pte 0x90005 0xdf);
          (0x90000000, mk_pte 0x1 0x01);
          (0x90001000, mk_pte 0x200 0xcf)].

(** A 2 MiB superpage leaf with R, W, X, A and D, at page number [0x80200]
    (aligned) . *)
Definition pte_superpage : Z := mk_pte 0x80200 0xcf.

(** The bits of [vaddr] from bit [b] up to bit 63 repeat bit [b]. *)
Definition sign_extended_from (b vaddr : Z) : Prop :=
  forall i, b <= i < 64 -> Z.testbit vaddr i = Z.testbit vaddr b.

(** The boundary bit that [isa_mmu_check] tests: bit 47 when [enable_48]
    holds ([satp], or in guest mode [vsatp] or [hgatp], selects the 48-bit
    scheme), bit 38 otherwise. *)
Definition boundary_bit (s : state) : Z := if enable_48 s then 47 else 38.

(** In the words of the spec, the canonical boundary bit: bit 47 in the
    48-bit mode, bit 38 in the 39-bit mode.  The mode is that of the
    register that translates the virtual address: [vsatp] in guest mode,
    [satp] otherwise. *)
Definition scheme_bit (s : state) : Z :=
  let mode := if nz (zv s cpu_v) then zv s vsatp_mode else zv s satp_mode in
  if mode =? 9 then 47 else 38.




(** Guest mode, supervisor privilege; breakpoints delegated by [medeleg] and
    by [hedeleg]. *)
Definition st_guest_deleg : state :=
  set_zs [(cpu_v, 1); (cpu_mode, MODE_S); (medeleg, 8); (hedeleg, 8);
          (vstvec, 0x80200000)] st_reset.

(** A root entry that points to the next table, and the same mapping below
    it as in [mem_pointer_pad]. *)
Definition mem_pointer : Z -> Z :=
  mem_of [(0x80000000, mk_pte 0x80001 0x01);
          (0x80001000, mk_pte 0x80002 0x01);
          (0x80002028, mk_pte 0x80003 0xcf)].

(** One active PMP entry: top of range [0x1004], R, W and X granted. *)
Definition pmpaddr_one : nat -> Z := fun _ => 0x401.
Definition pmpcfg_one : nat -> Z := fun _ => 0x0f.

(** The state in which [raise_guest_excep] leaves outside guided execution:
    the virtual address and the guest-physical address shifted right by two
    in the trap-value pair of the level the guest-page fault is delegated
    to. *)
Definition guest_fault_state (gpaddr vaddr : Z) (type : mem_type)
    (s : state) : state :=
  if intr_deleg_S (guest_fault_of type (bv s cpu_amo)) s
  then set_z htval (Z.shiftr gpaddr 2) (set_z stval vaddr s)
  else set_z mtval2 (Z.shiftr gpaddr 2) (set_z mtval vaddr s).

(** Two active PMP entries, both naturally aligned powers of two: entry 0
    covers [0x1000, 0x2000) and grants R, W and X; entry 1 covers
    [0x1000, 0x1008) and grants nothing. *)
Definition pmpaddr_two : nat -> Z :=
  fun i => match i with O => 0x5ff | _ => 0x400 end.
Definition pmpcfg_two : nat -> Z :=
  fun i => match i with O => 0x1f | _ => 0x18 end.

(** User mode with three interrupts pending and enabled, none delegated:
    supervisor software (1), machine timer (7) and supervisor external
    (9). *)
Definition st_three_pending : state :=
  set_zs [(cpu_mode, MODE_U); (mie, 0x282); (mip, 0x282)] st_reset.

(** Supervisor mode with [mstatus.SIE] clear; supervisor external (9) and
    supervisor software (1) pending and enabled, the external one delegated
    to supervisor mode. *)
Definition st_external_masked : state :=
  set_zs [(cpu_mode, MODE_S); (mie, 0x202); (mip, 0x202); (mideleg, 0x200)]
    st_reset.

(** Guest mode, supervisor privilege, the first stage in the 39-bit scheme
    and the second stage on; [satp], which translates nothing in guest mode,
    in the 48-bit scheme. *)
Definition st_guest_sv39_host_sv48 : state :=
  set_zs [(cpu_v, 1); (cpu_mode, MODE_S); (vsatp_mode, 8); (satp_mode, 9);
          (hgatp_mode, 8); (h_mmu_state, MMU_TRANSLATE)] st_reset.

(** Guest mode, supervisor privilege, the first stage in the 39-bit scheme;
    instruction page faults delegated by [medeleg] and not by [hedeleg];
    an older value in [stval]. *)
Definition st_guest_sv39_medeleg : state :=
  set_zs [(cpu_v, 1); (cpu_mode, MODE_S); (vsatp_mode, 8); (hgatp_mode, 8);
          (medeleg, 0x1000); (stval, 0x77); (h_mmu_state, MMU_TRANSLATE)]
    st_reset.
(** ** [mmu.c]: the PMP check of the table extension
       ([CONFIG_PMPTABLE_EXTENSION]) *)

(** [napot_decode] ([mmu.c], lines 920-926). *)
Definition napot_decode (addr pmpaddr : Z) : bool :=
  let pmpaddr_start :=
    shl64 (Z.land pmpaddr (wrap64 (pmpaddr + 1))) PMP_SHIFT in
  let pmpaddr_end :=
    shl64 (Z.lor pmpaddr (wrap64 (pmpaddr + 1))) PMP_SHIFT in
  (pmpaddr_start <=? addr) && (addr <? pmpaddr_end).

(** [pmp_address_match] ([mmu.c], lines 928-955): the number of ends of the
    access, [addr] and [addr + len], that lie in the region.  The [int]
    operands [len] and [1 << PMP_SHIFT] convert to 64 bits where they meet
    an address. *)
Definition pmp_address_match (base addr len pmpaddr addr_mode : Z) : Z :=
  let addr_s := addr in
  let addr_e := wrap64 (addr + len) in
  let '(s_flag, e_flag) :=
    if addr_mode =? PMP_TOR then
      let pmpaddr := shl64 pmpaddr PMP_SHIFT in
      ((base <=? addr_s) && (addr_s <? pmpaddr),
       (base <=? addr_e) && (addr_e <? pmpaddr))
    else if addr_mode =? PMP_NA4 then
      let pmpaddr := shl64 pmpaddr PMP_SHIFT in
      let top := wrap64 (pmpaddr + Z.shiftl 1 PMP_SHIFT) in
      ((pmpaddr <=? addr_s) && (addr_s <? top),
       (pmpaddr <=? addr_e) && (addr_e <? top))
    else if addr_mode =? PMP_NAPOT then
      (napot_decode addr_s pmpaddr, napot_decode addr_e pmpaddr)
    else (false, false) in
  (if s_flag then 1 else 0) + (if e_flag then 1 else 0).

(** [pmpcfg_check_permission] ([mmu.c], lines 957-974). *)
Definition pmpcfg_check_permission (pmpcfg : Z) (type : mem_type)
    (out_mode : Z) : bool :=
  if out_mode =? MODE_M then true
  else if pmp_is_read type then nz (Z.land pmpcfg PMP_R)
  else if mem_type_eqb type MEM_TYPE_WRITE then nz (Z.land pmpcfg PMP_W)
  else if mem_type_eqb type MEM_TYPE_IFETCH then nz (Z.land pmpcfg PMP_X)
  else false.

Section PmpTable.

(** The raw read of host memory at a guest-physical address, [host_read]
    of [guest_to_host], and the table bit of a configuration byte: declared
    outside the sources. *)
Variable host_read : Z -> Z -> Z.
Variable PMP_T : Z.
Variable CONFIG_RV_PMP_ACTIVE_NUM : nat.
Variable pmpaddr_from_index : nat -> Z.
Variable pmpcfg_from_index : nat -> Z.

(** [pmptable_check_permission] ([mmu.c], lines 976-1047). *)
Definition pmptable_check_permission (offset root_table_base : Z)
    (type : mem_type) (out_mode : Z) : bool :=
  if out_mode =? MODE_M then true
  else
    let off1 := Z.land (Z.shiftr offset 25) 0x1ff in
    let off0 := Z.land (Z.shiftr offset 16) 0x1ff in
    let page_index := Z.land (Z.land (Z.shiftr offset 12) 0xf) 0xff in
    let root_pte_addr := wrap64 (root_table_base + shl64 off1 3) in
    let root_pte := wrap64 (host_read root_pte_addr 8) in
    let check (perm : Z) : bool :=
      if pmp_is_read type then nz (Z.land perm 0x1)
      else if mem_type_eqb type MEM_TYPE_WRITE then nz (Z.land perm 0x2)
      else if mem_type_eqb type MEM_TYPE_IFETCH then nz (Z.land perm 0x4)
      else false in
    if Z.land root_pte 0x0f =? 1 then
      let at_high := nz (page_index mod 2) in
      let idx := page_index / 2 in
      let leaf_pte :=
        Z.land (host_read
                  (wrap64 (wrap64 (shl64 (Z.shiftr root_pte 5) 12
                                   + shl64 off0 3) + idx)) 1) 0xff in
      check (if at_high then Z.shiftr leaf_pte 4 else Z.land leaf_pte 0xf)
    else if Z.land root_pte 0x1 =? 1 then
      check (Z.land (Z.shiftr root_pte 1) 0xf)
    else false.

(** The [for] loop of the table variant of [isa_pmp_check_permission] over
    the entries [i, i+1, ...], [k] of them.  An active entry that matches
    neither end of the access is passed with [continue], which leaves
    [base] as it is. *)
Fixpoint pmptable_entry_loop (k : nat) (i : nat) (base addr len : Z)
    (type : mem_type) (out_mode : Z) : bool :=
  match k with
  | O => true
  | S k' =>
      let pmpcfg := Z.land (pmpcfg_from_index i) 0xff in
      let pmpaddr := pmpaddr_from_index i in
      let addr_mode := Z.land pmpcfg PMP_A in
      if nz addr_mode then
        let match_ret := pmp_address_match base addr len pmpaddr addr_mode in
        if match_ret =? 1 then false
        else if match_ret =? 0
        then pmptable_entry_loop k' (S i) base addr len type out_mode
        else if nz (Z.land pmpcfg PMP_T) then
          let offset :=
            if addr_mode =? PMP_TOR then wrap64 (addr - base)
            else wrap64 (addr - shl64 pmpaddr PMP_SHIFT) in
          let root_table_base := shl64 (pmpaddr_from_index (S i)) 12 in
          pmptable_check_permission offset root_table_base type out_mode
        else pmpcfg_check_permission pmpcfg type out_mode
      else
        pmptable_entry_loop k' (S i) (shl64 pmpaddr PMP_SHIFT) addr len
          type out_mode
  end.

(** [isa_pmp_check_permission] ([mmu.c], lines 1072-1229) in the build with
    the table extension (lines 1175-1223).  The effective mode that the
    function computes first is not used by this variant, which passes
    [out_mode] on. *)
Definition isa_pmp_check_permission_table (addr len : Z) (type : mem_type)
    (out_mode : Z) : bool :=
  if (CONFIG_RV_PMP_ACTIVE_NUM =? 0)%nat then true
  else pmptable_entry_loop CONFIG_RV_PMP_ACTIVE_NUM 0 0 addr len type out_mode.

(** The floor that the loop of the table variant holds when it reaches entry
    [i]: the top of the nearest entry below [i] that is off, and zero when
    there is none. *)
Fixpoint pmptable_base (i : nat) : Z :=
  match i with
  | O => 0
  | S j =>
      if nz (Z.land (Z.land (pmpcfg_from_index j) 0xff) PMP_A)
      then pmptable_base j
      else shl64 (pmpaddr_from_index j) PMP_SHIFT
  end.

(** How many ends of the access entry [i] contains, as the loop finds it:
    the result of [pmp_address_match] against that floor for an active
    entry, none for an entry that is off. *)
Definition pmptable_match (i : nat) (addr len : Z) : Z :=
  let addr_mode := Z.land (Z.land (pmpcfg_from_index i) 0xff) PMP_A in
  if nz addr_mode
  then pmp_address_match (pmptable_base i) addr len (pmpaddr_from_index i)
         addr_mode
  else 0.

(** What entry [i] decides for an access that it contains: every access is
    granted to machine mode; otherwise the table of the entry decides, if
    its table bit is set, and else its configuration byte. *)
Definition pmptable_entry_grants (i : nat) (addr : Z) (type : mem_type)
    (out_mode : Z) : bool :=
  let pmpcfg := Z.land (pmpcfg_from_index i) 0xff in
  let pmpaddr := pmpaddr_from_index i in
  if out_mode =? MODE_M then true
  else if nz (Z.land pmpcfg PMP_T) then
    let offset :=
      if Z.land pmpcfg PMP_A =? PMP_TOR
      then wrap64 (addr - pmptable_base i)
      else wrap64 (addr - shl64 pmpaddr PMP_SHIFT) in
    pmptable_check_permission offset
      (shl64 (pmpaddr_from_index (S i)) 12) type out_mode
  else pmpcfg_check_permission pmpcfg type out_mode.

End PmpTable.

(** ** Notions used to state further properties *)

(** The privilege mode that the MMU-state cache translates for:
    [mstatus.MPP] for a data access under [mstatus.MPRV], the current mode
    otherwise. *)
Definition effective_mode (ifetch : bool) (s : state) : Z :=
  to_u32 (if bv s mstatus_mprv && negb ifetch
          then zv s mstatus_mpp else zv s cpu_mode).

(** The value that [update_mmu_state_internal] computes in [s], and the one
    that [update_h_mmu_state_internal] computes. *)
Definition mmu_state_of (cfg : config) (ifetch : bool) (s : state) : Z :=
  if (effective_mode ifetch s <? MODE_M) && atp_mode_on cfg (zv s satp_mode)
  then MMU_TRANSLATE else MMU_DIRECT.

Definition h_mmu_state_of (cfg : config) (ifetch : bool) (s : state) : Z :=
  if (effective_mode ifetch s <? MODE_M)
     && (atp_mode_on cfg (zv s vsatp_mode) || atp_mode_on cfg (zv s hgatp_mode))
  then MMU_TRANSLATE else MMU_DIRECT.

(** The trap-value register of a trap level. *)
Definition tval_of_target (t : trap_target) : zloc :=
  match t with TargetVS => vstval | TargetS => stval | TargetM => mtval end.

(** Two states hold the same values in every location. *)
Definition same_store (s s' : state) : Prop :=
  (forall l, zv s' l = zv s l) /\ (forall l, bv s' l = bv s l)
  /\ reads s' = reads s.

(** The state after [update_mmu_state]. *)
Definition mmu_state_updated (cfg : config) (s : state) : state :=
  set_z h_mmu_state (h_mmu_state_of cfg false s)
    (set_z data_mmu_state (mmu_state_of cfg false s)
       (set_z ifetch_mmu_state (mmu_state_of cfg true s) s)).

(** What a page-table walk may change when it returns: [s'] holds what [s]
    holds in every location but [pt_level], and has logged [n] more reads
    of page-table entries at most. *)
Definition walked (n : nat) (s s' : state) : Prop :=
  bv s' = bv s
  /\ (forall l, l <> pt_level -> zv s' l = zv s l)
  /\ exists new, reads s' = new ++ reads s /\ (length new <= n)%nat.

(** The reads of a walk from level [n] down: one per level, and with two
    stages four more for each second-stage walk. *)
Definition walk_reads (virt : Z) (n : nat) : nat :=
  if nz virt then (5 * n + 4)%nat else n.

(** The state in which a call leaves the simulator, however it ends. *)
Definition state_after {A} (o : outcome A) (s : state) : state :=
  match o with
  | Ret _ s' => s'
  | Exc _ s' => s'
  | Crash => s
  end.

(** The state after [n] consecutive calls of [force_raise_pf] for one
    access, each started where the one before ended, by return or by
    exception. *)
Fixpoint force_raise_pf_repeat (cfg : config) (n : nat) (vaddr : Z)
    (type : mem_type) (s : state) : state :=
  match n with
  | O => s
  | S n' =>
      let s' := force_raise_pf_repeat cfg n' vaddr type s in
      state_after (force_raise_pf cfg vaddr type s') s'
  end.

(** Guided execution is forcing the page fault of the access type. *)
Definition forcing_page_fault (type : mem_type) (s : state) : Prop :=
  bv s cpu_guided_exec = true
  /\ bv s guide_force_raise_exception = true
  /\ zv s guide_exception_num = page_fault_of type false.

(** The state after [force_raise_pf_record] has counted an attempt. *)
Definition pf_recorded (vaddr : Z) (type : mem_type) (s : state) : state :=
  let s1 := if vaddr =? zv s (pf_last_addr type) then s
            else set_z (pf_force_count type) 0
                   (set_z (pf_last_addr type) vaddr s) in
  set_z (pf_force_count type) (to_int (zv s1 (pf_force_count type) + 1)) s1.

(** The mode that [isa_pmp_check_permission] checks for. *)
Definition pmp_effective_mode (type : mem_type) (out_mode : Z) (s : state) : Z :=
  to_u32 (if out_mode =? MODE_M
          then (if bv s mstatus_mprv
                   && negb (mem_type_eqb type MEM_TYPE_IFETCH)
                then zv s mstatus_mpp else zv s cpu_mode)
          else out_mode).

(** What a PMP configuration byte grants to an access type in a mode: an
    unlocked entry grants everything to machine mode, and the R, W and X
    bits grant reads, writes and fetches. *)
Definition pmp_cfg_grants (cfg : Z) (type : mem_type) (mode : Z) : bool :=
  ((mode =? MODE_M) && negb (nz (Z.land cfg PMP_L)))
  || (pmp_is_read type && nz (Z.land cfg PMP_R))
  || (mem_type_eqb type MEM_TYPE_WRITE && nz (Z.land cfg PMP_W))
  || (mem_type_eqb type MEM_TYPE_IFETCH && nz (Z.land cfg PMP_X)).

(** The cached MMU state that [isa_mmu_check] answers with: the hypervisor
    one for a fetch in guest mode and for a hypervisor load or store, the
    fetch or the data one otherwise. *)
Definition cached_mmu_state (type : mem_type) (s : state) : Z :=
  zv s (if mem_type_eqb type MEM_TYPE_IFETCH
        then (if nz (zv s cpu_v) then h_mmu_state else ifetch_mmu_state)
        else (if bv s hld_st then h_mmu_state else data_mmu_state)).

(** The access fault that [pte_read] raises for an access type. *)
Definition access_fault_of (type : mem_type) : Z :=
  if mem_type_eqb type MEM_TYPE_IFETCH then EX_IAF
  else if mem_type_eqb type MEM_TYPE_WRITE then EX_SAF
  else EX_LAF.

(** The exceptions of a page-table walk for an access: its page fault, its
    guest-page fault, and the access fault of a page-table read. *)
Definition ptw_exception (type : mem_type) (amo : bool) (ex : Z) : Prop :=
  ex = page_fault_of type amo \/ ex = guest_fault_of type amo
  \/ ex = access_fault_of type.

(** A call does not stop the simulator, and leaves by exception only with a
    cause that [P] admits. *)
Definition raises_only {A} (P : Z -> Prop) (o : outcome A) : Prop :=
  match o with
  | Ret _ _ => True
  | Exc ex _ => P ex
  | Crash => False
  end.

(** The precondition of a step of a walk in a state: no guided execution,
    and the atomic-operation flag as at the start of the walk. *)
Definition walk_ready (amo : bool) (s : state) : Prop :=
  bv s cpu_guided_exec = false /\ bv s cpu_amo = amo.

(** ** More concrete configurations, states and PMP settings *)

(** Alignment checked in software. *)
Definition cfg_ac_soft : config :=
  {| CONFIG_SHARE := false; CONFIG_USE_XS_ARCH_CSRS := false;
     CONFIG_RV_SV48 := true; CONFIG_TVAL_EX_II := false;
     CONFIG_RV_SDTRIG := false; CONFIG_RV_SSCOFPMF := false;
     CONFIG_AC_SOFT := true |}.

(** Accessed and dirty bits managed by software. *)
Definition cfg_share : config :=
  {| CONFIG_SHARE := true; CONFIG_USE_XS_ARCH_CSRS := false;
     CONFIG_RV_SV48 := true; CONFIG_TVAL_EX_II := false;
     CONFIG_RV_SDTRIG := false; CONFIG_RV_SSCOFPMF := false;
     CONFIG_AC_SOFT := false |}.

(** Machine mode, with breakpoints delegated by [medeleg]. *)
Definition st_machine_deleg : state :=
  set_zs [(cpu_mode, MODE_M); (medeleg, 8); (mtvec, 0x80000100);
          (stvec, 0x80200000)] st_reset.

(** User mode, with breakpoints delegated by [medeleg]. *)
Definition st_user_deleg : state :=
  set_zs [(cpu_mode, MODE_U); (medeleg, 8); (mtvec, 0x80000100);
          (stvec, 0x80200000)] st_reset.

(** Machine mode with [mstatus.MIE] clear; the machine timer interrupt is
    pending in [mip] and enabled in [mie]. *)
Definition st_machine_timer : state :=
  set_zs [(cpu_mode, MODE_M); (mie, 0x80); (mip, 0x80)] st_reset.

(** User mode; the supervisor timer interrupt is pending, enabled and
    delegated by [mideleg]. *)
Definition st_user_timer : state :=
  set_zs [(cpu_mode, MODE_U); (mie, 0x20); (mip, 0x20); (mideleg, 0x20)]
    st_reset.

(** Guided execution forcing a store page fault. *)
Definition st_guided_spf : state :=
  set_b guide_force_raise_exception true
    (set_b cpu_guided_exec true
       (set_zs [(guide_exception_num, EX_SPF)] st_reset)).

(** A host memory of zeros, and bit 5 taken as the table bit, for an
    example of the table variant of the PMP check. *)
Definition host_zero : Z -> Z -> Z := fun _ _ => 0.
Definition PMP_T_bit : Z := 0x20.

(** Two active PMP entries that overlap: entry 0 has its top at [0x1004]
    and the floor zero, entry 1 is the naturally aligned
    [0x1000, 0x2000); both grant R, W and X. *)
Definition pmpaddr_overlap : nat -> Z :=
  fun i => match i with O => 0x401 | _ => 0x5ff end.
Definition pmpcfg_overlap : nat -> Z :=
  fun i => match i with O => 0x0f | _ => 0x1f end.
(** * Properties *)

(** ** Machine integers and the store *)

Lemma land_pow2_testbit (x n : Z) :
  0 <= n -> nz (Z.land x (2 ^ n)) = Z.testbit x n.
Proof.
  intros Hn. unfold nz.
  destruct (Z.testbit x n) eqn:E.
  - destruct (Z.eqb_spec (Z.land x (2 ^ n)) 0) as [H0|]; [|reflexivity].
    assert (Z.testbit (Z.land x (2 ^ n)) n = true) as Hb.
    { rewrite Z.land_spec, E, Z.pow2_bits_true; auto. }
    rewrite H0, Z.bits_0 in Hb. discriminate.
  - destruct (Z.eqb_spec (Z.land x (2 ^ n)) 0) as [|H0]; [reflexivity|].
    exfalso. apply H0. apply Z.bits_inj'. intros m Hm.
    rewrite Z.land_spec, Z.bits_0, Z.pow2_bits_eqb by assumption.
    destruct (Z.eqb_spec n m); [subst; rewrite E|]; auto using andb_false_r.
Qed.

Lemma int_shl1_small (n : Z) : 0 <= n < 31 -> int_shl1 n = 2 ^ n.
Proof.
  intros Hn. unfold int_shl1, to_int, wrap64.
  rewrite (Z.mod_small n 32) by lia.
  rewrite Z.shiftl_1_l.
  assert (0 < 2 ^ n) by (apply Z.pow_pos_nonneg; lia).
  assert (2 ^ n < 2 ^ 31) by (apply Z.pow_lt_mono_r; lia).
  assert (2 ^ 31 < 2 ^ 32) by (apply Z.pow_lt_mono_r; lia).
  assert (2 ^ 32 < 2 ^ 64) by (apply Z.pow_lt_mono_r; lia).
  rewrite (Z.mod_small (2 ^ n) (2 ^ 32)) by lia.
  destruct (Z.ltb_spec (2 ^ n) (2 ^ 31)); [|lia].
  apply Z.mod_small. lia.
Qed.

Lemma deleg_bit_test (x n : Z) :
  0 <= n < 31 -> nz (Z.land x (int_shl1 n)) = Z.testbit x n.
Proof.
  intros Hn. rewrite int_shl1_small by assumption.
  apply land_pow2_testbit. lia.
Qed.

Lemma nz_true (x : Z) : x <> 0 -> nz x = true.
Proof. intros H. unfold nz. now destruct (Z.eqb_spec x 0). Qed.

Lemma intr_bit_test (NO : Z) : nz (Z.land NO INTR_BIT) = Z.testbit NO 63.
Proof. unfold INTR_BIT. apply land_pow2_testbit. lia. Qed.

(** ** Pending interrupts *)

Lemma global_enable_rule (s : state) (irq : Z) :
  0 <= irq < 31 -> global_enable irq s = irq_globally_enabled s irq.
Proof.
  intros H. unfold global_enable, irq_globally_enabled.
  rewrite !deleg_bit_test by assumption.
  destruct (Z.testbit (zv s mideleg) irq), (Z.testbit (zv s hideleg) irq);
    cbn [andb]; try reflexivity; try apply orb_comm.
  destruct (nz (zv s cpu_v)); reflexivity.
Qed.

Lemma isa_query_intr_loop_find (s : state) (prio : list Z) :
  Forall (fun irq => 0 <= irq < 31) prio ->
  isa_query_intr_loop prio (Z.land (zv s mie) (zv s mip)) s
  = match find (fun irq => irq_pending_enabled s irq
                           && irq_globally_enabled s irq) prio with
    | Some irq => Z.lor irq INTR_BIT
    | None => INTR_EMPTY
    end.
Proof.
  induction 1 as [|irq rest Hirq _ IH]; [reflexivity|].
  cbn [isa_query_intr_loop find]. unfold irq_pending_enabled at 1.
  rewrite deleg_bit_test, global_enable_rule, Z.land_spec by assumption.
  destruct (Z.testbit (zv s mie) irq && Z.testbit (zv s mip) irq
            && irq_globally_enabled s irq);
    [reflexivity | exact IH].
Qed.

Lemma priority_small (cfg : config) :
  Forall (fun irq => 0 <= irq < 31) (priority cfg).
Proof.
  unfold priority. destruct (CONFIG_RV_SSCOFPMF cfg);
    repeat constructor; vm_compute; intuition discriminate.
Qed.

(** The table [priority] of the code lists the causes in the order of the
    spec. *)
Lemma priority_interrupt_order (cfg : config) :
  priority cfg = interrupt_order (CONFIG_RV_SSCOFPMF cfg).
Proof. reflexivity. Qed.

(** C8: [isa_query_intr] returns, with the interrupt bit set, the first cause
    in the order machine external (11), software (3), timer (7); supervisor
    external (9), software (1), timer (5); user external (8), software (0),
    timer (4); virtual-supervisor external (10), software (2), timer (6);
    the guest-external line (12); the counter-overflow line (13) where it
    is configured; that is pending and enabled in [mie] and [mip] and
    globally enabled under the delegation-dependent rule, and [INTR_EMPTY]
    when there is none. *)
Theorem isa_query_intr_first_enabled (cfg : config) (s : state) :
  isa_query_intr cfg s
  = match find (fun irq => irq_pending_enabled s irq
                           && irq_globally_enabled s irq)
               (interrupt_order (CONFIG_RV_SSCOFPMF cfg)) with
    | Some irq => Z.lor irq INTR_BIT
    | None => INTR_EMPTY
    end.
Proof.
  rewrite <- priority_interrupt_order.
  unfold isa_query_intr.
  rewrite isa_query_intr_loop_find by apply priority_small.
  unfold nz. destruct (Z.eqb_spec (Z.land (zv s mie) (zv s mip)) 0) as [H0|];
    [|reflexivity].
  cbn [negb].
  assert (forall l, find (fun irq => irq_pending_enabled s irq
                                     && irq_globally_enabled s irq) l = None)
    as Hnone.
  { induction l as [|a l IH]; [reflexivity|]. cbn [find].
    unfold irq_pending_enabled at 1.
    rewrite <- Z.land_spec, H0, Z.bits_0. exact IH. }
  now rewrite Hnone.
Qed.

(** ** The store *)

Lemma zv_set_z_same (l : zloc) (v : Z) (s : state) : zv (set_z l v s) l = v.
Proof. cbn. now rewrite (internal_zloc_dec_lb l l eq_refl). Qed.

Lemma zv_set_z_other (l l' : zloc) (v : Z) (s : state) :
  l' <> l -> zv (set_z l v s) l' = zv s l'.
Proof.
  intros H. cbn. destruct (zloc_beq l' l) eqn:E; [|reflexivity].
  now apply internal_zloc_dec_bl in E.
Qed.

Lemma bv_set_b_same (l : bloc) (v : bool) (s : state) : bv (set_b l v s) l = v.
Proof. cbn. now rewrite (internal_bloc_dec_lb l l eq_refl). Qed.

Lemma bv_set_b_other (l l' : bloc) (v : bool) (s : state) :
  l' <> l -> bv (set_b l v s) l' = bv s l'.
Proof.
  intros H. cbn. destruct (bloc_beq l' l) eqn:E; [|reflexivity].
  now apply internal_bloc_dec_bl in E.
Qed.

Lemma zv_set_b (l : bloc) (v : bool) (s : state) (l' : zloc) :
  zv (set_b l v s) l' = zv s l'.
Proof. reflexivity. Qed.

Lemma bv_set_z (l : zloc) (v : Z) (s : state) (l' : bloc) :
  bv (set_z l v s) l' = bv s l'.
Proof. reflexivity. Qed.

Create Rewrite HintDb store.
#[local] Hint Rewrite zv_set_z_same bv_set_b_same zv_set_b bv_set_z : store.
#[local] Hint Rewrite zv_set_z_other bv_set_b_other using congruence : store.

Ltac store := autorewrite with store; try reflexivity.

(** Steps of the monad. *)
Lemma bind_Ret {A B} (m : M A) (k : A -> M B) (s s' : state) (a : A) :
  m s = Ret a s' -> bind m k s = k a s'.
Proof. intros H. unfold bind. now rewrite H. Qed.

Lemma bind_Ret_Exc {A B} (m : M A) (k : A -> M B) (s s' : state) (ex : Z) :
  m s = Exc ex s' -> bind m k s = Exc ex s'.
Proof. intros H. unfold bind. now rewrite H. Qed.

(** ** The MMU-state cache *)

Section MmuState.
Variable cfg : config.

Lemma update_mmu_state_internal_ok (ifetch : bool) (s : state) :
  atp_mode_ok cfg (zv s satp_mode) = true ->
  exists r, update_mmu_state_internal cfg ifetch s = Ret r s.
Proof.
  intros H. unfold update_mmu_state_internal, bind, get, assert, ret.
  rewrite H.
  repeat match goal with
         | |- context [if ?c then _ else _] => destruct c
         end; eauto.
Qed.

Lemma update_h_mmu_state_internal_ok (ifetch : bool) (s : state) :
  atp_mode_ok cfg (zv s vsatp_mode) = true ->
  atp_mode_ok cfg (zv s hgatp_mode) = true ->
  exists r, update_h_mmu_state_internal cfg ifetch s = Ret r s.
Proof.
  intros H1 H2. unfold update_h_mmu_state_internal, bind, get, assert, ret.
  rewrite H1, H2.
  repeat match goal with
         | |- context [if ?c then _ else _] => destruct c
         end; eauto.
Qed.

(** With legal translation modes [update_mmu_state] returns, and writes the
    three cached states only. *)
Lemma update_mmu_state_ok (s : state) :
  atp_legal cfg s ->
  exists b i d h,
    update_mmu_state cfg s
    = Ret b (set_z h_mmu_state h
               (set_z data_mmu_state d (set_z ifetch_mmu_state i s))).
Proof.
  intros (Hs & Hv & Hh).
  destruct (update_mmu_state_internal_ok true s Hs) as [i Hi].
  set (s1 := set_z ifetch_mmu_state i s).
  destruct (update_mmu_state_internal_ok false s1) as [d Hd]; [exact Hs|].
  set (s2 := set_z data_mmu_state d s1).
  destruct (update_h_mmu_state_internal_ok false s2) as [h Hh']; [exact Hv|exact Hh|].
  exists (nz (Z.lxor d (zv s1 data_mmu_state))), i, d, h.
  unfold update_mmu_state.
  rewrite (bind_Ret _ _ _ _ _ Hi).
  unfold wr_z at 1. unfold bind at 1. fold s1.
  unfold get at 1. unfold bind at 1.
  rewrite (bind_Ret _ _ _ _ _ Hd).
  unfold wr_z at 1. unfold bind at 1. fold s2.
  rewrite (bind_Ret _ _ _ _ _ Hh').
  reflexivity.
Qed.

End MmuState.

(** ** Taking a trap *)

Section RaiseIntr.
Variable cfg : config.

Lemma atp_legal_frame (s s' : state) :
  zv s' satp_mode = zv s satp_mode ->
  zv s' vsatp_mode = zv s vsatp_mode ->
  zv s' hgatp_mode = zv s hgatp_mode ->
  atp_legal cfg s -> atp_legal cfg s'.
Proof. unfold atp_legal. intros -> -> ->. auto. Qed.

(** [update_mmu_state] at the end of a trap: it returns and leaves every
    location but the three cached MMU states as they were. *)
Lemma update_mmu_state_then {A} (k : bool -> M A) (s0 s : state) :
  atp_legal cfg s0 ->
  zv s satp_mode = zv s0 satp_mode ->
  zv s vsatp_mode = zv s0 vsatp_mode ->
  zv s hgatp_mode = zv s0 hgatp_mode ->
  exists b i d h,
    bind (update_mmu_state cfg) k s
    = k b (set_z h_mmu_state h
             (set_z data_mmu_state d (set_z ifetch_mmu_state i s))).
Proof.
  intros H0 H1 H2 H3.
  destruct (update_mmu_state_ok cfg s) as (b & i & d & h & E).
  { eapply atp_legal_frame; eauto. }
  exists b, i, d, h. now apply bind_Ret.
Qed.

Lemma intr_deleg_S_bits (NO : Z) (s : state) :
  cause_no NO < 31 ->
  intr_deleg_S NO s
  = Z.testbit (machine_deleg NO s) (cause_no NO) && (zv s cpu_mode <? MODE_M).
Proof.
  intros H. unfold intr_deleg_S, machine_deleg.
  rewrite intr_bit_test.
  assert (0 <= cause_no NO) by (apply Z.land_nonneg; right; lia).
  fold (cause_no NO).
  destruct (Z.testbit NO 63); now rewrite deleg_bit_test by lia.
Qed.

Lemma intr_deleg_VS_bits (NO : Z) (s : state) :
  cause_no NO < 31 ->
  intr_deleg_VS NO s
  = Z.testbit (machine_deleg NO s) (cause_no NO)
    && Z.testbit (hypervisor_deleg NO s) (cause_no NO)
    && nz (zv s cpu_v) && (zv s cpu_mode <? MODE_M).
Proof.
  intros H. unfold intr_deleg_VS. rewrite intr_deleg_S_bits by assumption.
  unfold hypervisor_deleg. rewrite intr_bit_test.
  assert (0 <= cause_no NO) by (apply Z.land_nonneg; right; lia).
  fold (cause_no NO).
  destruct (Z.testbit NO 63); rewrite deleg_bit_test by lia;
    destruct (Z.testbit (machine_deleg NO s) (cause_no NO)),
             (Z.testbit _ (cause_no NO)), (nz (zv s cpu_v)),
             (zv s cpu_mode <? MODE_M); reflexivity.
Qed.

Ltac run := cbn [bind get wr_z wr_b ret when].

Ltac finish_trap s :=
  match goal with
  | |- context [bind (update_mmu_state cfg) ?k ?st] =>
      let b := fresh "b" in let i := fresh "i" in
      let d := fresh "d" in let h := fresh "h" in
      let E := fresh "E" in
      destruct (update_mmu_state_then k s st) as (b & i & d & h & E);
      [assumption | store | store | store | rewrite E; clear E; run]
  end.

(** C5: a cause delegated both by the machine-level and by the
    hypervisor-level delegation register, raised in guest mode below machine
    mode, is taken in virtual-supervisor mode: [vscause] and [vsepc] are
    written, guest mode stays on, the mode becomes supervisor, the returned
    PC derives from [vstvec], and the supervisor trap registers keep their
    values. *)
Theorem raise_intr_delegation_precedence (NO epc : Z) (s : state) :
  cause_no NO < 31 ->
  Z.testbit (machine_deleg NO s) (cause_no NO) = true ->
  Z.testbit (hypervisor_deleg NO s) (cause_no NO) = true ->
  zv s cpu_v <> 0 ->
  zv s cpu_mode < MODE_M ->
  atp_legal cfg s ->
  exists s',
    raise_intr cfg NO epc s
    = Ret (get_trap_pc (zv s vstvec) (zv s' vscause)) s'
    /\ zv s' vscause
       = (if Z.testbit NO 63
          then Z.lor (wrap64 (Z.land NO (not64 INTR_BIT) - 1)) INTR_BIT
          else NO)
    /\ zv s' vsepc = epc
    /\ zv s' cpu_v = 1
    /\ zv s' cpu_mode = MODE_S
    /\ zv s' scause = zv s scause
    /\ zv s' sepc = zv s sepc
    /\ zv s' stval = zv s stval
    /\ bv s' mstatus_spp = bv s mstatus_spp
    /\ bv s' mstatus_spie = bv s mstatus_spie
    /\ bv s' mstatus_sie = bv s mstatus_sie.
Proof.
  intros Hno Hm Hh Hv Hmode Hatp.
  assert (intr_deleg_VS NO (set_b hld_st false s) = true) as HVS.
  { rewrite intr_deleg_VS_bits by assumption.
    unfold machine_deleg, hypervisor_deleg in *. rewrite !zv_set_b.
    rewrite Hm, Hh. unfold nz.
    destruct (Z.eqb_spec (zv s cpu_v) 0); [contradiction|].
    destruct (Z.ltb_spec (zv s cpu_mode) MODE_M); [reflexivity|lia]. }
  unfold raise_intr. run. rewrite HVS. rewrite intr_bit_test.
  destruct (page_or_access_fault NO); [|destruct (NO =? EX_BP);
    [|destruct (NO =? EX_II)]]; run; finish_trap s;
    eexists; (split; [reflexivity|]); store; repeat split; store.
Qed.

(** C10: a trap taken to machine mode leaves the supervisor and the
    virtual-supervisor trap registers as they were ([scause], [sepc],
    [stval], the SPP/SPIE/SIE fields, [vscause], [vsepc], [vstval]); a trap
    taken to supervisor or virtual-supervisor mode leaves [mcause], [mepc]
    and the MPP/MPIE/MIE fields as they were, and the registers of the other
    of the two levels as well. *)
Theorem raise_intr_frame (NO epc : Z) (s : state) :
  atp_legal cfg s ->
  exists pc s',
    raise_intr cfg NO epc s = Ret pc s'
    /\ match trap_target_of NO s with
       | TargetM => s_trap_regs_kept s s' /\ vs_trap_regs_kept s s'
       | TargetS => m_trap_regs_kept s s' /\ vs_trap_regs_kept s s'
       | TargetVS => m_trap_regs_kept s s' /\ s_trap_regs_kept s s'
       end.
Proof.
  intros Hatp. unfold raise_intr, trap_target_of. run.
  change (intr_deleg_VS NO (set_b hld_st false s)) with (intr_deleg_VS NO s).
  unfold m_trap_regs_kept, s_trap_regs_kept, vs_trap_regs_kept.
  destruct (intr_deleg_VS NO s); [|destruct (intr_deleg_S NO s)].
  - destruct (page_or_access_fault NO); [|destruct (NO =? EX_BP);
      [|destruct (NO =? EX_II)]]; run; finish_trap s;
      do 2 eexists; (split; [reflexivity|]); store; repeat split; store.
  - rewrite !zv_set_b. destruct (nz (zv s cpu_v)); run;
      (destruct (page_or_access_fault NO); [|destruct (guest_page_fault NO);
        [|destruct (among NO [EX_II; EX_VI]); [|destruct (NO =? EX_BP)]]]);
      run; finish_trap s;
      do 2 eexists; (split; [reflexivity|]); store; repeat split; store.
  - destruct (CONFIG_RV_SDTRIG cfg); run;
      (destruct (page_or_access_fault NO); [|destruct (guest_page_fault NO);
        [|destruct (among NO [EX_II; EX_VI]); [|destruct (NO =? EX_BP)]]]);
      run; finish_trap s;
      do 2 eexists; (split; [reflexivity|]); store; repeat split; store.
Qed.

End RaiseIntr.

(** ** Translation across a page boundary *)

(** [isa_mmu_translate] returns at once when its cross-page test holds. *)
Lemma isa_mmu_translate_when_cross_page (cfg : config) (pmem : Z -> Z)
    (is_in_mmio : Z -> bool) (pte_uninit vaddr len : Z) (type : mem_type)
    (s : state) :
  is_cross_page vaddr len = true ->
  isa_mmu_translate cfg pmem is_in_mmio pte_uninit vaddr len type s
  = Ret MEM_RET_CROSS_PAGE s.
Proof. intros H. unfold isa_mmu_translate. now rewrite H. Qed.

Lemma land_page_mask_bound (vaddr : Z) : 0 <= Z.land vaddr PAGE_MASK <= 4095.
Proof.
  change PAGE_MASK with (Z.ones 12). rewrite Z.land_ones by lia.
  pose proof (Z.mod_pos_bound vaddr (2 ^ 12)).
  change (2 ^ 12) with 4096 in *. lia.
Qed.

(** Without wrap-around the test is the plain comparison. *)
Lemma is_cross_page_plain (vaddr len : Z) :
  0 <= len < 2 ^ 63 ->
  is_cross_page vaddr len = (PAGE_SIZE <? Z.land vaddr PAGE_MASK + len).
Proof.
  intros H. unfold is_cross_page, wrap64.
  pose proof (land_page_mask_bound vaddr).
  change (2 ^ 63) with 9223372036854775808 in H.
  change (2 ^ 64) with 18446744073709551616.
  rewrite (Z.mod_small len) by lia.
  rewrite Z.mod_small by lia. reflexivity.
Qed.

(** C9: for a length [len] (an [int]) with [(vaddr & PAGE_MASK) + len]
    greater than the page size, [isa_mmu_translate] returns
    [MEM_RET_CROSS_PAGE] at once: it returns normally, in the state it was
    called in, so that no page-table entry was read, no exception raised and
    nothing written. *)
Theorem isa_mmu_translate_cross_page (cfg : config) (pmem : Z -> Z)
    (is_in_mmio : Z -> bool) (pte_uninit vaddr len : Z) (type : mem_type)
    (s : state) :
  - 2 ^ 31 <= len < 2 ^ 31 ->
  PAGE_SIZE < Z.land vaddr PAGE_MASK + len ->
  isa_mmu_translate cfg pmem is_in_mmio pte_uninit vaddr len type s
  = Ret MEM_RET_CROSS_PAGE s.
Proof.
  intros Hlen H. apply isa_mmu_translate_when_cross_page.
  pose proof (land_page_mask_bound vaddr).
  change PAGE_SIZE with 4096 in H.
  change (2 ^ 31) with 2147483648 in Hlen.
  rewrite is_cross_page_plain
    by (change (2 ^ 63) with 9223372036854775808; lia).
  apply Z.ltb_lt. exact H.
Qed.

(** ** Region PMP *)

Section PmpProps.
Variable CONFIG_RV_PMP_ACTIVE_NUM : nat.
Variable pmpaddr_from_index : nat -> Z.
Variable pmpcfg_from_index : nat -> Z.
Variable pmp_tor_mask : Z.

#[local] Abbreviation pmp_match' := (pmp_match pmpaddr_from_index pmpcfg_from_index pmp_tor_mask).
#[local] Abbreviation pmp_sector_loop' := (pmp_sector_loop pmpaddr_from_index pmpcfg_from_index pmp_tor_mask).
#[local] Abbreviation pmp_entry_loop' := (pmp_entry_loop pmpaddr_from_index pmpcfg_from_index pmp_tor_mask).
#[local] Abbreviation pmp_entry_matches' := (pmp_entry_matches pmpaddr_from_index pmpcfg_from_index pmp_tor_mask).
#[local] Abbreviation pmp_base' := (pmp_base pmpaddr_from_index pmp_tor_mask).
#[local] Abbreviation pmp_tor' := (pmp_tor pmpaddr_from_index pmp_tor_mask).
#[local] Abbreviation pmp_cfg' := (pmp_cfg pmpcfg_from_index).

(** The sector loop computes the disjunction and the conjunction of the
    matches of the sectors it visits. *)
Lemma pmp_sector_loop_spec (n k0 : nat) (addr : Z) (i : nat) (base : Z)
    (a b : bool) :
  4 * Z.of_nat (k0 + n) < 2 ^ 64 ->
  pmp_sector_loop' n (4 * Z.of_nat k0) addr i base a b
  = (a || existsb (fun off => pmp_match' i base (wrap64 (addr + off)))
                  (map (fun k => 4 * Z.of_nat k) (seq k0 n)),
     b && forallb (fun off => pmp_match' i base (wrap64 (addr + off)))
                  (map (fun k => 4 * Z.of_nat k) (seq k0 n))).
Proof.
  revert k0 a b. induction n as [|n IH]; intros k0 a b Hb.
  - cbn. now rewrite orb_false_r, andb_true_r.
  - cbn [pmp_sector_loop seq map existsb forallb].
    replace (wrap64 (4 * Z.of_nat k0 + shl64 1 PMP_SHIFT))
      with (4 * Z.of_nat (S k0)).
    + rewrite IH by (rewrite <- Nat.add_succ_comm in Hb; exact Hb).
      now rewrite !orb_assoc, !andb_assoc.
    + change (shl64 1 PMP_SHIFT) with 4. unfold wrap64.
      rewrite Z.mod_small; lia.
Qed.

Lemma pmp_sectors_bound (len : Z) :
  0 <= len < 2 ^ 31 -> 4 * Z.of_nat (0 + pmp_sectors len) < 2 ^ 64.
Proof.
  intros H. unfold pmp_sectors, wrap64.
  change (2 ^ 31) with 2147483648 in H.
  change (2 ^ 64) with 18446744073709551616.
  rewrite Z.mod_small by lia.
  rewrite Nat.add_0_l, Z2Nat.id by (apply Z.div_pos; lia).
  pose proof (Z.mul_div_le (len + 3) 4). lia.
Qed.

Lemma pmp_entry_loop_partial (addr len : Z) (type : mem_type) (mode : Z)
    (i : nat) :
  0 <= len < 2 ^ 31 ->
  (exists off, In off (pmp_sector_offsets len)
               /\ pmp_entry_matches' i addr off = true) ->
  (exists off, In off (pmp_sector_offsets len)
               /\ pmp_entry_matches' i addr off = false) ->
  forall k i0,
    (i0 <= i < i0 + k)%nat ->
    (forall j off, (i0 <= j < i)%nat -> In off (pmp_sector_offsets len) ->
                   pmp_entry_matches' j addr off = false) ->
    pmp_entry_loop' k i0 (pmp_base' i0) addr len type mode = false.
Proof.
  intros Hlen (o1 & Hin1 & Hm1) (o2 & Hin2 & Hm2).
  induction k as [|k IH]; intros i0 Hi Hlow; [lia|].
  cbn [pmp_entry_loop].
  change 0 with (4 * Z.of_nat 0) at 1.
  rewrite pmp_sector_loop_spec by (apply pmp_sectors_bound; exact Hlen).
  fold (pmp_sector_offsets len). cbn [orb andb].
  destruct (Nat.eq_dec i0 i) as [->|Hne].
  - unfold pmp_entry_matches in Hm1, Hm2.
    apply andb_true_iff in Hm1 as [Hon Hm1]. rewrite Hon in *.
    cbn [andb] in Hm2.
    assert (existsb (fun off => pmp_match' i (pmp_base' i) (wrap64 (addr + off)))
                    (pmp_sector_offsets len) = true) as ->.
    { apply existsb_exists. eauto. }
    assert (forallb (fun off => pmp_match' i (pmp_base' i) (wrap64 (addr + off)))
                    (pmp_sector_offsets len) = false) as ->.
    { destruct (forallb _ _) eqn:E; [|reflexivity].
      rewrite forallb_forall in E. rewrite (E _ Hin2) in Hm2. discriminate. }
    reflexivity.
  - assert (pmp_entry_loop' k (S i0) (pmp_base' (S i0)) addr len type mode = false)
      as Hrec.
    { apply IH; [lia|]. intros j off Hj. apply Hlow. lia. }
    cbn [pmp_base] in Hrec.
    destruct (nz (Z.land (pmp_cfg' i0) PMP_A)) eqn:Hon; [|exact Hrec].
    assert (existsb (fun off => pmp_match' i0 (pmp_base' i0) (wrap64 (addr + off)))
                    (pmp_sector_offsets len) = false) as ->.
    { destruct (existsb _ _) eqn:E; [|reflexivity].
      apply existsb_exists in E as (off & Hin & Hm).
      assert (pmp_entry_matches' i0 addr off = false) as Hf
        by (apply Hlow; [lia|exact Hin]).
      unfold pmp_entry_matches in Hf.
      rewrite Hon, Hm in Hf. discriminate. }
    exact Hrec.
Qed.

(** C7, as the code has it: when the lowest-numbered active entry that
    matches any four-byte sector of the footprint of an access matches some
    sector and misses another, the PMP check denies the access, whatever the
    entry's R/W/X/L bits, the access type and the mode. *)
Theorem isa_pmp_check_partial_overlap_denied (addr len : Z) (type : mem_type)
    (out_mode : Z) (s : state) (i : nat) :
  0 <= len < 2 ^ 31 ->
  (i < CONFIG_RV_PMP_ACTIVE_NUM)%nat ->
  (forall j off, (j < i)%nat -> In off (pmp_sector_offsets len) ->
                 pmp_entry_matches' j addr off = false) ->
  (exists off, In off (pmp_sector_offsets len)
               /\ pmp_entry_matches' i addr off = true) ->
  (exists off, In off (pmp_sector_offsets len)
               /\ pmp_entry_matches' i addr off = false) ->
  isa_pmp_check_permission CONFIG_RV_PMP_ACTIVE_NUM pmpaddr_from_index
    pmpcfg_from_index pmp_tor_mask addr len type out_mode s = false.
Proof.
  intros Hlen Hi Hlow Hsome Hnot. unfold isa_pmp_check_permission.
  destruct (Nat.eqb_spec CONFIG_RV_PMP_ACTIVE_NUM 0) as [E|_]; [lia|].
  change 0 with (pmp_base' 0) at 1.
  apply (pmp_entry_loop_partial addr len type _ i Hlen Hsome Hnot); [lia|].
  intros j off Hj. apply Hlow. lia.
Qed.

End PmpProps.

(** C7 as stated fails: the eight-byte read at [0x1004] matches entry 1 in
    its first sector and misses it in its second, but entry 0 matches both
    sectors, comes first and grants the read. *)
Lemma isa_pmp_check_lower_entry_decides :
  pmp_sector_offsets 8 = [0; 4]
  /\ pmp_entry_matches pmpaddr_two pmpcfg_two (2 ^ 64 - 1) 1 0x1004 0 = true
  /\ pmp_entry_matches pmpaddr_two pmpcfg_two (2 ^ 64 - 1) 1 0x1004 4 = false
  /\ isa_pmp_check_permission 2 pmpaddr_two pmpcfg_two (2 ^ 64 - 1)
       0x1004 8 MEM_TYPE_READ MODE_S st_sv39 = true.
Proof. repeat split; vm_compute; reflexivity. Qed.

(** ** The two-stage guest translator *)

Section GStage.
Variable cfg : config.
Variable pmem : Z -> Z.

(** Outside guided execution [raise_guest_excep] leaves with the guest-page
    fault of the access type, having recorded the virtual address and the
    guest-physical address (shifted right by two) in the trap-value pair of
    the level the fault is delegated to. *)
Lemma raise_guest_excep_records {A} (gpaddr vaddr : Z) (type : mem_type)
    (s : state) :
  bv s cpu_guided_exec = false ->
  @raise_guest_excep cfg A gpaddr vaddr type s
  = Exc (guest_fault_of type (bv s cpu_amo))
        (guest_fault_state gpaddr vaddr type s).
Proof.
  intros Hg. unfold raise_guest_excep, guest_fault_state.
  cbn [bind get]. rewrite Hg. cbn [andb when bind ret get].
  destruct (intr_deleg_S _ s); reflexivity.
Qed.

(** An address beyond the supported guest-physical width is refused with a
    guest-page fault before any entry is read. *)
Lemma gpa_stage_out_of_range (gpaddr vaddr : Z) (type : mem_type)
    (s : state) :
  bv s cpu_guided_exec = false ->
  (zv s hgatp_mode = 8 /\ Z.land gpaddr (not64 (2 ^ 41 - 1)) <> 0)
  \/ (zv s hgatp_mode = 9 /\ Z.land gpaddr (not64 (2 ^ 50 - 1)) <> 0) ->
  exists s',
    gpa_stage cfg pmem gpaddr vaddr type s
    = Exc (guest_fault_of type (bv s cpu_amo)) s'
    /\ reads s' = reads s.
Proof.
  intros Hg H. unfold gpa_stage. cbn [bind wr_z get].
  rewrite zv_set_z_other by discriminate.
  assert (bv (set_z pt_level 0 s) cpu_guided_exec = false) as Hg' by exact Hg.
  destruct H as [[Hm Hr]|[Hm Hr]]; rewrite Hm; cbn [Z.eqb Pos.eqb];
    rewrite (nz_true _ Hr); cbn [when]; unfold bind at 2 1;
    rewrite raise_guest_excep_records by exact Hg';
    eexists; (split; [reflexivity|]); unfold guest_fault_state;
    destruct (intr_deleg_S _ _); reflexivity.
Qed.

End GStage.

Section GStageWalk.
Variable cfg : config.
Variable pmem : Z -> Z.

(** One iteration of the loop of [gpa_stage] outside guided execution: a
    pointer entry goes one level down; an entry that is invalid, writable
    without being readable, not a user page or refused by the access-type
    rule raises the guest-page fault; a leaf above level 0 with a
    misaligned page number returns [MEM_RET_FAIL]; any other leaf returns
    the translated address. *)
Lemma gpa_stage_loop_step (n : nat) (pg_base gpaddr vaddr : Z)
    (type : mem_type) (s : state) :
  bv s cpu_guided_exec = false ->
  let level := Z.of_nat n in
  let p_pte := wrap64 (pg_base + GVPNi gpaddr level * PTE_SIZE) in
  let pte := pmem p_pte in
  let s1 := log_read p_pte s in
  let base := PGBASE (pte_ppn pte) in
  let pg_mask := 2 ^ VPNiSHFT level - 1 in
  gpa_stage_loop cfg pmem (S n) pg_base gpaddr vaddr type s
  = if pte_v pte && negb (pte_r pte) && negb (pte_w pte) && negb (pte_x pte)
    then gpa_stage_loop cfg pmem n base gpaddr vaddr type s1
    else if negb (pte_v pte) || (negb (pte_r pte) && pte_w pte)
            || negb (pte_u pte) || gpa_refused pte type s
    then Exc (guest_fault_of type (bv s cpu_amo))
             (guest_fault_state gpaddr vaddr type s1)
    else if (0 <? level) && nz (Z.land base pg_mask)
    then Ret MEM_RET_FAIL s1
    else Ret (Z.lor (if 0 <? level
                     then Z.lor (Z.land base (not64 pg_mask))
                                (Z.land (Z.land gpaddr pg_mask) (not64 PGMASK))
                     else base)
                    (Z.land gpaddr PAGE_MASK)) s1.
Proof.
  intros Hg level p_pte pte s1 base pg_mask.
  cbn [gpa_stage_loop bind paddr_read get]. fold level p_pte pte s1 base pg_mask.
  assert (forall A, @raise_guest_excep cfg A gpaddr vaddr type s1
                    = Exc (guest_fault_of type (bv s cpu_amo))
                          (guest_fault_state gpaddr vaddr type s1)) as Hr.
  { intros A. now rewrite raise_guest_excep_records by exact Hg. }
  destruct (pte_v pte && negb (pte_r pte) && negb (pte_w pte)
            && negb (pte_x pte)); [reflexivity|].
  destruct (negb (pte_v pte) || negb (pte_r pte) && pte_w pte); cbn [orb];
    [apply Hr|].
  destruct (negb (pte_u pte)); cbn [orb]; [apply Hr|].
  change (gpa_refused pte type s1) with (gpa_refused pte type s).
  destruct (gpa_refused pte type s); [apply Hr|].
  destruct (0 <? level); cbn [andb]; [|reflexivity].
  destruct (nz (Z.land base pg_mask)); reflexivity.
Qed.

(** Outside guided execution every exception that leaves the loop of
    [gpa_stage] is the guest-page fault of the access type, with the
    virtual and the guest-physical address recorded. *)
Lemma gpa_stage_loop_raises_guest_fault (gpaddr vaddr : Z) (type : mem_type)
    (n : nat) :
  forall (pg_base : Z) (s s' : state) (ex : Z),
    bv s cpu_guided_exec = false ->
    gpa_stage_loop cfg pmem n pg_base gpaddr vaddr type s = Exc ex s' ->
    ex = guest_fault_of type (bv s cpu_amo)
    /\ exists s1, s' = guest_fault_state gpaddr vaddr type s1
                  /\ zv s1 = zv s /\ bv s1 = bv s.
Proof.
  induction n as [|n IH]; intros pg_base s s' ex Hg.
  - cbn [gpa_stage_loop]. rewrite raise_guest_excep_records by exact Hg.
    intros [= <- <-]. eauto.
  - rewrite gpa_stage_loop_step by exact Hg. cbv zeta.
    repeat match goal with
           | |- context [if ?c then _ else _] => destruct c
           end; try discriminate.
    + intros H. apply IH in H; [|exact Hg].
      destruct H as (-> & s1 & -> & Hz & Hb). split; [reflexivity|].
      exists s1. auto.
    + intros [= <- <-]. split; [reflexivity|]. eexists. split; [reflexivity|].
      auto.
Qed.

End GStageWalk.

Section GStageTop.
Variable cfg : config.
Variable pmem : Z -> Z.

(** The same for [gpa_stage] as a whole: outside guided execution it raises
    nothing but the guest-page fault of the access type, with both addresses
    recorded. *)
Lemma gpa_stage_raises_guest_fault (gpaddr vaddr : Z) (type : mem_type)
    (s s' : state) (ex : Z) :
  bv s cpu_guided_exec = false ->
  gpa_stage cfg pmem gpaddr vaddr type s = Exc ex s' ->
  ex = guest_fault_of type (bv s cpu_amo)
  /\ exists s1, s' = guest_fault_state gpaddr vaddr type s1
                /\ bv s1 = bv s
                /\ forall l, l <> pt_level -> zv s1 l = zv s l.
Proof.
  intros Hg. unfold gpa_stage. cbn [bind wr_z get].
  set (s0 := set_z pt_level 0 s).
  assert (bv s0 cpu_guided_exec = false) as Hg0 by exact Hg.
  assert (forall l, l <> pt_level -> zv s0 l = zv s l) as Hz0
    by (intros l Hl; subst s0; now rewrite zv_set_z_other).
  assert (forall n pg_base,
            gpa_stage_loop cfg pmem n pg_base gpaddr vaddr type s0 = Exc ex s' ->
            ex = guest_fault_of type (bv s cpu_amo)
            /\ exists s1, s' = guest_fault_state gpaddr vaddr type s1
                          /\ bv s1 = bv s
                          /\ forall l, l <> pt_level -> zv s1 l = zv s l)
    as Hloop.
  { intros n pg_base H.
    apply gpa_stage_loop_raises_guest_fault in H; [|exact Hg0].
    destruct H as (-> & s1 & -> & Hz & Hb). split; [reflexivity|].
    exists s1. split; [reflexivity|]. split; [now rewrite Hb|].
    intros l Hl. rewrite Hz. now apply Hz0. }
  destruct (zv s0 hgatp_mode =? 0); [discriminate|].
  destruct (zv s0 hgatp_mode =? 9); [|destruct (zv s0 hgatp_mode =? 8)];
    try (cbn [bind ret]; apply Hloop);
    (destruct (nz (Z.land gpaddr _)); cbn [when];
     [|cbn [bind ret]; apply Hloop]);
    unfold bind; rewrite raise_guest_excep_records by exact Hg0;
    intros [= <- <-]; (split; [reflexivity|]); exists s0; auto.
Qed.

End GStageTop.

(** C6 (the code departs from the claim): a second-stage leaf above level 0
    whose page number is not aligned to its size makes [gpa_stage] return
    [MEM_RET_FAIL] as an ordinary result: no guest-page fault is raised and
    no trap-value register is written. *)
Theorem gpa_stage_misaligned_superpage_returns_fail :
  gpa_stage cfg_plain mem_misaligned_gleaf 0x2000 0x2000 MEM_TYPE_READ st_gstage
  = Ret MEM_RET_FAIL (log_read 0x80000000 (set_z pt_level 0 st_gstage)).
Proof. vm_compute. reflexivity. Qed.

(** With guest mode on and the first stage off, the walker takes that
    [MEM_RET_FAIL], masks the page offset away, and returns address 0 as
    a successful translation. *)
Example ptw_consumes_misaligned_fail :
  ptw cfg_plain mem_misaligned_gleaf no_mmio 0 0x2000 MEM_TYPE_READ st_guest_bare
  = Ret 0 (log_read 0x80000000 (set_z pt_level 0 st_guest_bare)).
Proof. vm_compute. reflexivity. Qed.

(** ** The page-table walker *)

Section Walker.
Variable cfg : config.
Variable pmem : Z -> Z.
Variable is_in_mmio : Z -> bool.

#[local] Abbreviation ptw_loop' := (ptw_loop cfg pmem is_in_mmio).
#[local] Abbreviation ptw_after_loop' := (ptw_after_loop cfg pmem).
#[local] Abbreviation gpa_stage' := (gpa_stage cfg pmem).

(** One iteration of the loop of [ptw], once the entry has been fetched
    from [p_pte]. *)
Lemma ptw_loop_step (n : nat) (pte0 pg_base vaddr : Z) (type : mem_type)
    (virt mode : Z) (s s1 : state) (p_pte : Z) :
  (if nz virt
   then gpa_stage' (wrap64 (pg_base + VPNi vaddr (Z.of_nat n) * PTE_SIZE))
                   vaddr type
   else ret (wrap64 (pg_base + VPNi vaddr (Z.of_nat n) * PTE_SIZE))) s
  = Ret p_pte s1 ->
  CONFIG_SHARE cfg && is_in_mmio p_pte = false ->
  let pte := pmem p_pte in
  let s2 := log_read p_pte s1 in
  ptw_loop' (S n) pte0 pg_base vaddr type virt mode s
  = if negb (pte_v pte) || (negb (pte_r pte) && pte_w pte)
    then ptw_bad cfg pte vaddr type virt mode s2
    else if pte_r pte || pte_x pte || nz (pte_pad pte)
    then ptw_after_loop' (Z.of_nat n) pte (PGBASE (pte_ppn pte))
           vaddr type virt mode s2
    else match n with
         | O => ptw_bad cfg pte vaddr type virt mode s2
         | S _ => ptw_loop' n pte (PGBASE (pte_ppn pte)) vaddr type virt mode s2
         end.
Proof.
  intros Hp Hio pte s2. cbn [ptw_loop].
  rewrite (bind_Ret _ _ _ _ _ Hp).
  unfold pte_read. rewrite Hio. cbn [bind ret paddr_read].
  fold pte s2.
  destruct (negb (pte_v pte) || (negb (pte_r pte) && pte_w pte));
    [reflexivity|].
  destruct (pte_r pte || pte_x pte || nz (pte_pad pte)); [reflexivity|].
  destruct n; reflexivity.
Qed.

(** C4, as the code has it: a valid entry with R, W and X clear and the
    reserved high bits clear, met at a level above 0 (the root level in
    particular), makes the walker go down exactly one level, to the table
    at the entry's page number: one entry has been read, nothing else has
    changed, and the leaf code with its permission check is not run on the
    entry.  An entry with R and X clear and the reserved bits clear is at no
    level treated as a leaf: the walk faults or goes down. *)
Theorem ptw_descends_on_pointer (n : nat) (pte0 pg_base vaddr : Z)
    (type : mem_type) (virt mode : Z) (s s1 : state) (p_pte : Z) :
  (if nz virt
   then gpa_stage' (wrap64 (pg_base + VPNi vaddr (Z.of_nat n) * PTE_SIZE))
                   vaddr type
   else ret (wrap64 (pg_base + VPNi vaddr (Z.of_nat n) * PTE_SIZE))) s
  = Ret p_pte s1 ->
  CONFIG_SHARE cfg && is_in_mmio p_pte = false ->
  let pte := pmem p_pte in
  let s2 := log_read p_pte s1 in
  pte_r pte = false -> pte_x pte = false -> pte_pad pte = 0 ->
  (pte_v pte = true -> pte_w pte = false -> (0 < n)%nat ->
   ptw_loop' (S n) pte0 pg_base vaddr type virt mode s
   = ptw_loop' n pte (PGBASE (pte_ppn pte)) vaddr type virt mode s2)
  /\ ptw_loop' (S n) pte0 pg_base vaddr type virt mode s
     = if negb (pte_v pte) || pte_w pte || (n =? 0)%nat
       then ptw_bad cfg pte vaddr type virt mode s2
       else ptw_loop' n pte (PGBASE (pte_ppn pte)) vaddr type virt mode s2.
Proof.
  intros Hp Hio pte s2 Hr Hx Hpad.
  pose proof (ptw_loop_step n pte0 pg_base vaddr type virt mode s s1 p_pte
                Hp Hio) as E.
  cbv zeta in E. fold pte s2 in E. rewrite Hr, Hx, Hpad in E.
  cbn [negb andb orb nz Z.eqb] in E.
  split.
  - intros Hv Hw Hn. rewrite E, Hv, Hw. cbn [negb orb].
    destruct n; [lia|reflexivity].
  - rewrite E. destruct (pte_v pte), (pte_w pte), n; reflexivity.
Qed.

End Walker.

(** C4 as stated fails: the root entry [pte_pointer_pad] is valid with R, W
    and X clear, and the tables below it map the address; the walker does
    not go down but takes the entry as a leaf, and its permission check
    raises a load page fault after that single read. *)
Lemma ptw_pointer_with_reserved_bit_is_leaf :
  pte_v pte_pointer_pad = true /\ pte_r pte_pointer_pad = false
  /\ pte_w pte_pointer_pad = false /\ pte_x pte_pointer_pad = false
  /\ ptw cfg_plain mem_pointer_pad no_mmio 0 0x5000 MEM_TYPE_READ st_sv39
     = Exc EX_LPF (set_b cpu_amo false
                     (set_z mtval 0x5000 (log_read 0x80000000 st_sv39)))
  /\ ptw_loop cfg_plain mem_pointer_pad no_mmio 2 pte_pointer_pad
       (PGBASE (pte_ppn pte_pointer_pad)) 0x5000 MEM_TYPE_READ 0 MODE_S
       (log_read 0x80000000 st_sv39)
     = Ret 0x80003000
         (set_z pt_level 0
            (log_read 0x80002028
               (log_read 0x80001000 (log_read 0x80000000 st_sv39)))).
Proof. repeat split; vm_compute; reflexivity. Qed.

(** ** The permission checker *)

Section Permission.
Variable cfg : config.

Lemma nz_false_iff (x : Z) : nz x = false <-> x = 0.
Proof. unfold nz. destruct (Z.eqb_spec x 0); cbn; intuition congruence. Qed.

Lemma mem_type_eqb_true (a b : mem_type) : mem_type_eqb a b = true <-> a = b.
Proof.
  unfold mem_type_eqb. split; [apply internal_mem_type_dec_bl|].
  apply internal_mem_type_dec_lb.
Qed.

(** What a call of [check_permission] can do: return [true] without a
    change, or leave with the page fault of the access type. *)
Lemma check_permission_cases (pte : Z) (ok : bool) (vaddr : Z)
    (type : mem_type) (virt mode : Z) (s : state) :
  mode = MODE_U \/ mode = MODE_S ->
  (type = MEM_TYPE_IFETCH -> bv s cpu_amo = false) ->
  (check_permission cfg pte ok vaddr type virt mode s = Ret true s
   /\ ok = true /\ pte_v pte = true /\ pte_pad pte = 0
   /\ permitted_by_rule pte type virt mode s)
  \/ check_permission cfg pte ok vaddr type virt mode s
     = Exc (page_fault_of type (bv s cpu_amo))
           (check_permission_fault_state cfg vaddr type s).
Proof.
  intros Hmode Hamo.
  unfold check_permission, check_permission_fault_state, permitted_by_rule.
  assert ((mode =? MODE_U) || (mode =? MODE_S) = true) as ->
    by (destruct Hmode; subst; reflexivity).
  cbn [assert bind get].
  match goal with
  | |- context [negb (?o && pte_x pte && _) || _] => set (okf := o)
  end.
  assert (okf = true ->
          ok = true /\ pte_v pte = true
          /\ (pte_u pte = true -> mode = MODE_S ->
              (if nz virt then bv s vsstatus_sum else bv s mstatus_sum) = true
              /\ type <> MEM_TYPE_IFETCH)) as Hok.
  { subst okf. rewrite !andb_true_iff, !negb_true_iff.
    intros [[[-> ->] _] Hu]. repeat split; try reflexivity.
    - rewrite H, H0, Z.eqb_refl in Hu. cbn [andb] in Hu.
      apply orb_false_iff in Hu as [Hs _].
      now apply negb_false_iff in Hs.
    - intros ->. rewrite H, H0, Z.eqb_refl in Hu. cbn [andb] in Hu.
      apply orb_false_iff in Hu as [_ Hi]. discriminate. }
  clearbody okf.
  destruct type;
    cbn [mem_type_eqb mem_type_beq
         page_fault_of];
    match goal with
    | |- context [if ?c then _ else ret true] => destruct c eqn:E
    end;
    try (right; try rewrite Hamo by reflexivity; reflexivity);
    left; (split; [reflexivity|]);
    apply orb_false_iff in E as [E _]; apply negb_false_iff in E;
    apply andb_true_iff in E as [E Hpad]; apply andb_true_iff in E as [Hf Hp];
    apply Z.eqb_eq in Hpad;
    destruct (Hok Hf) as (-> & -> & Hu);
    (split; [reflexivity|]); (split; [reflexivity|]);
    (split; [assumption|]); (split; [|split; [|split; [|exact Hu]]]);
    try (intros; assumption); try (intros; discriminate);
    try (intros; congruence).
  - intros _. destruct (bv s hlvx); [assumption|].
    apply orb_true_iff in Hp as [Hp|Hp]; [now left|right].
    apply andb_true_iff in Hp as [Hm Hp]. split; [|assumption].
    apply orb_true_iff in Hm as [Hm|Hm]; [now left|right].
    apply andb_true_iff in Hm as [Hm Hn]. split; [|assumption].
    intros ->. discriminate.
Qed.

(** With [ok = false], as on the [bad] path of the walker, the call always
    leaves with the page fault. *)
Lemma check_permission_bad (pte vaddr : Z) (type : mem_type) (virt mode : Z)
    (s : state) :
  mode = MODE_U \/ mode = MODE_S ->
  (type = MEM_TYPE_IFETCH -> bv s cpu_amo = false) ->
  check_permission cfg pte false vaddr type virt mode s
  = Exc (page_fault_of type (bv s cpu_amo))
        (check_permission_fault_state cfg vaddr type s).
Proof.
  intros Hmode Hamo.
  destruct (check_permission_cases pte false vaddr type virt mode s Hmode Hamo)
    as [(_ & H & _)|H]; [discriminate|exact H].
Qed.

(** A call that returns has returned [true] and changed nothing. *)
Lemma check_permission_returns (pte : Z) (ok : bool) (vaddr : Z)
    (type : mem_type) (virt mode : Z) (s s' : state) (b : bool) :
  check_permission cfg pte ok vaddr type virt mode s = Ret b s' ->
  b = true /\ s' = s /\ ok = true.
Proof.
  unfold check_permission. unfold bind at 1, assert at 1.
  destruct ((mode =? MODE_U) || (mode =? MODE_S)); [|discriminate].
  cbn [bind get].
  destruct type;
    cbn [mem_type_eqb mem_type_beq];
    match goal with
    | |- context [if ?c then _ else ret true] => destruct c eqn:E
    end;
    try (unfold bind, assert, wr_z, wr_b, longjmp_exception;
         destruct (negb (bv s cpu_amo)); discriminate);
    try (cbn [bind wr_z wr_b longjmp_exception]; discriminate);
    intros H; injection H as <- <-;
    apply orb_false_iff in E as [E _]; apply negb_false_iff in E;
    apply andb_true_iff in E as [E _]; apply andb_true_iff in E as [E _];
    (destruct ok; [auto|discriminate]).
Qed.

Lemma xs_tval_plain (vaddr : Z) :
  CONFIG_USE_XS_ARCH_CSRS cfg = false -> xs_tval cfg vaddr = vaddr.
Proof. intros H. unfold xs_tval. now rewrite H. Qed.

(** C1, as the code has it: for an access by U or S mode,
    [check_permission] either returns [true] without changing the state, and
    then the access-type rule and the user-page rule hold for the entry
    (a read under [hlvx] needing the execute bit instead of the read bit),
    or it leaves with the page fault of the access type (the store/AMO page
    fault for a read of an atomic operation), having recorded the address in
    the trap-value register that [INTR_TVAL_REG] selects for that fault. *)
Theorem check_permission_rule (pte : Z) (ok : bool) (vaddr : Z)
    (type : mem_type) (virt mode : Z) (s : state) :
  mode = MODE_U \/ mode = MODE_S ->
  (type = MEM_TYPE_IFETCH -> bv s cpu_amo = false) ->
  (check_permission cfg pte ok vaddr type virt mode s = Ret true s
   /\ permitted_by_rule pte type virt mode s)
  \/ (let ex := page_fault_of type (bv s cpu_amo) in
      exists s',
        check_permission cfg pte ok vaddr type virt mode s = Exc ex s'
        /\ zv s' (INTR_TVAL_REG ex s) = xs_tval cfg vaddr
        /\ (forall l, l <> INTR_TVAL_REG ex s -> zv s' l = zv s l)
        /\ reads s' = reads s).
Proof.
  intros Hmode Hamo.
  destruct (check_permission_cases pte ok vaddr type virt mode s Hmode Hamo)
    as [(E & _ & _ & _ & H)|E]; [left; auto|right].
  cbv zeta. eexists. split; [exact E|].
  unfold check_permission_fault_state.
  destruct type; cbn [page_fault_of]; (split; [|split]);
    try reflexivity; try (intros l Hl); store.
Qed.

End Permission.

(** C1 as stated fails: under [hlvx] a read of a page with the execute bit
    and without the read bit is let through although neither [mstatus.MXR]
    nor [vsstatus.MXR] is set. *)
Lemma check_permission_hlvx_reads_through_x :
  check_permission cfg_plain 0xc9 true 0x1000 MEM_TYPE_READ 0 MODE_S st_hlvx
  = Ret true st_hlvx
  /\ pte_r 0xc9 = false /\ pte_x 0xc9 = true
  /\ bv st_hlvx mstatus_mxr = false /\ bv st_hlvx vsstatus_mxr = false.
Proof. repeat split; vm_compute; reflexivity. Qed.

(** ** Superpages *)

Lemma testbit_not64 (x i : Z) :
  0 <= i < 64 -> Z.testbit (not64 x) i = negb (Z.testbit x i).
Proof.
  intros H. unfold not64, wrap64.
  rewrite Z.mod_pow2_bits_low by lia. apply Z.lnot_spec. lia.
Qed.

Lemma testbit_low_mask (n i : Z) :
  0 <= n -> 0 <= i -> Z.testbit (2 ^ n - 1) i = (i <? n).
Proof.
  intros Hn Hi.
  replace (2 ^ n - 1) with (Z.ones n) by (rewrite Z.ones_equiv; lia).
  now apply Z.testbit_ones_nonneg.
Qed.

(** The superpage splice keeps the virtual-address bits between the page
    offset and the superpage size. *)
Lemma splice_bits (pg_base vaddr level i : Z) :
  0 < level -> 12 <= i < 12 + 9 * level -> i < 64 ->
  Z.testbit (Z.lor (Z.land pg_base (not64 (2 ^ VPNiSHFT level - 1)))
                   (Z.land (Z.land vaddr (2 ^ VPNiSHFT level - 1))
                           (not64 PGMASK))) i
  = Z.testbit vaddr i.
Proof.
  intros Hl Hi Hi64. unfold VPNiSHFT, PGMASK, PGSHFT.
  rewrite Z.lor_spec, !Z.land_spec, !testbit_not64 by lia.
  rewrite !testbit_low_mask by lia.
  destruct (Z.ltb_spec i (12 + 9 * level)); [|lia].
  destruct (Z.ltb_spec i 12); [lia|].
  cbn [negb]. now rewrite andb_false_r, !andb_true_r.
Qed.

Lemma lor_ret_ok (x : Z) : Z.lor x MEM_RET_OK = x.
Proof. apply Z.lor_0_r. Qed.

Lemma bind_then_ret_inv {A B} (m : M A) (x a : B) (s s' : state) :
  bind m (fun _ => ret x) s = Ret a s' -> a = x.
Proof.
  unfold bind, ret. destruct (m s); [|discriminate|discriminate].
  now intros [= <- _].
Qed.

Section Superpage.
Variable cfg : config.
Variable pmem : Z -> Z.

Lemma gpa_stage_off (gpaddr vaddr : Z) (type : mem_type) (s : state) :
  zv s hgatp_mode = 0 ->
  gpa_stage cfg pmem gpaddr vaddr type s = Ret gpaddr (set_z pt_level 0 s).
Proof.
  intros H. unfold gpa_stage. cbn [bind wr_z get].
  rewrite zv_set_z_other by discriminate. now rewrite H.
Qed.

(** C3, as the code has it: for a leaf found at a level [0 < L <= 3],
    a page number that is not aligned to the superpage size makes the
    walker leave with the page fault of the access type; and when the walker
    returns an address and no second-stage translation applies to it (the
    access is not virtualized, or [hgatp.mode] is 0), the bits
    [L*9+12-1 .. 12] of that address are those of the virtual address. *)
Theorem ptw_superpage_splice (level pte vaddr : Z) (type : mem_type)
    (virt mode : Z) (s : state) :
  0 < level <= 3 ->
  let pg_base := PGBASE (pte_ppn pte) in
  (Z.land pg_base (2 ^ VPNiSHFT level - 1) <> 0 ->
   mode = MODE_U \/ mode = MODE_S ->
   (type = MEM_TYPE_IFETCH -> bv s cpu_amo = false) ->
   exists s',
     ptw_after_loop cfg pmem level pte pg_base vaddr type virt mode s
     = Exc (page_fault_of type (bv s cpu_amo)) s')
  /\ (forall pa s',
        virt = 0 \/ zv s hgatp_mode = 0 ->
        ptw_after_loop cfg pmem level pte pg_base vaddr type virt mode s
        = Ret pa s' ->
        Z.land pg_base (2 ^ VPNiSHFT level - 1) = 0
        /\ forall i, 12 <= i < 12 + 9 * level ->
                     Z.testbit pa i = Z.testbit vaddr i).
Proof.
  intros Hl pg_base.
  assert ((0 <? level) = true) as Hpos by (apply Z.ltb_lt; lia).
  split.
  - intros Hmis Hmode Hamo. unfold ptw_after_loop.
    destruct (check_permission_cases cfg pte true vaddr type virt mode s
                Hmode Hamo) as [(E & _)|E].
    + rewrite (bind_Ret _ _ _ _ _ E). cbn [negb bind wr_z].
      rewrite Hpos, (nz_true _ Hmis). cbn [andb]. unfold ptw_bad.
      pose proof (check_permission_bad cfg pte vaddr type virt mode
                    (set_z pt_level level s) Hmode Hamo) as Eb.
      rewrite (bind_Ret_Exc _ _ _ _ _ Eb).
      eauto.
    + rewrite (bind_Ret_Exc _ _ _ _ _ E). eauto.
  - intros pa s' Hg. unfold ptw_after_loop.
    unfold bind at 1.
    destruct (check_permission cfg pte true vaddr type virt mode s)
      as [b s1| |] eqn:E; [|discriminate|discriminate].
    apply check_permission_returns in E as (-> & -> & _).
    cbn [negb bind wr_z]. rewrite Hpos. cbn [andb].
    unfold nz at 1.
    destruct (Z.eqb_spec (Z.land pg_base (2 ^ VPNiSHFT level - 1)) 0)
      as [Hal|Hmis]; cbn [negb].
    2:{ unfold ptw_bad, bind.
        destruct (check_permission cfg pte false _ _ _ _ _) eqn:E;
          [|discriminate|discriminate].
        apply check_permission_returns in E as (_ & _ & ?). discriminate. }
    set (pgb := Z.lor (Z.land pg_base (not64 (2 ^ VPNiSHFT level - 1)))
                      (Z.land (Z.land vaddr (2 ^ VPNiSHFT level - 1))
                              (not64 PGMASK))).
    assert (forall i, 12 <= i < 12 + 9 * level ->
                      Z.testbit pgb i = Z.testbit vaddr i) as Hbits.
    { intros i Hi. apply splice_bits; lia. }
    destruct Hg as [-> | Hoff].
    + cbn [nz Z.eqb negb andb bind ret]. intros H.
      apply bind_then_ret_inv in H. subst pa. rewrite lor_ret_ok. auto.
    + destruct (nz virt).
      2:{ cbn [andb bind ret]. intros H.
          apply bind_then_ret_inv in H. subst pa. rewrite lor_ret_ok. auto. }
      unfold bind at 1 2.
      rewrite gpa_stage_off
        by (rewrite zv_set_z_other by discriminate; exact Hoff).
      cbn [ret andb].
      set (pgb2 := Z.land _ (not64 PAGE_MASK)).
      assert (forall i, 12 <= i < 64 -> Z.testbit pgb2 i = Z.testbit pgb i)
        as Hbits2.
      { intros i Hi. subst pgb2.
        rewrite Z.land_spec, Z.lor_spec, Z.land_spec, testbit_not64 by lia.
        change PAGE_MASK with (2 ^ 12 - 1).
        rewrite testbit_low_mask by lia.
        destruct (Z.ltb_spec i 12); [lia|].
        cbn [negb]. now rewrite andb_false_r, orb_false_r, andb_true_r. }
      assert ((pgb2 =? MEM_RET_FAIL) = false) as ->.
      { apply Z.eqb_neq. intros H.
        assert (Z.testbit pgb2 0 = false) as H0.
        { subst pgb2. rewrite Z.land_spec, testbit_not64 by lia.
          change PAGE_MASK with (2 ^ 12 - 1).
          rewrite testbit_low_mask by lia. cbn. apply andb_false_r. }
        rewrite H in H0. discriminate. }
      intros H. apply bind_then_ret_inv in H. subst pa.
      rewrite lor_ret_ok. split; [exact Hal|].
      intros i Hi. rewrite Hbits2 by lia. auto.
Qed.

End Superpage.

(** C3 as stated fails under two-stage translation: the guest's leaf for
    virtual [0x1000] is a 2 MiB superpage (level 1), the walker returns
    [0x90005000], and bit 14 of that address is not bit 14 of the virtual
    address. *)
Lemma ptw_superpage_two_stage_remaps :
  ptw cfg_plain mem_two_stage no_mmio 0 0x1000 MEM_TYPE_READ st_two_stage
  = ptw_after_loop cfg_plain mem_two_stage 1 (mk_pte 0x200 0xcf)
      (PGBASE (pte_ppn (mk_pte 0x200 0xcf))) 0x1000 MEM_TYPE_READ 1 MODE_S
      (log_read 0x90001000
         (fold_right log_read
            (set_z pt_level 0
               (log_read 0x90000000
                  (fold_right log_read (set_z pt_level 0 st_two_stage)
                     [0x80002000; 0x80001000; 0x80000000])))
            [0x80002008; 0x80001000; 0x80000000]))
  /\ (exists s', ptw cfg_plain mem_two_stage no_mmio 0 0x1000 MEM_TYPE_READ
                   st_two_stage = Ret 0x90005000 s')
  /\ Z.testbit 0x90005000 14 <> Z.testbit 0x1000 14.
Proof.
  split; [vm_compute; reflexivity|].
  split; [eexists; vm_compute; reflexivity|].
  vm_compute. discriminate.
Qed.

(** ** The MMU check *)


Section MmuCheck.
Variable cfg : config.

(** The alignment check returns when the address is aligned or the check
    is not configured. *)
Lemma isa_misalign_passes (vaddr len : Z) (type : mem_type) (s : state) :
  CONFIG_AC_SOFT cfg = false \/ Z.land vaddr (wrap64 (len - 1)) = 0 ->
  isa_misalign_data_addr_check cfg vaddr len type s = Ret tt s.
Proof.
  intros H. unfold isa_misalign_data_addr_check.
  destruct H as [-> | ->]; [now rewrite andb_false_r|reflexivity].
Qed.



End MmuCheck.


(** ** The canonical-address test of the walker *)

Ltac pow_consts :=
  change (2 ^ 64) with 18446744073709551616 in *;
  change (2 ^ 63) with 9223372036854775808 in *.

Lemma testbit_top (y : Z) :
  0 <= y < 2 ^ 64 -> Z.testbit y 63 = (2 ^ 63 <=? y).
Proof.
  intros H. destruct (Z.leb_spec (2 ^ 63) y).
  - apply Z.testbit_true; [lia|].
    assert (y / 2 ^ 63 = 1) as ->; [|reflexivity].
    symmetry. apply Z.div_unique with (r := y - 2 ^ 63); pow_consts; lia.
  - apply Z.bits_above_log2; [lia|].
    destruct (Z.eq_dec y 0) as [->|]; [cbn; lia|].
    apply Z.log2_lt_pow2; lia.
Qed.

Lemma to_int64_bits (y j : Z) :
  0 <= y < 2 ^ 64 -> 0 <= j ->
  Z.testbit (to_int64 y) j = if j <? 64 then Z.testbit y j else Z.testbit y 63.
Proof.
  intros Hy Hj. unfold to_int64, wrap64.
  rewrite (Z.mod_small y) by lia.
  rewrite testbit_top by exact Hy.
  destruct (Z.ltb_spec j 64) as [Hj64|Hj64].
  - destruct (Z.ltb_spec y (2 ^ 63)); [reflexivity|].
    rewrite <- (Z.mod_pow2_bits_low (y - 2 ^ 64) 64 j) by exact Hj64.
    rewrite <- (Z.mod_pow2_bits_low y 64 j) by exact Hj64.
    f_equal. replace (y - 2 ^ 64) with (y + (-1) * 2 ^ 64) by lia.
    apply Z_mod_plus_full.
  - destruct (Z.ltb_spec y (2 ^ 63)) as [Hlt|Hge].
    + destruct (Z.leb_spec (2 ^ 63) y); [lia|].
      apply Z.bits_above_log2; [lia|].
      destruct (Z.eq_dec y 0) as [->|]; [cbn; lia|].
      apply Z.log2_lt_pow2; [lia|].
      apply Z.lt_le_trans with (2 ^ 63); [lia|].
      apply Z.pow_le_mono_r; lia.
    + destruct (Z.leb_spec (2 ^ 63) y); [|lia].
      apply Z.bits_above_log2_neg; [pow_consts; lia|].
      destruct (Z.eq_dec (Z.pred (- (y - 2 ^ 64))) 0) as [->|Hne];
        [cbn; lia|].
      apply Z.log2_lt_pow2; [pow_consts; lia|].
      apply Z.lt_le_trans with (2 ^ 63); [pow_consts; lia|].
      apply Z.pow_le_mono_r; lia.
Qed.

(** The bits of the canonical form that [ptw] computes by shifting. *)
Lemma sext_by_shift_bits (vaddr k i : Z) :
  0 < k < 64 -> 0 <= i < 64 ->
  Z.testbit (sext_by_shift vaddr k) i
  = if i <? k then Z.testbit vaddr i else Z.testbit vaddr (k - 1).
Proof.
  intros Hk Hi. unfold sext_by_shift.
  unfold wrap64 at 1. rewrite Z.mod_pow2_bits_low by lia.
  rewrite Z.shiftr_spec by lia.
  assert (0 <= shl64 vaddr (64 - k) < 2 ^ 64) as Hy
    by (unfold shl64, wrap64; apply Z.mod_pos_bound; reflexivity).
  rewrite to_int64_bits by (auto; lia).
  assert (forall j, 0 <= j < 64 ->
            Z.testbit (shl64 vaddr (64 - k)) j = Z.testbit vaddr (j - (64 - k)))
    as Hshl.
  { intros j Hj. unfold shl64, wrap64.
    rewrite Z.mod_pow2_bits_low by lia. apply Z.shiftl_spec. lia. }
  destruct (Z.ltb_spec (i + (64 - k)) 64), (Z.ltb_spec i k); try lia;
    rewrite Hshl by lia; f_equal; lia.
Qed.

Lemma sext_by_shift_fixed (vaddr k : Z) :
  0 < k < 64 -> 0 <= vaddr < 2 ^ 64 ->
  sext_by_shift vaddr k = vaddr <-> sign_extended_from (k - 1) vaddr.
Proof.
  intros Hk Hv. split.
  - intros E i Hi. rewrite <- E at 1.
    rewrite sext_by_shift_bits by lia.
    destruct (Z.ltb_spec i k); [|reflexivity].
    f_equal. lia.
  - intros H. apply Z.bits_inj'. intros i Hi.
    destruct (Z.ltb_spec i 64) as [Hi64|Hi64].
    + rewrite sext_by_shift_bits by lia.
      destruct (Z.ltb_spec i k); [reflexivity|].
      symmetry. apply H. lia.
    + assert (forall x, 0 <= x < 2 ^ 64 -> Z.testbit x i = false) as Hhigh.
      { intros x Hx. destruct (Z.eq_dec x 0) as [->|]; [apply Z.bits_0|].
        apply Z.bits_above_log2; [lia|].
        apply Z.lt_le_trans with 64; [|exact Hi64].
        apply Z.log2_lt_pow2; lia. }
      rewrite (Hhigh vaddr Hv). apply Hhigh.
      unfold sext_by_shift, wrap64. apply Z.mod_pos_bound. reflexivity.
Qed.

(** The test of [isa_mmu_check] is the sign-extension test. *)
Lemma sign_extended_va_msbs_ok (b vaddr : Z) :
  b = 38 \/ b = 47 -> 0 <= vaddr < 2 ^ 64 ->
  sign_extended_from b vaddr -> va_msbs_ok_at b vaddr = true.
Proof.
  intros Hb Hv H. unfold va_msbs_ok_at.
  assert (0 <= b < 64) as Hb64 by (destruct Hb; subst; lia).
  assert (shl64 1 (63 - b + 1) - 1 = 2 ^ (64 - b) - 1) as ->
    by (destruct Hb; subst; reflexivity).
  assert (forall j, 64 - b <= j -> Z.testbit (Z.shiftr vaddr b) j = false)
    as Hhigh.
  { intros j Hj. rewrite Z.shiftr_spec by lia.
    destruct (Z.eq_dec vaddr 0) as [->|]; [apply Z.bits_0|].
    apply Z.bits_above_log2; [lia|].
    apply Z.lt_le_trans with 64; [|lia].
    apply Z.log2_lt_pow2; lia. }
  apply orb_true_iff.
  destruct (Z.testbit vaddr b) eqn:Eb; [left|right]; apply Z.eqb_eq;
    apply Z.bits_inj'; intros j Hj.
  - rewrite testbit_low_mask by lia.
    destruct (Z.ltb_spec j (64 - b)).
    + rewrite Z.shiftr_spec by lia. rewrite H by lia. exact Eb.
    + apply Hhigh. lia.
  - rewrite Z.bits_0.
    destruct (Z.ltb_spec j (64 - b)).
    + rewrite Z.shiftr_spec by lia. rewrite H by lia. exact Eb.
    + apply Hhigh. lia.
Qed.

Section WalkerCanonical.
Variable cfg : config.
Variable pmem : Z -> Z.
Variable is_in_mmio : Z -> bool.
Variable pte_uninit : Z.

(** The width of the scheme that [ptw] walks: the guest's [vsatp] when the
    access is virtualized, [satp] otherwise; 39 bits for mode 8, 48 bits
    for every other value. *)
Lemma ptw_noncanonical_faults (vaddr : Z) (type : mem_type) (s : state) :
  0 <= vaddr < 2 ^ 64 ->
  let virt := fst (ptw_virt_mode type s) in
  let mode := snd (ptw_virt_mode type s) in
  let k := if (if nz virt then zv s vsatp_mode else zv s satp_mode) =? 8
           then 39 else 48 in
  nz virt && (zv s vsatp_mode =? 0) = false ->
  ~ sign_extended_from (k - 1) vaddr ->
  mode = MODE_U \/ mode = MODE_S ->
  (type = MEM_TYPE_IFETCH -> bv s cpu_amo = false) ->
  ptw cfg pmem is_in_mmio pte_uninit vaddr type s
  = Exc (page_fault_of type (bv s cpu_amo))
        (check_permission_fault_state cfg vaddr type s).
Proof.
  intros Hv virt mode k Hbare Hext Hmode Hamo.
  unfold ptw. cbn [bind get].
  destruct (ptw_virt_mode type s) as [virt' mode'] eqn:E.
  cbn [fst snd] in virt, mode. subst virt mode.
  rewrite Hbare.
  assert (0 < k < 64) as Hk by (subst k; destruct (_ =? 8); lia).
  assert (sext_by_shift vaddr k <> vaddr) as Hne.
  { intros Heq. apply Hext. now apply sext_by_shift_fixed. }
  apply Z.eqb_neq in Hne. subst k.
  destruct (nz virt');
    [destruct (zv s vsatp_mode =? 8) | destruct (zv s satp_mode =? 8)];
    cbn [Nat.eqb]; rewrite Hne; cbn [negb]; unfold ptw_bad;
    apply bind_Ret_Exc; now apply check_permission_bad.
Qed.

End WalkerCanonical.

(** * The properties at concrete inputs *)

(** C9 at an access of four bytes that starts two bytes before the end of a
    page. *)
Lemma isa_mmu_translate_cross_page_witness :
  PAGE_SIZE < Z.land 0xffe PAGE_MASK + 4
  /\ isa_mmu_translate cfg_plain mem_pointer no_mmio 0 0xffe 4 MEM_TYPE_READ
       st_sv39
     = Ret MEM_RET_CROSS_PAGE st_sv39.
Proof.
  assert (PAGE_SIZE < Z.land 0xffe PAGE_MASK + 4) as H by reflexivity.
  split; [exact H|].
  apply (isa_mmu_translate_cross_page cfg_plain mem_pointer no_mmio 0 0xffe 4
           MEM_TYPE_READ st_sv39); [|exact H].
  split; [apply Z.leb_le | apply Z.ltb_lt]; reflexivity.
Defined.

(** C5 at a breakpoint raised in VS mode with bit 3 set in [medeleg] and in
    [hedeleg]. *)
Lemma raise_intr_delegation_precedence_witness :
  exists s',
    raise_intr cfg_plain EX_BP 0x1000 st_guest_deleg
    = Ret (get_trap_pc (zv st_guest_deleg vstvec) (zv s' vscause)) s'
    /\ zv s' vscause = EX_BP
    /\ zv s' vsepc = 0x1000
    /\ zv s' cpu_v = 1
    /\ zv s' cpu_mode = MODE_S
    /\ zv s' scause = zv st_guest_deleg scause
    /\ zv s' sepc = zv st_guest_deleg sepc
    /\ zv s' stval = zv st_guest_deleg stval
    /\ bv s' mstatus_spp = bv st_guest_deleg mstatus_spp
    /\ bv s' mstatus_spie = bv st_guest_deleg mstatus_spie
    /\ bv s' mstatus_sie = bv st_guest_deleg mstatus_sie.
Proof.
  apply (raise_intr_delegation_precedence cfg_plain EX_BP 0x1000
           st_guest_deleg).
  - vm_compute. reflexivity.
  - reflexivity.
  - reflexivity.
  - vm_compute. discriminate.
  - vm_compute. reflexivity.
  - repeat split; reflexivity.
Defined.

(** C10 at an illegal-instruction exception that nothing delegates: the
    trap goes to machine mode. *)
Lemma raise_intr_frame_witness :
  atp_legal cfg_plain st_sv39
  /\ exists pc s',
       raise_intr cfg_plain EX_II 0x1000 st_sv39 = Ret pc s'
       /\ s_trap_regs_kept st_sv39 s' /\ vs_trap_regs_kept st_sv39 s'.
Proof.
  assert (atp_legal cfg_plain st_sv39) as H by (repeat split; reflexivity).
  split; [exact H|].
  exact (raise_intr_frame cfg_plain EX_II 0x1000 st_sv39 H).
Defined.

(** C7 at an eight-byte read at [0x1000] against one top-of-range entry that
    ends at [0x1004] and grants R, W and X. *)
Lemma isa_pmp_check_partial_overlap_denied_witness :
  isa_pmp_check_permission 1 pmpaddr_one pmpcfg_one (2 ^ 64 - 1)
    0x1000 8 MEM_TYPE_READ MODE_S st_sv39 = false.
Proof.
  apply (isa_pmp_check_partial_overlap_denied 1 pmpaddr_one pmpcfg_one
           (2 ^ 64 - 1) 0x1000 8 MEM_TYPE_READ MODE_S st_sv39 0%nat).
  - lia.
  - lia.
  - intros j off Hj. lia.
  - exists 0. split; [simpl; auto | reflexivity].
  - exists 4. split; [simpl; auto | reflexivity].
Defined.

(** C4 at the root entry of [mem_pointer]. *)
Lemma ptw_descends_on_pointer_witness :
  ptw_loop cfg_plain mem_pointer no_mmio 3 0 (PGBASE 0x80000) 0x5000
    MEM_TYPE_READ 0 MODE_S st_sv39
  = ptw_loop cfg_plain mem_pointer no_mmio 2 (mk_pte 0x80001 0x01)
      (PGBASE 0x80001) 0x5000 MEM_TYPE_READ 0 MODE_S
      (log_read 0x80000000 st_sv39).
Proof.
  apply (proj1 (ptw_descends_on_pointer cfg_plain mem_pointer no_mmio 2 0
                  (PGBASE 0x80000) 0x5000 MEM_TYPE_READ 0 MODE_S
                  st_sv39 st_sv39 0x80000000
                  eq_refl eq_refl eq_refl eq_refl eq_refl)).
  - reflexivity.
  - reflexivity.
  - lia.
Defined.

(** C1 at an instruction fetch from a page that is readable and not
    executable. *)
Lemma check_permission_rule_witness :
  (check_permission cfg_plain 0xc3 true 0x1000 MEM_TYPE_IFETCH 0 MODE_S st_sv39
   = Ret true st_sv39
   /\ permitted_by_rule 0xc3 MEM_TYPE_IFETCH 0 MODE_S st_sv39)
  \/ (let ex := page_fault_of MEM_TYPE_IFETCH (bv st_sv39 cpu_amo) in
      exists s',
        check_permission cfg_plain 0xc3 true 0x1000 MEM_TYPE_IFETCH 0 MODE_S
          st_sv39 = Exc ex s'
        /\ zv s' (INTR_TVAL_REG ex st_sv39) = xs_tval cfg_plain 0x1000
        /\ (forall l, l <> INTR_TVAL_REG ex st_sv39 -> zv s' l = zv st_sv39 l)
        /\ reads s' = reads st_sv39).
Proof.
  apply (check_permission_rule cfg_plain 0xc3 true 0x1000 MEM_TYPE_IFETCH 0
           MODE_S st_sv39).
  - right. reflexivity.
  - intros _. reflexivity.
Defined.

(** C3 at a 2 MiB superpage. *)
Lemma ptw_superpage_splice_witness :
  0 < 1 <= 3
  /\ forall pa s',
       ptw_after_loop cfg_plain mem_pointer 1 pte_superpage
         (PGBASE (pte_ppn pte_superpage)) 0x5000 MEM_TYPE_READ 0 MODE_S st_sv39
       = Ret pa s' ->
       forall i, 12 <= i < 12 + 9 * 1 -> Z.testbit pa i = Z.testbit 0x5000 i.
Proof.
  assert (0 < 1 <= 3) as H by lia.
  split; [exact H|].
  intros pa s' E i Hi.
  exact (proj2 (proj2 (ptw_superpage_splice cfg_plain mem_pointer 1
                         pte_superpage 0x5000 MEM_TYPE_READ 0 MODE_S st_sv39 H)
                  pa s' (or_introl eq_refl) E) i Hi).
Defined.

(** The call of the witness above does return, with the spliced address. *)
Example ptw_superpage_returns :
  ptw_after_loop cfg_plain mem_pointer 1 pte_superpage
    (PGBASE (pte_ppn pte_superpage)) 0x5000 MEM_TYPE_READ 0 MODE_S st_sv39
  = Ret 0x80205000 (set_z pt_level 1 st_sv39).
Proof. vm_compute. reflexivity. Qed.


(** The same fetch, evaluated: the fault is the instruction page fault and
    the address is in [mtval]. *)
Example isa_mmu_check_sv39_fetch_faults :
  isa_mmu_check cfg_plain (2 ^ 39) 4 MEM_TYPE_IFETCH st_sv39
  = Exc EX_IPF (set_z mtval (2 ^ 39) st_sv39).
Proof. vm_compute. reflexivity. Qed.

(** In guest mode with [vsatp] in the 39-bit scheme and [satp] in the 48-bit
    one, [isa_mmu_check] tests bit 47 and lets [2^39] through, whose bit 39
    differs from bit 38; the walker, which goes by [vsatp], raises the
    instruction page fault for the same address before it reads. *)
Lemma isa_mmu_check_guest_sv39_host_sv48 :
  vm_enable true st_guest_sv39_host_sv48 = true
  /\ scheme_bit st_guest_sv39_host_sv48 = 38
  /\ boundary_bit st_guest_sv39_host_sv48 = 47
  /\ Z.testbit (2 ^ 39) 39 <> Z.testbit (2 ^ 39) 38
  /\ isa_mmu_check cfg_plain (2 ^ 39) 4 MEM_TYPE_IFETCH
       st_guest_sv39_host_sv48
     = Ret MMU_TRANSLATE st_guest_sv39_host_sv48
  /\ exists s',
       ptw cfg_plain mem_pointer no_mmio 0 (2 ^ 39) MEM_TYPE_IFETCH
         st_guest_sv39_host_sv48
       = Exc EX_IPF s'
       /\ reads s' = reads st_guest_sv39_host_sv48.
Proof.
  repeat split; try (vm_compute; reflexivity).
  - vm_compute. discriminate.
  - eexists. split; vm_compute; reflexivity.
Qed.

(** In guest mode with instruction page faults delegated by [medeleg] and
    not by [hedeleg], the trap goes to supervisor level, whose trap value is
    [stval]; [isa_mmu_check] records the address in [vstval] and leaves
    [stval] as it was. *)
Lemma isa_mmu_check_guest_tval_register :
  trap_target_of EX_IPF st_guest_sv39_medeleg = TargetS
  /\ INTR_TVAL_REG EX_IPF st_guest_sv39_medeleg = stval
  /\ isa_mmu_check cfg_plain (2 ^ 39) 4 MEM_TYPE_IFETCH st_guest_sv39_medeleg
     = Exc EX_IPF (set_z vstval (2 ^ 39) st_guest_sv39_medeleg)
  /\ zv (set_z vstval (2 ^ 39) st_guest_sv39_medeleg) stval = 0x77.
Proof. repeat split; vm_compute; reflexivity. Qed.

(** C8 at two states.  With supervisor software (1), machine timer (7) and
    supervisor external (9) pending in user mode and nothing delegated, the
    machine timer is taken, which is neither the lowest nor the highest
    cause number.  With supervisor external delegated and masked in
    supervisor mode, the scan passes it and takes supervisor software. *)
Lemma isa_query_intr_first_enabled_witness :
  isa_query_intr cfg_plain st_three_pending = Z.lor 7 INTR_BIT
  /\ isa_query_intr cfg_plain st_external_masked = Z.lor 1 INTR_BIT.
Proof.
  split.
  - rewrite (isa_query_intr_first_enabled cfg_plain st_three_pending).
    reflexivity.
  - rewrite (isa_query_intr_first_enabled cfg_plain st_external_masked).
    reflexivity.
Defined.

(** * Further properties *)

Ltac mrun := cbn [bind get wr_z wr_b ret when].

(** ** Trap vectors *)

Lemma shl64_mul (x n : Z) : 0 <= n -> shl64 x n = (x * 2 ^ n) mod 2 ^ 64.
Proof. intros H. unfold shl64, wrap64. now rewrite Z.shiftl_mul_pow2. Qed.

Lemma shiftr_63_intr (x : Z) :
  0 <= x < 2 ^ 64 -> (Z.shiftr x 63 =? 1) = (2 ^ 63 <=? x).
Proof.
  intros H. rewrite Z.shiftr_div_pow2 by lia.
  destruct (Z.leb_spec (2 ^ 63) x).
  - apply Z.eqb_eq. assert (1 <= x / 2 ^ 63 < 2); [|lia].
    split; [apply Z.div_le_lower_bound | apply Z.div_lt_upper_bound]; lia.
  - apply Z.eqb_neq. rewrite Z.div_small; lia.
Qed.

(** X1: the trap PC is the base of the trap vector ([xtvec] with its low two
    bits cleared) for every exception and in direct mode; for an interrupt
    in vectored mode it is the base plus four times the cause number (the
    low eight bits of the cause).  It is always a multiple of four. *)
Theorem get_trap_pc_vectoring (xtvec xcause : Z) :
  0 <= xtvec < 2 ^ 64 -> 0 <= xcause < 2 ^ 64 ->
  get_trap_pc xtvec xcause
  = (xtvec - xtvec mod 4
     + (if (2 ^ 63 <=? xcause) && Z.odd xtvec
        then 4 * (xcause mod 256) else 0)) mod 2 ^ 64
  /\ get_trap_pc xtvec xcause mod 4 = 0.
Proof.
  intros Hv Hc. unfold get_trap_pc.
  rewrite shiftr_63_intr by assumption.
  rewrite !shl64_mul by lia. rewrite Z.shiftr_div_pow2 by lia.
  change (Z.land xtvec 1) with (Z.land xtvec (Z.ones 1)).
  change (Z.land xcause 255) with (Z.land xcause (Z.ones 8)).
  rewrite !Z.land_ones by lia.
  change (2 ^ 2) with 4. change (2 ^ 1) with 2. change (2 ^ 8) with 256.
  assert (Z.odd xtvec = (xtvec mod 2 =? 1)) as ->.
  { rewrite Zmod_odd. now destruct (Z.odd xtvec). }
  unfold wrap64.
  assert (xtvec / 4 * 4 = xtvec - xtvec mod 4) as E
    by (pose proof (Z.div_mod xtvec 4); lia).
  rewrite E.
  assert (0 <= xtvec mod 4 < 4) by (apply Z.mod_pos_bound; lia).
  assert (0 <= xcause mod 256 < 256) by (apply Z.mod_pos_bound; lia).
  assert (Hb : (xtvec - xtvec mod 4) mod 2 ^ 64 = xtvec - xtvec mod 4)
    by (apply Z.mod_small; lia).
  assert (Hs : (xcause mod 256 * 4) mod 2 ^ 64 = xcause mod 256 * 4)
    by (apply Z.mod_small; lia).
  rewrite Hb, Hs.
  assert (Hal : forall y, (xtvec - xtvec mod 4 + 4 * y) mod 2 ^ 64 mod 4 = 0).
  { intros y. rewrite Z.mod_mod_divide by (exists (2 ^ 62); reflexivity).
    replace (xtvec - xtvec mod 4 + 4 * y) with ((xtvec / 4 + y) * 4) by lia.
    apply Z.mod_mul. lia. }
  destruct ((2 ^ 63 <=? xcause) && (xtvec mod 2 =? 1)).
  - split; [f_equal; lia|].
    replace (xtvec - xtvec mod 4 + xcause mod 256 * 4)
      with (xtvec - xtvec mod 4 + 4 * (xcause mod 256)) by lia.
    apply Hal.
  - rewrite Z.add_0_r, Hb. split; [reflexivity|].
    rewrite <- E. apply Z.mod_mul. lia.
Qed.

(** ** The MMU-state cache, by value *)

Lemma update_mmu_state_internal_value (cfg : config) (ifetch : bool)
    (s : state) :
  atp_mode_ok cfg (zv s satp_mode) = true ->
  update_mmu_state_internal cfg ifetch s = Ret (mmu_state_of cfg ifetch s) s.
Proof.
  intros H. unfold update_mmu_state_internal, mmu_state_of, effective_mode.
  unfold bind, get, assert, ret. rewrite H.
  destruct (_ <? MODE_M); cbn [andb]; [|reflexivity].
  now destruct (atp_mode_on cfg (zv s satp_mode)).
Qed.

Lemma update_h_mmu_state_internal_value (cfg : config) (ifetch : bool)
    (s : state) :
  atp_mode_ok cfg (zv s vsatp_mode) = true ->
  atp_mode_ok cfg (zv s hgatp_mode) = true ->
  update_h_mmu_state_internal cfg ifetch s = Ret (h_mmu_state_of cfg ifetch s) s.
Proof.
  intros H1 H2.
  unfold update_h_mmu_state_internal, h_mmu_state_of, effective_mode.
  unfold bind, get, assert, ret. rewrite H1, H2.
  destruct (_ <? MODE_M); cbn [andb]; [|reflexivity].
  now destruct (atp_mode_on cfg (zv s vsatp_mode) || atp_mode_on cfg (zv s hgatp_mode)).
Qed.

Lemma update_mmu_state_value (cfg : config) (s : state) :
  atp_legal cfg s ->
  update_mmu_state cfg s
  = Ret (nz (Z.lxor (mmu_state_of cfg false s) (zv s data_mmu_state)))
        (mmu_state_updated cfg s).
Proof.
  intros (Hs & Hv & Hh). unfold update_mmu_state, mmu_state_updated.
  rewrite (bind_Ret _ _ _ _ _ (update_mmu_state_internal_value cfg true s Hs)).
  unfold wr_z at 1. unfold bind at 1. unfold get at 1. unfold bind at 1.
  set (s1 := set_z ifetch_mmu_state _ s).
  rewrite (bind_Ret _ _ _ _ _
             (update_mmu_state_internal_value cfg false s1 Hs)).
  unfold wr_z at 1. unfold bind at 1.
  set (s2 := set_z data_mmu_state _ s1).
  rewrite (bind_Ret _ _ _ _ _
             (update_h_mmu_state_internal_value cfg false s2 Hv Hh)).
  reflexivity.
Qed.

(** X2: with legal translation modes, a second [update_mmu_state] right
    after a first reports no change of the data MMU state and leaves every
    location as the first call left it. *)
Theorem update_mmu_state_idempotent (cfg : config) (s : state) :
  atp_legal cfg s ->
  exists b s1 s2,
    update_mmu_state cfg s = Ret b s1
    /\ update_mmu_state cfg s1 = Ret false s2
    /\ same_store s1 s2.
Proof.
  intros H.
  exists (nz (Z.lxor (mmu_state_of cfg false s) (zv s data_mmu_state))).
  exists (mmu_state_updated cfg s).
  exists (mmu_state_updated cfg (mmu_state_updated cfg s)).
  split; [now apply update_mmu_state_value|].
  assert (atp_legal cfg (mmu_state_updated cfg s)) as H'.
  { eapply atp_legal_frame; [| | |exact H]; reflexivity. }
  split.
  - rewrite (update_mmu_state_value cfg _ H'). f_equal.
    unfold mmu_state_updated at 2. store.
    change (mmu_state_of cfg false (mmu_state_updated cfg s))
      with (mmu_state_of cfg false s).
    now rewrite Z.lxor_nilpotent.
  - unfold same_store. repeat split.
    intros l. destruct l; reflexivity.
Qed.

(** The result of [isa_mmu_check] when it returns: the cached state it
    selects, normalised to the two result codes. *)
Lemma isa_mmu_check_returns (cfg : config) (vaddr len : Z) (type : mem_type)
    (s s' : state) (r : Z) :
  isa_mmu_check cfg vaddr len type s = Ret r s' ->
  s' = s
  /\ r = (let cached :=
            if mem_type_eqb type MEM_TYPE_IFETCH
            then (if nz (zv s cpu_v) then h_mmu_state else ifetch_mmu_state)
            else (if bv s hld_st then h_mmu_state else data_mmu_state) in
          if nz (zv s cached) then MMU_TRANSLATE else MMU_DIRECT).
Proof.
  unfold isa_mmu_check.
  assert (Hmis : when (negb (mem_type_eqb type MEM_TYPE_IFETCH))
                   (isa_misalign_data_addr_check cfg vaddr len type) s
                 = Ret tt s
                 \/ exists ex s1,
                     when (negb (mem_type_eqb type MEM_TYPE_IFETCH))
                       (isa_misalign_data_addr_check cfg vaddr len type) s
                     = Exc ex s1).
  { unfold when, isa_misalign_data_addr_check.
    destruct (negb _); [|now left].
    destruct (nz _ && _); [right|now left].
    unfold bind, get, wr_z, longjmp_exception. eauto. }
  destruct Hmis as [E | (ex & s1 & E)].
  2: { rewrite (bind_Ret_Exc _ _ _ _ _ E). discriminate. }
  rewrite (bind_Ret _ _ _ _ _ E). unfold get at 1. unfold bind at 1.
  unfold isa_mmu_check_fault.
  destruct (mem_type_eqb type MEM_TYPE_IFETCH), (nz (zv s cpu_v)),
    (bv s hld_st);
  (destruct (vm_enable _ s); [destruct (enable_48 s); [|destruct (enable_39 s)]|]);
    cbn [bind ret get negb andb orb];
    try discriminate;
    repeat match goal with
           | |- context [if ?c then _ else _] =>
               lazymatch c with
               | context [if _ then _ else _] => fail
               | _ => destruct c eqn:?
               end; cbn [bind ret get negb andb orb wr_z longjmp_exception]
           end;
    try discriminate;
    intros [= <- <-]; split; reflexivity.
Qed.

(** X3: [isa_mmu_check] changes nothing when it returns, and returns one of
    the two results "direct" and "translate"; so a second call in the same
    state returns the same result. *)
Theorem isa_mmu_check_pure (cfg : config) (vaddr len : Z) (type : mem_type)
    (s s' : state) (r : Z) :
  isa_mmu_check cfg vaddr len type s = Ret r s' ->
  s' = s /\ (r = MMU_DIRECT \/ r = MMU_TRANSLATE)
  /\ isa_mmu_check cfg vaddr len type s' = Ret r s'.
Proof.
  intros H. destruct (isa_mmu_check_returns _ _ _ _ _ _ _ H) as [-> Hr].
  split; [reflexivity|]. split; [|exact H].
  rewrite Hr. cbv zeta.
  match goal with |- context [nz (zv s ?l)] => destruct (nz (zv s l)) end; auto.
Qed.

(** X4: after [update_mmu_state], a returning [isa_mmu_check] answers by the
    translation registers: for an instruction fetch outside guest mode, and
    for a data access that is no hypervisor load or store, "translate"
    exactly when the effective mode is below machine mode and [satp] selects
    a paged scheme; for a fetch in guest mode and for a hypervisor load or
    store, by [vsatp] and [hgatp] under the effective mode of a data
    access. *)
Theorem isa_mmu_check_after_update (cfg : config) (vaddr len : Z)
    (type : mem_type) (s s1 s2 : state) (b : bool) (r : Z) :
  atp_legal cfg s ->
  update_mmu_state cfg s = Ret b s1 ->
  isa_mmu_check cfg vaddr len type s1 = Ret r s2 ->
  r = if mem_type_eqb type MEM_TYPE_IFETCH
      then (if nz (zv s cpu_v) then h_mmu_state_of cfg false s
            else mmu_state_of cfg true s)
      else (if bv s hld_st then h_mmu_state_of cfg false s
            else mmu_state_of cfg false s).
Proof.
  intros Hatp Hu Hc. rewrite (update_mmu_state_value cfg s Hatp) in Hu.
  injection Hu as _ <-.
  destruct (isa_mmu_check_returns _ _ _ _ _ _ _ Hc) as [_ ->]. cbv zeta.
  change (zv (mmu_state_updated cfg s) cpu_v) with (zv s cpu_v).
  change (bv (mmu_state_updated cfg s) hld_st) with (bv s hld_st).
  unfold mmu_state_updated.
  destruct (mem_type_eqb type MEM_TYPE_IFETCH);
    [destruct (nz (zv s cpu_v)) | destruct (bv s hld_st)]; store;
    unfold h_mmu_state_of, mmu_state_of;
    match goal with |- _ = if ?c then _ else _ => destruct c end;
    reflexivity.
Qed.

Lemma update_mmu_state_then_value {A} (cfg : config) (k : bool -> M A)
    (s0 s : state) :
  atp_legal cfg s0 ->
  zv s satp_mode = zv s0 satp_mode ->
  zv s vsatp_mode = zv s0 vsatp_mode ->
  zv s hgatp_mode = zv s0 hgatp_mode ->
  bind (update_mmu_state cfg) k s
  = k (nz (Z.lxor (mmu_state_of cfg false s) (zv s data_mmu_state)))
      (mmu_state_updated cfg s).
Proof.
  intros H0 H1 H2 H3. apply bind_Ret. apply update_mmu_state_value.
  eapply atp_legal_frame; eauto.
Qed.

(** The last step of a trap: [update_mmu_state] in the state [st] reached
    from [s]. *)
Ltac finish_trap_value cfg s :=
  match goal with
  | |- context [bind (update_mmu_state cfg) ?k ?st] =>
      rewrite (update_mmu_state_then_value cfg k s st);
      [mrun | assumption | store | store | store]
  end.

Lemma trap_target_M (NO : Z) (s : state) :
  trap_target_of NO s = TargetM ->
  intr_deleg_VS NO s = false /\ intr_deleg_S NO s = false.
Proof.
  unfold trap_target_of.
  destruct (intr_deleg_VS NO s), (intr_deleg_S NO s); intros; try discriminate; auto.
Qed.

Lemma trap_target_S (NO : Z) (s : state) :
  trap_target_of NO s = TargetS ->
  intr_deleg_VS NO s = false /\ intr_deleg_S NO s = true.
Proof.
  unfold trap_target_of.
  destruct (intr_deleg_VS NO s), (intr_deleg_S NO s); intros; try discriminate; auto.
Qed.

Lemma mmu_state_of_machine (cfg : config) (ifetch : bool) (s : state) :
  effective_mode ifetch s = MODE_M -> mmu_state_of cfg ifetch s = MMU_DIRECT.
Proof. unfold mmu_state_of. now intros ->. Qed.

(** The state after a trap to machine mode. *)
Lemma raise_intr_to_machine (cfg : config) (NO epc : Z) (s : state) :
  intr_deleg_VS NO s = false -> intr_deleg_S NO s = false ->
  atp_legal cfg s ->
  exists s',
    raise_intr cfg NO epc s = Ret (get_trap_pc (zv s mtvec) NO) s'
    /\ (zv s' mcause = NO /\ zv s' mepc = epc
        /\ zv s' mstatus_mpp = zv s cpu_mode mod 4
        /\ bv s' mstatus_mpie = bv s mstatus_mie
        /\ bv s' mstatus_mie = false
        /\ bv s' mstatus_mpv = bit0 (zv s cpu_v)
        /\ zv s' cpu_v = 0 /\ zv s' cpu_mode = MODE_M
        /\ bv s' hld_st = false
        /\ bv s' sys_state_flush_tcache = true
        /\ zv s' ifetch_mmu_state = MMU_DIRECT)
    /\ zv s' scause = zv s scause /\ zv s' vscause = zv s vscause.
Proof.
  intros HVS HS Hatp.
  unfold raise_intr. mrun.
  change (intr_deleg_VS NO (set_b hld_st false s)) with (intr_deleg_VS NO s).
  rewrite HVS, HS.
  destruct (CONFIG_RV_SDTRIG cfg); mrun;
    (destruct (page_or_access_fault NO); [|destruct (guest_page_fault NO);
      [|destruct (among NO [EX_II; EX_VI]); [|destruct (NO =? EX_BP)]]]);
    mrun; finish_trap_value cfg s;
    eexists; (split; [unfold mmu_state_updated; store|]);
    unfold mmu_state_updated; store; repeat split; store;
    apply mmu_state_of_machine; unfold effective_mode; store;
    cbn [negb]; now rewrite andb_false_r.
Qed.

(** X5: a trap taken to machine mode records the cause and the PC in
    [mcause] and [mepc], saves the previous mode in [mstatus.MPP], the
    previous interrupt enable in [mstatus.MPIE] and the previous guest mode
    in [mstatus.MPV], clears [mstatus.MIE] (so machine interrupts are off in
    the handler), leaves guest mode, enters machine mode, ends a pending
    hypervisor load or store, asks for a flush of the translation cache, and
    leaves instruction fetch untranslated; the PC it returns derives from
    [mtvec]. *)
Theorem raise_intr_machine_entry (cfg : config) (NO epc : Z) (s : state) :
  trap_target_of NO s = TargetM ->
  atp_legal cfg s ->
  exists s',
    raise_intr cfg NO epc s = Ret (get_trap_pc (zv s mtvec) NO) s'
    /\ zv s' mcause = NO /\ zv s' mepc = epc
    /\ zv s' mstatus_mpp = zv s cpu_mode mod 4
    /\ bv s' mstatus_mpie = bv s mstatus_mie
    /\ bv s' mstatus_mie = false
    /\ bv s' mstatus_mpv = bit0 (zv s cpu_v)
    /\ zv s' cpu_v = 0 /\ zv s' cpu_mode = MODE_M
    /\ bv s' hld_st = false
    /\ bv s' sys_state_flush_tcache = true
    /\ zv s' ifetch_mmu_state = MMU_DIRECT.
Proof.
  intros Ht Hatp. destruct (trap_target_M _ _ Ht) as [HVS HS].
  destruct (raise_intr_to_machine cfg NO epc s HVS HS Hatp)
    as (s' & E & Hpost & _).
  exists s'. split; [exact E | exact Hpost].
Qed.

(** X6: a trap raised in machine mode is taken in machine mode whatever the
    delegation registers hold: [mcause] and [mepc] are written, the mode
    stays machine, [mstatus.MPP] records machine mode, the PC derives from
    [mtvec], and [scause] and [vscause] keep their values. *)
Theorem raise_intr_in_machine_mode (cfg : config) (NO epc : Z) (s : state) :
  zv s cpu_mode = MODE_M ->
  atp_legal cfg s ->
  exists s',
    raise_intr cfg NO epc s = Ret (get_trap_pc (zv s mtvec) NO) s'
    /\ zv s' mcause = NO /\ zv s' mepc = epc
    /\ zv s' cpu_mode = MODE_M /\ zv s' mstatus_mpp = MODE_M
    /\ zv s' scause = zv s scause /\ zv s' vscause = zv s vscause.
Proof.
  intros Hm Hatp.
  assert (intr_deleg_S NO s = false) as HS.
  { unfold intr_deleg_S. rewrite Hm. apply andb_false_r. }
  assert (intr_deleg_VS NO s = false) as HVS.
  { unfold intr_deleg_VS. now rewrite HS. }
  destruct (raise_intr_to_machine cfg NO epc s HVS HS Hatp)
    as (s' & E & (H1 & H2 & H3 & _ & _ & _ & _ & H4 & _) & H5 & H6).
  exists s'. rewrite Hm in H3. repeat split; assumption.
Qed.

(** The state after a trap to supervisor mode. *)
Lemma raise_intr_to_supervisor (cfg : config) (NO epc : Z) (s : state) :
  intr_deleg_VS NO s = false -> intr_deleg_S NO s = true ->
  atp_legal cfg s ->
  exists s',
    raise_intr cfg NO epc s = Ret (get_trap_pc (zv s stvec) NO) s'
    /\ zv s' scause = NO /\ zv s' sepc = epc
    /\ bv s' mstatus_spp = bit0 (zv s cpu_mode)
    /\ bv s' mstatus_spie = bv s mstatus_sie
    /\ bv s' mstatus_sie = false
    /\ bv s' hstatus_spv = bit0 (zv s cpu_v)
    /\ bv s' hstatus_spvp
       = (if nz (zv s cpu_v) then bit0 (zv s cpu_mode) else bv s hstatus_spvp)
    /\ zv s' cpu_v = 0 /\ zv s' cpu_mode = MODE_S
    /\ bv s' hld_st = false
    /\ bv s' sys_state_flush_tcache = true.
Proof.
  intros HVS HS Hatp.
  unfold raise_intr. mrun.
  change (intr_deleg_VS NO (set_b hld_st false s)) with (intr_deleg_VS NO s).
  rewrite HVS, HS. rewrite !zv_set_b.
  destruct (nz (zv s cpu_v)); mrun;
    (destruct (page_or_access_fault NO); [|destruct (guest_page_fault NO);
      [|destruct (among NO [EX_II; EX_VI]); [|destruct (NO =? EX_BP)]]]);
    mrun; finish_trap_value cfg s;
    eexists; (split; [unfold mmu_state_updated; store|]);
    unfold mmu_state_updated; store; repeat split; store.
Qed.

(** X7: a trap taken to supervisor mode records the cause and the PC in
    [scause] and [sepc], saves the low bit of the previous mode in
    [mstatus.SPP], the previous interrupt enable in [mstatus.SPIE] and the
    previous guest mode in [hstatus.SPV] (and, coming from guest mode, the
    guest's privilege in [hstatus.SPVP]), clears [mstatus.SIE], leaves guest
    mode, enters supervisor mode, ends a pending hypervisor load or store and
    asks for a flush of the translation cache; the PC it returns derives
    from [stvec]. *)
Theorem raise_intr_supervisor_entry (cfg : config) (NO epc : Z) (s : state) :
  trap_target_of NO s = TargetS ->
  atp_legal cfg s ->
  exists s',
    raise_intr cfg NO epc s = Ret (get_trap_pc (zv s stvec) NO) s'
    /\ zv s' scause = NO /\ zv s' sepc = epc
    /\ bv s' mstatus_spp = bit0 (zv s cpu_mode)
    /\ bv s' mstatus_spie = bv s mstatus_sie
    /\ bv s' mstatus_sie = false
    /\ bv s' hstatus_spv = bit0 (zv s cpu_v)
    /\ bv s' hstatus_spvp
       = (if nz (zv s cpu_v) then bit0 (zv s cpu_mode) else bv s hstatus_spvp)
    /\ zv s' cpu_v = 0 /\ zv s' cpu_mode = MODE_S
    /\ bv s' hld_st = false
    /\ bv s' sys_state_flush_tcache = true.
Proof.
  intros Ht Hatp. destruct (trap_target_S _ _ Ht) as [HVS HS].
  exact (raise_intr_to_supervisor cfg NO epc s HVS HS Hatp).
Qed.

(** [raise_intr] for a page fault, an access fault or a misaligned access:
    the three trap-value registers keep what the raising code recorded. *)
Lemma raise_intr_fault_tval (cfg : config) (NO epc : Z) (s : state) :
  page_or_access_fault NO = true ->
  atp_legal cfg s ->
  exists pc s',
    raise_intr cfg NO epc s = Ret pc s'
    /\ zv s' vstval = zv s vstval /\ zv s' stval = zv s stval
    /\ zv s' mtval = zv s mtval
    /\ (trap_target_of NO s = TargetS -> zv s' htval = 0)
    /\ (trap_target_of NO s = TargetM -> zv s' mtval2 = 0).
Proof.
  intros Hf Hatp. unfold raise_intr, trap_target_of. mrun.
  change (intr_deleg_VS NO (set_b hld_st false s)) with (intr_deleg_VS NO s).
  rewrite Hf.
  destruct (intr_deleg_VS NO s); [|destruct (intr_deleg_S NO s)].
  - mrun; finish_trap_value cfg s.
    do 2 eexists; (split; [reflexivity|]).
    unfold mmu_state_updated; store; repeat split; store; discriminate.
  - rewrite !zv_set_b. destruct (nz (zv s cpu_v)); mrun; finish_trap_value cfg s;
      do 2 eexists; (split; [reflexivity|]);
      unfold mmu_state_updated; store; repeat split; store; discriminate.
  - destruct (CONFIG_RV_SDTRIG cfg); mrun; finish_trap_value cfg s;
      do 2 eexists; (split; [reflexivity|]);
      unfold mmu_state_updated; store; repeat split; store; discriminate.
Qed.

Lemma guest_page_fault_cases (NO : Z) :
  guest_page_fault NO = true -> NO = EX_IGPF \/ NO = EX_LGPF \/ NO = EX_SGPF.
Proof.
  unfold guest_page_fault, among. cbn [existsb].
  destruct (Z.eqb_spec NO EX_IGPF); [auto|].
  destruct (Z.eqb_spec NO EX_LGPF); [auto|].
  destruct (Z.eqb_spec NO EX_SGPF); [auto|discriminate].
Qed.

(** [raise_intr] for a guest-page fault that is not taken in
    virtual-supervisor mode: both trap values of the supervisor and of the
    machine level keep what the raising code recorded. *)
Lemma raise_intr_guest_fault_tval (cfg : config) (NO epc : Z) (s : state) :
  guest_page_fault NO = true ->
  intr_deleg_VS NO s = false ->
  atp_legal cfg s ->
  exists pc s',
    raise_intr cfg NO epc s = Ret pc s'
    /\ zv s' stval = zv s stval /\ zv s' htval = zv s htval
    /\ zv s' mtval = zv s mtval /\ zv s' mtval2 = zv s mtval2
    /\ (if intr_deleg_S NO s then zv s' scause = NO else zv s' mcause = NO).
Proof.
  intros Hg HVS Hatp.
  assert (page_or_access_fault NO = false) as Hf
    by (destruct (guest_page_fault_cases NO Hg) as [-> | [-> | ->]]; reflexivity).
  unfold raise_intr. mrun.
  change (intr_deleg_VS NO (set_b hld_st false s)) with (intr_deleg_VS NO s).
  rewrite HVS, Hf, Hg.
  destruct (intr_deleg_S NO s).
  - rewrite !zv_set_b. destruct (nz (zv s cpu_v)); mrun; finish_trap_value cfg s;
      do 2 eexists; (split; [reflexivity|]);
      unfold mmu_state_updated; store; repeat split; store.
  - destruct (CONFIG_RV_SDTRIG cfg); mrun; finish_trap_value cfg s;
      do 2 eexists; (split; [reflexivity|]);
      unfold mmu_state_updated; store; repeat split; store.
Qed.

(** X8: [raise_intr] never overwrites the trap value of a memory fault.  For
    a page fault, an access fault or a misaligned access, [vstval], [stval]
    and [mtval] keep their values, and the second trap value of the level
    the trap is taken to ([htval] or [mtval2]) is cleared; for a guest-page
    fault that is not delegated to virtual-supervisor mode, [stval], [htval],
    [mtval] and [mtval2] all keep their values. *)
Theorem raise_intr_keeps_fault_tval (cfg : config) (NO epc : Z) (s : state) :
  atp_legal cfg s ->
  (page_or_access_fault NO = true ->
   exists pc s',
     raise_intr cfg NO epc s = Ret pc s'
     /\ zv s' vstval = zv s vstval /\ zv s' stval = zv s stval
     /\ zv s' mtval = zv s mtval
     /\ (trap_target_of NO s = TargetS -> zv s' htval = 0)
     /\ (trap_target_of NO s = TargetM -> zv s' mtval2 = 0))
  /\ (guest_page_fault NO = true -> intr_deleg_VS NO s = false ->
      exists pc s',
        raise_intr cfg NO epc s = Ret pc s'
        /\ zv s' stval = zv s stval /\ zv s' htval = zv s htval
        /\ zv s' mtval = zv s mtval /\ zv s' mtval2 = zv s mtval2).
Proof.
  intros Hatp. split.
  - intros Hf. now apply raise_intr_fault_tval.
  - intros Hg HVS.
    destruct (raise_intr_guest_fault_tval cfg NO epc s Hg HVS Hatp)
      as (pc & s' & E & H1 & H2 & H3 & H4 & _).
    exists pc, s'. auto.
Qed.

(** An exception that leaves [check_permission] is the page fault of the
    access, with the state that [check_permission_fault_state] describes. *)
Lemma check_permission_raises (cfg : config) (pte : Z) (ok : bool)
    (vaddr : Z) (type : mem_type) (virt mode : Z) (s s1 : state) (ex : Z) :
  check_permission cfg pte ok vaddr type virt mode s = Exc ex s1 ->
  ex = page_fault_of type (bv s cpu_amo)
  /\ s1 = check_permission_fault_state cfg vaddr type s.
Proof.
  intros H.
  assert (mode = MODE_U \/ mode = MODE_S) as Hm.
  { unfold check_permission in H. unfold bind at 1 in H. unfold assert in H.
    destruct (Z.eqb_spec mode MODE_U); [auto|].
    destruct (Z.eqb_spec mode MODE_S); [auto|]. discriminate. }
  assert (type = MEM_TYPE_IFETCH -> bv s cpu_amo = false) as Ha.
  { intros ->. destruct (bv s cpu_amo) eqn:Ea; [exfalso|reflexivity].
    unfold check_permission in H. unfold bind at 1 in H. unfold assert at 1 in H.
    destruct ((mode =? MODE_U) || (mode =? MODE_S)); [|discriminate].
    unfold get at 1 in H. unfold bind at 1 in H.
    change (mem_type_eqb MEM_TYPE_IFETCH MEM_TYPE_IFETCH) with true in H.
    cbv iota in H.
    match type of H with
    | (if ?c then _ else _) _ = _ => destruct c
    end; [|discriminate].
    unfold bind at 1 in H. unfold assert in H. rewrite Ea in H. discriminate. }
  destruct (check_permission_cases cfg pte ok vaddr type virt mode s Hm Ha)
    as [(E & _) | E]; rewrite E in H; [discriminate|].
  injection H as <- <-. auto.
Qed.

Lemma intr_tval_reg_target (ex : Z) (s : state) :
  INTR_TVAL_REG ex s = tval_of_target (trap_target_of ex s).
Proof.
  unfold INTR_TVAL_REG, trap_target_of.
  destruct (intr_deleg_VS ex s); [reflexivity|].
  now destruct (intr_deleg_S ex s).
Qed.

(** The delegation tests read the delegation registers, the mode and the
    guest flag only. *)
Lemma intr_deleg_frame (NO : Z) (s s' : state) :
  zv s' mideleg = zv s mideleg -> zv s' medeleg = zv s medeleg ->
  zv s' hideleg = zv s hideleg -> zv s' hedeleg = zv s hedeleg ->
  zv s' cpu_mode = zv s cpu_mode -> zv s' cpu_v = zv s cpu_v ->
  intr_deleg_S NO s' = intr_deleg_S NO s
  /\ intr_deleg_VS NO s' = intr_deleg_VS NO s.
Proof.
  intros H1 H2 H3 H4 H5 H6. unfold intr_deleg_VS, intr_deleg_S.
  now rewrite H1, H2, H3, H4, H5, H6.
Qed.

Lemma tval_of_target_cases (t : trap_target) :
  tval_of_target t = vstval \/ tval_of_target t = stval
  \/ tval_of_target t = mtval.
Proof. destruct t; cbn; auto. Qed.

(** X9: the address that [check_permission] records when it raises a page
    fault is the one the handler finds: [raise_intr] for that fault takes
    the trap to the level whose trap-value register [check_permission]
    wrote, and leaves the register as written. *)
Theorem page_fault_tval_reaches_handler (cfg : config) (pte : Z) (ok : bool)
    (vaddr : Z) (type : mem_type) (virt mode : Z) (s s1 : state)
    (ex epc : Z) :
  atp_legal cfg s ->
  check_permission cfg pte ok vaddr type virt mode s = Exc ex s1 ->
  ex = page_fault_of type (bv s cpu_amo)
  /\ exists pc s2,
       raise_intr cfg ex epc s1 = Ret pc s2
       /\ zv s2 (tval_of_target (trap_target_of ex s1)) = xs_tval cfg vaddr.
Proof.
  intros Hatp H.
  destruct (check_permission_raises _ _ _ _ _ _ _ _ _ _ H) as [Hex Hs1].
  split; [exact Hex|].
  assert (page_or_access_fault ex = true) as Hf.
  { rewrite Hex. destruct type, (bv s cpu_amo); reflexivity. }
  set (reg := INTR_TVAL_REG ex s).
  assert (Hreg : reg = vstval \/ reg = stval \/ reg = mtval).
  { unfold reg. rewrite intr_tval_reg_target. apply tval_of_target_cases. }
  assert (Hz : forall l, l <> reg -> zv s1 l = zv s l).
  { intros l Hl. rewrite Hs1. unfold check_permission_fault_state.
    rewrite <- Hex. fold reg. destruct type; store. }
  assert (Hv : zv s1 reg = xs_tval cfg vaddr).
  { rewrite Hs1. unfold check_permission_fault_state.
    rewrite <- Hex. fold reg. destruct type; store. }
  assert (Hne : forall l, l <> vstval -> l <> stval -> l <> mtval -> l <> reg)
    by (intros l ? ? ?; destruct Hreg as [-> | [-> | ->]]; assumption).
  destruct (intr_deleg_frame ex s s1) as [ES EVS];
    try (apply Hz, Hne; discriminate).
  assert (trap_target_of ex s1 = trap_target_of ex s) as Et
    by (unfold trap_target_of; now rewrite ES, EVS).
  assert (atp_legal cfg s1) as Hatp1.
  { eapply atp_legal_frame; [| | |exact Hatp]; apply Hz, Hne; discriminate. }
  destruct (raise_intr_fault_tval cfg ex epc s1 Hf Hatp1)
    as (pc & s2 & E & K1 & K2 & K3 & _).
  exists pc, s2. split; [exact E|].
  rewrite Et, <- intr_tval_reg_target. fold reg.
  destruct Hreg as [R | [R | R]]; rewrite R in *; congruence.
Qed.

(** X10: outside guided execution, the addresses that [gpa_stage] records
    when it raises a guest-page fault are the ones the handler finds: unless
    [hedeleg] delegates the fault to virtual-supervisor mode, [raise_intr]
    takes it to supervisor mode with the virtual address in [stval] and the
    guest-physical address shifted right by two in [htval], or to machine
    mode with the two in [mtval] and [mtval2]. *)
Theorem guest_fault_tval_reaches_handler (cfg : config) (pmem : Z -> Z)
    (gpaddr vaddr : Z) (type : mem_type) (s s1 : state) (ex epc : Z) :
  atp_legal cfg s ->
  bv s cpu_guided_exec = false ->
  gpa_stage cfg pmem gpaddr vaddr type s = Exc ex s1 ->
  intr_deleg_VS ex s1 = false ->
  ex = guest_fault_of type (bv s cpu_amo)
  /\ exists pc s2,
       raise_intr cfg ex epc s1 = Ret pc s2
       /\ if intr_deleg_S ex s1
          then zv s2 scause = ex /\ zv s2 stval = vaddr
               /\ zv s2 htval = Z.shiftr gpaddr 2
          else zv s2 mcause = ex /\ zv s2 mtval = vaddr
               /\ zv s2 mtval2 = Z.shiftr gpaddr 2.
Proof.
  intros Hatp Hg H HVS.
  destruct (gpa_stage_raises_guest_fault cfg pmem _ _ _ _ _ _ Hg H)
    as (Hex & s0 & Hs1 & Hb & Hz).
  split; [exact Hex|].
  assert (guest_page_fault ex = true) as Hgf
    by (rewrite Hex; destruct type, (bv s cpu_amo); reflexivity).
  assert (Hamo : bv s0 cpu_amo = bv s cpu_amo) by now rewrite Hb.
  assert (Hs1' : s1 = if intr_deleg_S ex s0
                      then set_z htval (Z.shiftr gpaddr 2) (set_z stval vaddr s0)
                      else set_z mtval2 (Z.shiftr gpaddr 2) (set_z mtval vaddr s0)).
  { rewrite Hs1. unfold guest_fault_state. now rewrite Hamo, <- Hex. }
  clear Hs1.
  assert (ES : intr_deleg_S ex s1 = intr_deleg_S ex s0).
  { rewrite Hs1'. destruct (intr_deleg_S ex s0) at 1;
      apply intr_deleg_frame; reflexivity. }
  assert (atp_legal cfg s1) as Hatp1.
  { assert (atp_legal cfg s0) as Hatp0
      by (eapply atp_legal_frame; [| | |exact Hatp]; apply Hz; discriminate).
    rewrite Hs1'.
    destruct (intr_deleg_S ex s0);
      (eapply atp_legal_frame; [| | |exact Hatp0]; reflexivity). }
  destruct (raise_intr_guest_fault_tval cfg ex epc s1 Hgf HVS Hatp1)
    as (pc & s2 & E & K1 & K2 & K3 & K4 & K5).
  exists pc, s2. split; [exact E|].
  rewrite ES in *. rewrite K1, K2, K3, K4, Hs1'.
  destruct (intr_deleg_S ex s0); store; repeat split; store; assumption.
Qed.

(** ** Pending interrupts *)

Lemma find_all_false {A} (f : A -> bool) (l : list A) :
  (forall x, In x l -> f x = false) -> find f l = None.
Proof.
  induction l as [|a l IH]; intros H; [reflexivity|].
  cbn. rewrite (H a (or_introl eq_refl)). apply IH.
  intros x Hx. apply H. now right.
Qed.

Lemma isa_query_intr_find (cfg : config) (s : state) :
  isa_query_intr cfg s
  = match find (fun irq => irq_pending_enabled s irq
                           && irq_globally_enabled s irq)
               (priority cfg) with
    | Some irq => Z.lor irq INTR_BIT
    | None => INTR_EMPTY
    end.
Proof.
  unfold isa_query_intr.
  rewrite (isa_query_intr_loop_find s _ (priority_small cfg)).
  destruct (nz (Z.land (zv s mie) (zv s mip))) eqn:E; [reflexivity|].
  apply nz_false_iff in E. cbn [negb].
  rewrite find_all_false; [reflexivity|].
  intros irq _. unfold irq_pending_enabled.
  rewrite <- Z.land_spec, E, Z.bits_0. reflexivity.
Qed.

(** X11: in machine mode (outside guest mode) with [mstatus.MIE] clear no
    interrupt is taken, whatever is pending, enabled in [mie] or
    delegated. *)
Theorem isa_query_intr_masked_in_machine_mode (cfg : config) (s : state) :
  zv s cpu_mode = MODE_M -> zv s cpu_v = 0 -> bv s mstatus_mie = false ->
  isa_query_intr cfg s = INTR_EMPTY.
Proof.
  intros Hm Hv Hie. rewrite isa_query_intr_find.
  rewrite find_all_false; [reflexivity|].
  intros irq _. unfold irq_globally_enabled. rewrite Hm, Hv, Hie.
  destruct (Z.testbit (zv s mideleg) irq), (Z.testbit (zv s hideleg) irq);
    cbn; apply andb_false_r.
Qed.

Lemma priority_interrupt_cause (cfg : config) (irq : Z) :
  In irq (priority cfg) ->
  0 <= irq < 14
  /\ cause_no (Z.lor irq INTR_BIT) = irq
  /\ Z.testbit (Z.lor irq INTR_BIT) 63 = true
  /\ Z.lor irq INTR_BIT <> INTR_EMPTY.
Proof.
  unfold priority. intros H.
  assert (In irq [IRQ_MEIP; IRQ_MSIP; IRQ_MTIP; IRQ_SEIP; IRQ_SSIP; IRQ_STIP;
                  IRQ_UEIP; IRQ_USIP; IRQ_UTIP; IRQ_VSEIP; IRQ_VSSIP;
                  IRQ_VSTIP; IRQ_SGEI; IRQ_LCOFI]) as H'.
  { destruct (CONFIG_RV_SSCOFPMF cfg); cbn [app In] in *; intuition. }
  clear H. cbn [In] in H'.
  repeat (destruct H' as [<- | H']; [vm_compute; intuition discriminate|]).
  contradiction.
Qed.

(** X12: what [isa_query_intr] returns other than "none" is an interrupt of
    the priority list with the interrupt bit set, pending in [mip] and
    enabled in [mie]; and [raise_intr] takes it where its delegation says:
    to virtual-supervisor mode when [mideleg] and [hideleg] both delegate
    it, to supervisor mode when only [mideleg] does and the mode is below
    machine mode, to machine mode otherwise. *)
Theorem isa_query_intr_selects_deliverable (cfg : config) (s : state) :
  isa_query_intr cfg s <> INTR_EMPTY ->
  exists irq,
    In irq (priority cfg)
    /\ isa_query_intr cfg s = Z.lor irq INTR_BIT
    /\ Z.testbit (zv s mip) irq = true /\ Z.testbit (zv s mie) irq = true
    /\ trap_target_of (isa_query_intr cfg s) s
       = if Z.testbit (zv s mideleg) irq && Z.testbit (zv s hideleg) irq
         then TargetVS
         else if Z.testbit (zv s mideleg) irq && (zv s cpu_mode <? MODE_M)
         then TargetS else TargetM.
Proof.
  rewrite isa_query_intr_find.
  destruct (find _ (priority cfg)) as [irq|] eqn:E; [|congruence].
  intros _. apply find_some in E as [Hin Hen].
  apply andb_true_iff in Hen as [Hp Hg].
  apply andb_true_iff in Hp as [Hie Hip].
  destruct (priority_interrupt_cause cfg irq Hin) as (Hr & Hc & Hb & _).
  exists irq. repeat split; try assumption.
  unfold trap_target_of.
  rewrite intr_deleg_VS_bits, intr_deleg_S_bits by (rewrite Hc; lia).
  unfold machine_deleg, hypervisor_deleg. rewrite Hb, Hc.
  unfold irq_globally_enabled in Hg.
  destruct (Z.testbit (zv s mideleg) irq), (Z.testbit (zv s hideleg) irq);
    cbn [andb] in *; try reflexivity.
  apply andb_true_iff in Hg as [Hv Hm]. rewrite Hv.
  assert ((zv s cpu_mode <? MODE_M) = true) as ->; [|reflexivity].
  apply Z.ltb_lt. unfold MODE_M, MODE_S in *.
  apply orb_true_iff in Hm as [Hm | Hm].
  - apply andb_true_iff in Hm as [Hm _]. apply Z.eqb_eq in Hm. lia.
  - apply Z.ltb_lt in Hm. lia.
Qed.

(** ** The MMU check and the permission checker *)

(** X13: with alignment checks in software ([CONFIG_AC_SOFT]), a misaligned
    data access leaves [isa_mmu_check] with the misaligned-access exception
    (store/AMO for a write or an atomic operation, load otherwise) and the
    address in the trap-value register of the delegation target; this comes
    before every test of the address against the translation scheme. *)
Theorem isa_mmu_check_misaligned_first (cfg : config) (vaddr len : Z)
    (type : mem_type) (s : state) :
  CONFIG_AC_SOFT cfg = true ->
  type <> MEM_TYPE_IFETCH ->
  Z.land vaddr (wrap64 (len - 1)) <> 0 ->
  let ex := if bv s cpu_amo || mem_type_eqb type MEM_TYPE_WRITE
            then EX_SAM else EX_LAM in
  isa_mmu_check cfg vaddr len type s
  = Exc ex (set_z (INTR_TVAL_REG ex s) (xs_tval cfg vaddr) s).
Proof.
  intros Hc Ht Hm ex. unfold isa_mmu_check.
  assert (mem_type_eqb type MEM_TYPE_IFETCH = false) as ->.
  { destruct (mem_type_eqb type MEM_TYPE_IFETCH) eqn:E; [|reflexivity].
    apply mem_type_eqb_true in E. contradiction. }
  cbn [negb when]. apply bind_Ret_Exc.
  unfold isa_misalign_data_addr_check. rewrite (nz_true _ Hm), Hc.
  reflexivity.
Qed.

(** What a returning [check_permission] has found in the entry. *)
Lemma check_permission_granted (cfg : config) (pte : Z) (ok : bool)
    (vaddr : Z) (type : mem_type) (virt mode : Z) (s s' : state) (b : bool) :
  check_permission cfg pte ok vaddr type virt mode s = Ret b s' ->
  pte_v pte = true /\ pte_pad pte = 0
  /\ (mode = MODE_U -> pte_u pte = true)
  /\ (CONFIG_SHARE cfg = true ->
      pte_a pte = true
      /\ (type <> MEM_TYPE_IFETCH -> type <> MEM_TYPE_READ ->
          pte_d pte = true)).
Proof.
  unfold check_permission. unfold bind at 1, assert at 1.
  destruct ((mode =? MODE_U) || (mode =? MODE_S)); [|discriminate].
  cbn [bind get].
  destruct type;
    cbn [mem_type_eqb mem_type_beq];
    match goal with
    | |- context [if ?c then _ else ret true] => destruct c eqn:E
    end;
    try (unfold bind, assert, wr_z, wr_b, longjmp_exception;
         destruct (negb (bv s cpu_amo)); discriminate);
    try (cbn [bind wr_z wr_b longjmp_exception]; discriminate);
    intros _;
    apply orb_false_iff in E as [E Had]; apply negb_false_iff in E;
    apply andb_true_iff in E as [E Hpad]; apply andb_true_iff in E as [E _];
    apply andb_true_iff in E as [E _]; apply andb_true_iff in E as [E Hu];
    apply andb_true_iff in E as [_ Hv]; apply Z.eqb_eq in Hpad;
    apply negb_true_iff in Hu;
    (split; [exact Hv|]); (split; [exact Hpad|]);
    (split; [intros ->; rewrite Z.eqb_refl in Hu; now destruct (pte_u pte)|]);
    intros Hs; rewrite Hs in Had;
    try (apply orb_false_iff in Had as [Ha Hd]; apply negb_false_iff in Hd);
    try (apply negb_false_iff in Had);
    (split; [try assumption; now apply negb_false_iff|]);
    intros; try congruence; assumption.
Qed.

(** X14: what a returning [check_permission] guarantees besides the
    access-type rule: the entry is valid, its reserved bits are zero, in user
    mode it is a user page, and, where accessed and dirty bits are managed
    by software ([CONFIG_SHARE]), the accessed bit is set, and for a write
    the dirty bit as well. *)
Theorem check_permission_success (cfg : config) (pte : Z) (ok : bool)
    (vaddr : Z) (type : mem_type) (virt mode : Z) (s s' : state) (b : bool) :
  check_permission cfg pte ok vaddr type virt mode s = Ret b s' ->
  pte_v pte = true /\ pte_pad pte = 0
  /\ (mode = MODE_U -> pte_u pte = true)
  /\ (CONFIG_SHARE cfg = true ->
      pte_a pte = true
      /\ (type <> MEM_TYPE_IFETCH -> type <> MEM_TYPE_READ ->
          pte_d pte = true)).
Proof. apply check_permission_granted. Qed.

(** ** The walkers *)

Lemma walked_refl (s : state) : walked 0 s s.
Proof. repeat split. exists []. split; [reflexivity|cbn; lia]. Qed.

Lemma walked_trans (n m : nat) (s s1 s2 : state) :
  walked n s s1 -> walked m s1 s2 -> walked (n + m) s s2.
Proof.
  intros (Hb1 & Hz1 & l1 & Hr1 & Hl1) (Hb2 & Hz2 & l2 & Hr2 & Hl2).
  split; [congruence|]. split.
  - intros l Hl. rewrite Hz2, Hz1 by assumption. reflexivity.
  - exists (l2 ++ l1). rewrite Hr2, Hr1, app_assoc, length_app.
    split; [reflexivity|lia].
Qed.

Lemma walked_le (n m : nat) (s s' : state) :
  (n <= m)%nat -> walked n s s' -> walked m s s'.
Proof.
  intros H (Hb & Hz & l & Hr & Hl). repeat split; try assumption.
  exists l. split; [assumption|lia].
Qed.

Lemma walked_log_read (a : Z) (s : state) : walked 1 s (log_read a s).
Proof. repeat split. exists [a]. split; [reflexivity|cbn; lia]. Qed.

Lemma walked_pt_level (v : Z) (s : state) : walked 0 s (set_z pt_level v s).
Proof.
  repeat split.
  - intros l Hl. now rewrite zv_set_z_other.
  - exists []. split; [reflexivity|cbn; lia].
Qed.

(** A computation whose continuation never returns does not return. *)
Lemma bind_never_returns {A B} (m : M A) (k : A -> M B) (s : state) :
  (forall a s1 b s', k a s1 <> Ret b s') ->
  forall b s', bind m k s <> Ret b s'.
Proof.
  intros Hk b s'. unfold bind. destruct (m s); [apply Hk|discriminate..].
Qed.

Lemma raise_guest_excep_never_returns {A} (cfg : config)
    (gpaddr vaddr : Z) (type : mem_type) (s s' : state) (a : A) :
  @raise_guest_excep cfg A gpaddr vaddr type s <> Ret a s'.
Proof.
  unfold raise_guest_excep. apply bind_never_returns. intros s0 s1.
  apply bind_never_returns. intros _ s2.
  apply bind_never_returns. intros s3 s4.
  apply bind_never_returns. intros _ s5 b s6.
  discriminate.
Qed.

Lemma PGBASE_aligned (pn : Z) : Z.land (PGBASE pn) PAGE_MASK = 0.
Proof.
  unfold PGBASE, shl64, wrap64, PGSHFT.
  change PAGE_MASK with (Z.ones 12). rewrite Z.land_ones by lia.
  rewrite Z.mod_mod_divide by (exists (2 ^ 52); reflexivity).
  rewrite Z.shiftl_mul_pow2 by lia. apply Z.mod_mul. lia.
Qed.

Lemma lor_offset (base a : Z) :
  Z.land base PAGE_MASK = 0 ->
  Z.land (Z.lor base (Z.land a PAGE_MASK)) PAGE_MASK = Z.land a PAGE_MASK.
Proof.
  intros H. rewrite Z.land_lor_distr_l, H, Z.lor_0_l.
  now rewrite <- Z.land_assoc, Z.land_diag.
Qed.

Lemma splice_aligned (base a mask : Z) :
  Z.land base PAGE_MASK = 0 ->
  Z.land (Z.lor (Z.land base (not64 mask))
                (Z.land (Z.land a mask) (not64 PGMASK))) PAGE_MASK = 0.
Proof.
  intros H. rewrite Z.land_lor_distr_l.
  rewrite <- (Z.land_assoc base), (Z.land_comm (not64 mask)), Z.land_assoc, H.
  rewrite Z.land_0_l, Z.lor_0_l.
  rewrite <- (Z.land_assoc (Z.land a mask)).
  change (Z.land (not64 PGMASK) PAGE_MASK) with 0. apply Z.land_0_r.
Qed.

Lemma masked_aligned (r : Z) : Z.land (Z.land r (not64 PAGE_MASK)) PAGE_MASK = 0.
Proof.
  rewrite <- Z.land_assoc.
  change (Z.land (not64 PAGE_MASK) PAGE_MASK) with 0. apply Z.land_0_r.
Qed.

(** What the loop of [gpa_stage] returns, and what it changes. *)
Lemma gpa_stage_loop_returns (cfg : config) (pmem : Z -> Z)
    (gpaddr vaddr : Z) (type : mem_type) (n : nat) :
  forall (pg_base : Z) (s s' : state) (pa : Z),
    gpa_stage_loop cfg pmem n pg_base gpaddr vaddr type s = Ret pa s' ->
    (pa = MEM_RET_FAIL \/ Z.land pa PAGE_MASK = Z.land gpaddr PAGE_MASK)
    /\ zv s' = zv s /\ walked n s s'.
Proof.
  induction n as [|n IH]; intros pg_base s s' pa.
  - cbn [gpa_stage_loop]. intros H.
    now apply raise_guest_excep_never_returns in H.
  - cbn [gpa_stage_loop bind paddr_read get].
    set (p_pte := wrap64 _). set (pte := pmem p_pte).
    set (s1 := log_read p_pte s).
    assert (Hw : forall m s2, walked m s1 s2 -> walked (S m) s s2).
    { intros m s2 H. apply (walked_trans 1 m s s1 s2); [|exact H].
      apply walked_log_read. }
    destruct (pte_v pte && negb (pte_r pte) && negb (pte_w pte)
              && negb (pte_x pte)).
    { intros H. apply IH in H. destruct H as (H1 & H2 & H3).
      split; [exact H1|]. split; [exact H2|]. now apply Hw. }
    destruct (negb (pte_v pte) || negb (pte_r pte) && pte_w pte).
    { intros H. now apply raise_guest_excep_never_returns in H. }
    destruct (negb (pte_u pte)).
    { intros H. now apply raise_guest_excep_never_returns in H. }
    destruct (gpa_refused pte type s1).
    { intros H. now apply raise_guest_excep_never_returns in H. }
    assert (Hdone : walked (S n) s s1).
    { apply (walked_le 1); [lia|]. apply walked_log_read. }
    destruct (0 <? Z.of_nat n).
    + destruct (nz _); intros [= <- <-].
      * split; [now left|]. split; [reflexivity|exact Hdone].
      * split; [right|split; [reflexivity|exact Hdone]].
        apply lor_offset. apply splice_aligned. apply PGBASE_aligned.
    + intros [= <- <-].
      split; [right|split; [reflexivity|exact Hdone]].
      apply lor_offset. apply PGBASE_aligned.
Qed.

Lemma when_raise_guest_excep_returns (cfg : config) (c : bool)
    (gpaddr vaddr : Z) (type : mem_type) (s s' : state) (u : unit) :
  when c (raise_guest_excep cfg gpaddr vaddr type) s = Ret u s' ->
  c = false /\ s' = s.
Proof.
  destruct c; cbn [when].
  - intros H. now apply raise_guest_excep_never_returns in H.
  - intros [= <-]. auto.
Qed.

(** What [gpa_stage] returns, and what it changes. *)
Lemma gpa_stage_returns (cfg : config) (pmem : Z -> Z)
    (gpaddr vaddr : Z) (type : mem_type) (s s' : state) (pa : Z) :
  gpa_stage cfg pmem gpaddr vaddr type s = Ret pa s' ->
  (pa = MEM_RET_FAIL \/ Z.land pa PAGE_MASK = Z.land gpaddr PAGE_MASK)
  /\ zv s' pt_level = 0 /\ walked 4 s s'.
Proof.
  unfold gpa_stage. cbn [bind wr_z get].
  set (s0 := set_z pt_level 0 s).
  assert (H0 : forall m s2, walked m s0 s2 -> (m <= 4)%nat -> walked 4 s s2).
  { intros m s2 H Hm. apply (walked_le m); [exact Hm|].
    apply (walked_trans 0 m s s0 s2); [apply walked_pt_level|exact H]. }
  assert (Hloop : forall n pg_base,
            (n <= 4)%nat ->
            gpa_stage_loop cfg pmem n pg_base gpaddr vaddr type s0 = Ret pa s' ->
            (pa = MEM_RET_FAIL
             \/ Z.land pa PAGE_MASK = Z.land gpaddr PAGE_MASK)
            /\ zv s' pt_level = 0 /\ walked 4 s s').
  { intros n pg_base Hn H. apply gpa_stage_loop_returns in H.
    destruct H as (H1 & H2 & H3). split; [exact H1|]. split.
    - rewrite H2. apply zv_set_z_same.
    - now apply (H0 n). }
  destruct (zv s0 hgatp_mode =? 0).
  { intros [= <- <-]. split; [now right|]. split; [apply zv_set_z_same|].
    apply (H0 0%nat); [apply walked_refl|lia]. }
  destruct (zv s0 hgatp_mode =? 9); [|destruct (zv s0 hgatp_mode =? 8)].
  - unfold bind at 1 2.
    destruct (when _ _ s0) as [u s1| |] eqn:E; try discriminate.
    apply when_raise_guest_excep_returns in E as [_ ->].
    cbn [ret]. apply Hloop. lia.
  - unfold bind at 1 2.
    destruct (when _ _ s0) as [u s1| |] eqn:E; try discriminate.
    apply when_raise_guest_excep_returns in E as [_ ->].
    cbn [ret]. apply Hloop. lia.
  - cbn [bind ret]. apply Hloop. lia.
Qed.

(** X15: an address that [gpa_stage] returns keeps the page offset of the
    guest-physical address it was given, unless it is the result code
    [MEM_RET_FAIL]. *)
Theorem gpa_stage_keeps_page_offset (cfg : config) (pmem : Z -> Z)
    (gpaddr vaddr : Z) (type : mem_type) (s s' : state) (pa : Z) :
  gpa_stage cfg pmem gpaddr vaddr type s = Ret pa s' ->
  pa = MEM_RET_FAIL \/ Z.land pa PAGE_MASK = Z.land gpaddr PAGE_MASK.
Proof. intros H. now apply gpa_stage_returns in H. Qed.

(** X16: a returning [gpa_stage] has read four second-stage entries at most,
    has reset [pt_level] to zero, and has changed no other location. *)
Theorem gpa_stage_frame (cfg : config) (pmem : Z -> Z)
    (gpaddr vaddr : Z) (type : mem_type) (s s' : state) (pa : Z) :
  gpa_stage cfg pmem gpaddr vaddr type s = Ret pa s' ->
  zv s' pt_level = 0
  /\ (forall l, l <> pt_level -> zv s' l = zv s l)
  /\ bv s' = bv s
  /\ exists new, reads s' = new ++ reads s /\ (length new <= 4)%nat.
Proof.
  intros H. apply gpa_stage_returns in H.
  destruct H as (_ & H1 & H2 & H3 & H4). auto.
Qed.

Lemma pte_read_returns (cfg : config) (pmem : Z -> Z) (is_in_mmio : Z -> bool)
    (addr : Z) (type : mem_type) (vaddr : Z) (s s' : state) (v : Z) :
  pte_read cfg pmem is_in_mmio addr type vaddr s = Ret v s' ->
  v = pmem addr /\ s' = log_read addr s.
Proof.
  unfold pte_read. destruct (CONFIG_SHARE cfg && is_in_mmio addr).
  - cbn [bind get wr_z longjmp_exception]. discriminate.
  - cbn [bind ret paddr_read]. intros [= <- <-]. auto.
Qed.

Lemma ptw_bad_never_returns (cfg : config) (pte vaddr : Z) (type : mem_type)
    (virt mode : Z) (s s' : state) (pa : Z) :
  ptw_bad cfg pte vaddr type virt mode s <> Ret pa s'.
Proof.
  unfold ptw_bad, bind.
  destruct (check_permission cfg pte false vaddr type virt mode s)
    as [b s1| |] eqn:E; try discriminate.
  apply check_permission_returns in E as (_ & _ & E). discriminate.
Qed.

Lemma when_ptw_ad_fault_returns (c : bool) (vaddr : Z) (type : mem_type)
    (s s' : state) (u : unit) :
  when c (ptw_ad_fault vaddr type) s = Ret u s' -> s' = s.
Proof.
  destruct c; cbn [when]; [|now intros [= <-]].
  unfold ptw_ad_fault. cbn [bind get].
  destruct type; try (now intros [= <-]);
    destruct (nz (zv s cpu_v)); try destruct (intr_deleg_S _ s);
    cbn [bind wr_z longjmp_exception]; discriminate.
Qed.

Lemma aligned_not_fail (x : Z) :
  Z.land x PAGE_MASK = 0 -> (x =? MEM_RET_FAIL) = false.
Proof.
  intros H. apply Z.eqb_neq. intros ->. discriminate.
Qed.

Lemma ptw_after_loop_returns (cfg : config) (pmem : Z -> Z)
    (level pte pg_base vaddr : Z) (type : mem_type) (virt mode : Z)
    (s s' : state) (pa : Z) :
  Z.land pg_base PAGE_MASK = 0 ->
  ptw_after_loop cfg pmem level pte pg_base vaddr type virt mode s = Ret pa s' ->
  Z.land pa PAGE_MASK = 0 /\ walked (walk_reads virt 0) s s'.
Proof.
  intros Hal. unfold ptw_after_loop. unfold bind at 1.
  destruct (check_permission cfg pte true vaddr type virt mode s)
    as [ok s1| |] eqn:E; try discriminate.
  apply check_permission_returns in E as (-> & -> & _). cbn [negb].
  cbn [bind wr_z]. set (s1 := set_z pt_level level s).
  assert (H1 : walked 0 s s1) by apply walked_pt_level.
  destruct ((0 <? level) && nz (Z.land pg_base (2 ^ VPNiSHFT level - 1))).
  { intros H. now apply ptw_bad_never_returns in H. }
  set (pgb := if 0 <? level then _ else pg_base).
  assert (Hpgb : Z.land pgb PAGE_MASK = 0).
  { subst pgb. destruct (0 <? level); [now apply splice_aligned|exact Hal]. }
  unfold walk_reads. destruct (nz virt); cbn [andb].
  - unfold bind at 1 2.
    destruct (gpa_stage cfg pmem _ vaddr type s1) as [r s2| |] eqn:E;
      try discriminate.
    apply gpa_stage_returns in E as (_ & _ & Hw). cbn [ret].
    rewrite (aligned_not_fail _ (masked_aligned r)).
    unfold bind at 1.
    destruct ((if CONFIG_SHARE cfg then ret tt else when _ _) s2)
      as [u s3| |] eqn:E2; try discriminate.
    assert (s3 = s2) as ->.
    { destruct (CONFIG_SHARE cfg); [now injection E2 as <-|].
      now apply when_ptw_ad_fault_returns in E2. }
    cbn [ret]. intros [= <- <-]. rewrite lor_ret_ok.
    split; [apply masked_aligned|].
    apply (walked_trans 0 4 s s1 s2); assumption.
  - cbn [bind ret]. unfold bind at 1.
    destruct ((if CONFIG_SHARE cfg then ret tt else when _ _) s1)
      as [u s3| |] eqn:E2; try discriminate.
    assert (s3 = s1) as ->.
    { destruct (CONFIG_SHARE cfg); [now injection E2 as <-|].
      now apply when_ptw_ad_fault_returns in E2. }
    intros [= <- <-]. rewrite lor_ret_ok. split; assumption.
Qed.

Lemma ptw_loop_returns (cfg : config) (pmem : Z -> Z)
    (is_in_mmio : Z -> bool) (vaddr : Z) (type : mem_type) (virt mode : Z)
    (n : nat) :
  forall (pte pg_base : Z) (s s' : state) (pa : Z),
    Z.land pg_base PAGE_MASK = 0 ->
    ptw_loop cfg pmem is_in_mmio n pte pg_base vaddr type virt mode s
    = Ret pa s' ->
    Z.land pa PAGE_MASK = 0 /\ walked (walk_reads virt n) s s'.
Proof.
  induction n as [|n IH]; intros pte pg_base s s' pa Hal.
  - cbn [ptw_loop]. now apply ptw_after_loop_returns.
  - cbn [ptw_loop]. unfold bind at 1.
    set (p := wrap64 _).
    destruct ((if nz virt then gpa_stage cfg pmem p vaddr type else ret p) s)
      as [p_pte s1| |] eqn:E1; try discriminate.
    assert (H1 : walked (if nz virt then 4 else 0) s s1).
    { destruct (nz virt).
      - now apply gpa_stage_returns in E1 as (_ & _ & Hw).
      - injection E1 as _ <-. apply walked_refl. }
    unfold bind at 1.
    destruct (pte_read cfg pmem is_in_mmio p_pte type vaddr s1)
      as [pte1 s2| |] eqn:E2; try discriminate.
    apply pte_read_returns in E2 as [-> ->].
    set (pte1 := pmem p_pte). set (s2 := log_read p_pte s1).
    assert (H2 : walked (if nz virt then 5 else 1) s s2).
    { destruct (nz virt).
      - apply (walked_trans 4 1 s s1 s2); [exact H1|apply walked_log_read].
      - apply (walked_trans 0 1 s s1 s2); [exact H1|apply walked_log_read]. }
    assert (Hfin : forall m s3,
              walked (walk_reads virt m) s2 s3 -> (m <= n)%nat ->
              walked (walk_reads virt (S n)) s s3).
    { intros m s3 H3 Hm. unfold walk_reads in *. destruct (nz virt).
      - apply (walked_le (5 + (5 * m + 4))); [lia|].
        now apply (walked_trans _ _ s s2 s3).
      - apply (walked_le (1 + m)); [lia|].
        now apply (walked_trans _ _ s s2 s3). }
    destruct (negb (pte_v pte1) || negb (pte_r pte1) && pte_w pte1).
    { intros H. now apply ptw_bad_never_returns in H. }
    destruct (pte_r pte1 || pte_x pte1 || nz (pte_pad pte1)).
    { intros H. apply ptw_after_loop_returns in H; [|apply PGBASE_aligned].
      destruct H as [Ha Hw]. split; [exact Ha|].
      apply (Hfin 0%nat); [exact Hw|lia]. }
    destruct n as [|n'].
    { intros H. now apply ptw_bad_never_returns in H. }
    intros H. apply IH in H; [|apply PGBASE_aligned].
    destruct H as [Ha Hw]. split; [exact Ha|].
    apply (Hfin (S n')); [exact Hw|lia].
Qed.

(** What [ptw] returns, and what it changes. *)
Lemma ptw_returns (cfg : config) (pmem : Z -> Z) (is_in_mmio : Z -> bool)
    (pte_uninit vaddr : Z) (type : mem_type) (s s' : state) (pa : Z) :
  ptw cfg pmem is_in_mmio pte_uninit vaddr type s = Ret pa s' ->
  Z.land pa PAGE_MASK = 0
  /\ walked (if nz (fst (ptw_virt_mode type s)) then 24 else 4) s s'.
Proof.
  unfold ptw. cbn [bind get].
  destruct (ptw_virt_mode type s) as [virt mode]. cbn [fst].
  destruct (nz virt && (zv s vsatp_mode =? 0)) eqn:Eb.
  - apply andb_true_iff in Eb as [-> _]. unfold bind.
    destruct (gpa_stage cfg pmem vaddr vaddr type s) as [r s1| |] eqn:E;
      try discriminate.
    apply gpa_stage_returns in E as (_ & _ & Hw).
    cbn [ret]. intros [= <- <-]. split; [apply masked_aligned|].
    apply (walked_le 4); [lia|exact Hw].
  - destruct (negb (sext_by_shift vaddr _ =? vaddr)).
    { intros H. now apply ptw_bad_never_returns in H. }
    intros H. apply ptw_loop_returns in H.
    2: { destruct (nz virt); apply PGBASE_aligned. }
    destruct H as [Ha Hw]. split; [exact Ha|].
    unfold walk_reads in Hw.
    destruct (nz virt).
    + destruct (zv s vsatp_mode =? 8);
        (eapply walked_le; [|exact Hw]); lia.
    + destruct (zv s satp_mode =? 8);
        (eapply walked_le; [|exact Hw]); lia.
Qed.

(** X17: [ptw] never returns [MEM_RET_FAIL]: what it returns is the base of
    a page, with its low twelve bits zero. *)
Theorem ptw_returns_page_base (cfg : config) (pmem : Z -> Z)
    (is_in_mmio : Z -> bool) (pte_uninit vaddr : Z) (type : mem_type)
    (s s' : state) (pa : Z) :
  ptw cfg pmem is_in_mmio pte_uninit vaddr type s = Ret pa s' ->
  Z.land pa PAGE_MASK = 0 /\ pa <> MEM_RET_FAIL.
Proof.
  intros H. apply ptw_returns in H as [Ha _]. split; [exact Ha|].
  intros ->. discriminate.
Qed.

(** X18: a returning [ptw] has written no location but [pt_level] (no CSR,
    no trap value, no flag), and has read four page-table entries at most
    with one stage of translation, twenty-four with two. *)
Theorem ptw_frame (cfg : config) (pmem : Z -> Z)
    (is_in_mmio : Z -> bool) (pte_uninit vaddr : Z) (type : mem_type)
    (s s' : state) (pa : Z) :
  ptw cfg pmem is_in_mmio pte_uninit vaddr type s = Ret pa s' ->
  (forall l, l <> pt_level -> zv s' l = zv s l)
  /\ bv s' = bv s
  /\ exists new,
       reads s' = new ++ reads s
       /\ (length new
           <= if nz (fst (ptw_virt_mode type s)) then 24 else 4)%nat.
Proof.
  intros H. apply ptw_returns in H as (_ & Hb & Hz & Hr). auto.
Qed.

(** ** Translation and the forced exceptions *)

Lemma force_raise_pf_off (cfg : config) (vaddr : Z) (type : mem_type)
    (s : state) :
  bv s cpu_guided_exec = false ->
  force_raise_pf cfg vaddr type s = Ret MEM_RET_OK s.
Proof. intros H. unfold force_raise_pf. cbn [bind get]. now rewrite H. Qed.

Lemma force_raise_gpf_off (vaddr : Z) (type : mem_type) (s : state) :
  bv s cpu_guided_exec = false ->
  force_raise_gpf vaddr type s = Ret MEM_RET_OK s.
Proof. intros H. unfold force_raise_gpf. cbn [bind get]. now rewrite H. Qed.

Lemma force_raise_pf_returns_ok (cfg : config) (vaddr : Z) (type : mem_type)
    (s s' : state) (r : Z) :
  force_raise_pf cfg vaddr type s = Ret r s' -> r = MEM_RET_OK.
Proof.
  unfold force_raise_pf. cbn [bind get].
  repeat match goal with
         | |- context [if ?c then _ else _] =>
             lazymatch c with
             | context [if _ then _ else _] => fail
             | _ => destruct c
             end;
             cbn [bind get ret wr_z wr_b when force_raise_pf_record
                  longjmp_exception]
         end;
    try discriminate;
    try (unfold bind at 1;
         destruct (force_raise_pf_record vaddr type s) as [[|] s1| |];
         cbn [bind get ret wr_z longjmp_exception]);
    try discriminate;
    try (destruct (intr_deleg_VS EX_IPF s1); [|destruct (intr_deleg_S EX_IPF s1)];
         cbn [bind get ret wr_z longjmp_exception]);
    try discriminate; intros [= ? ?]; congruence.
Qed.

Lemma force_raise_gpf_returns_ok (vaddr : Z) (type : mem_type)
    (s s' : state) (r : Z) :
  force_raise_gpf vaddr type s = Ret r s' -> r = MEM_RET_OK.
Proof.
  unfold force_raise_gpf. cbn [bind get].
  repeat match goal with
         | |- context [if ?c then _ else _] =>
             lazymatch c with
             | context [if _ then _ else _] => fail
             | _ => destruct c
             end;
             cbn [bind get ret wr_z wr_b when force_raise_gpf_record
                  longjmp_exception]
         end;
    try discriminate;
    try (unfold bind at 1;
         destruct (force_raise_gpf_record vaddr type s) as [[|] s1| |];
         cbn [bind get ret wr_z longjmp_exception]);
    try discriminate;
    try (destruct (intr_deleg_S EX_IGPF s1);
         cbn [bind get ret wr_z longjmp_exception]);
    try discriminate; intros [= ? ?]; congruence.
Qed.

(** X19: [isa_mmu_translate] never returns [MEM_RET_FAIL]: it returns
    [MEM_RET_CROSS_PAGE] or the base of a page, with its low twelve bits
    zero. *)
Theorem isa_mmu_translate_result (cfg : config) (pmem : Z -> Z)
    (is_in_mmio : Z -> bool) (pte_uninit vaddr len : Z) (type : mem_type)
    (s s' : state) (r : Z) :
  isa_mmu_translate cfg pmem is_in_mmio pte_uninit vaddr len type s = Ret r s' ->
  r <> MEM_RET_FAIL
  /\ (r = MEM_RET_CROSS_PAGE \/ Z.land r PAGE_MASK = 0).
Proof.
  unfold isa_mmu_translate. destruct (is_cross_page vaddr len).
  { intros [= <- <-]. split; [discriminate|now left]. }
  unfold bind at 1.
  destruct (ptw cfg pmem is_in_mmio pte_uninit vaddr type s)
    as [pa s1| |] eqn:E; try discriminate.
  apply ptw_returns in E as [Ha _].
  rewrite (aligned_not_fail _ Ha). cbn [negb].
  unfold bind at 1.
  destruct (force_raise_pf cfg vaddr type s1) as [r1 s2| |] eqn:E1;
    try discriminate.
  apply force_raise_pf_returns_ok in E1 as ->. cbn [negb Z.eqb MEM_RET_OK].
  unfold bind at 1.
  destruct (force_raise_gpf vaddr type s2) as [r2 s3| |] eqn:E2;
    try discriminate.
  apply force_raise_gpf_returns_ok in E2 as ->. cbn [negb Z.eqb MEM_RET_OK].
  intros [= <- <-]. split; [|now right].
  intros ->. discriminate.
Qed.

(** X20: outside guided execution [isa_mmu_translate] is [ptw] for an access
    that stays within one page: the same result, the same exception, the
    same state. *)
Theorem isa_mmu_translate_is_ptw (cfg : config) (pmem : Z -> Z)
    (is_in_mmio : Z -> bool) (pte_uninit vaddr len : Z) (type : mem_type)
    (s : state) :
  bv s cpu_guided_exec = false ->
  is_cross_page vaddr len = false ->
  isa_mmu_translate cfg pmem is_in_mmio pte_uninit vaddr len type s
  = ptw cfg pmem is_in_mmio pte_uninit vaddr type s.
Proof.
  intros Hg Hc. unfold isa_mmu_translate. rewrite Hc. unfold bind at 1.
  destruct (ptw cfg pmem is_in_mmio pte_uninit vaddr type s)
    as [pa s1| |] eqn:E; try reflexivity.
  apply ptw_returns in E as (Ha & Hb & _).
  rewrite (aligned_not_fail _ Ha). cbn [negb].
  assert (bv s1 cpu_guided_exec = false) as Hg1 by now rewrite Hb.
  rewrite (bind_Ret _ _ _ _ _ (force_raise_pf_off cfg vaddr type s1 Hg1)).
  cbn [negb Z.eqb MEM_RET_OK].
  rewrite (bind_Ret _ _ _ _ _ (force_raise_gpf_off vaddr type s1 Hg1)).
  reflexivity.
Qed.

Lemma force_raise_pf_record_value (vaddr : Z) (type : mem_type) (s : state) :
  force_raise_pf_record vaddr type s
  = Ret (zv (pf_recorded vaddr type s) (pf_force_count type) =? 5)
        (pf_recorded vaddr type s).
Proof.
  unfold force_raise_pf_record, pf_recorded. cbn [bind get].
  destruct (vaddr =? zv s (pf_last_addr type));
    cbn [negb when bind wr_z ret get]; cbv zeta;
    repeat rewrite zv_set_z_same; reflexivity.
Qed.

Lemma pf_recorded_count (vaddr : Z) (type : mem_type) (s : state) :
  zv (pf_recorded vaddr type s) (pf_force_count type)
  = to_int ((if vaddr =? zv s (pf_last_addr type)
             then zv s (pf_force_count type) else 0) + 1)
  /\ zv (pf_recorded vaddr type s) (pf_last_addr type) = vaddr
  /\ bv (pf_recorded vaddr type s) = bv s
  /\ (forall l, l <> pf_force_count type -> l <> pf_last_addr type ->
      zv (pf_recorded vaddr type s) l = zv s l).
Proof.
  unfold pf_recorded.
  destruct (vaddr =? zv s (pf_last_addr type)) eqn:E.
  - apply Z.eqb_eq in E. repeat split; store; try (intros; store).
    now symmetry.
  - repeat split; store; intros; store.
Qed.

(** One forced page fault: the call counts the attempt, and raises unless
    this is the fifth in a row for the address. *)
Lemma force_raise_pf_step (cfg : config) (vaddr : Z) (type : mem_type)
    (s : state) :
  type = MEM_TYPE_IFETCH \/ type = MEM_TYPE_READ \/ type = MEM_TYPE_WRITE ->
  forcing_page_fault type s ->
  let c := to_int ((if vaddr =? zv s (pf_last_addr type)
                    then zv s (pf_force_count type) else 0) + 1) in
  exists s',
    force_raise_pf cfg vaddr type s
    = (if c =? 5 then Ret MEM_RET_OK s' else Exc (page_fault_of type false) s')
    /\ forcing_page_fault type s'
    /\ zv s' (pf_last_addr type) = vaddr
    /\ zv s' (pf_force_count type) = c.
Proof.
  intros Ht (Hg & Hf & Hn) c. unfold force_raise_pf.
  cbn [bind get]. rewrite Hg, Hf, Hn. cbn [andb].
  destruct (pf_recorded_count vaddr type s) as (Hc & Hl & Hb & Hz).
  fold c in Hc. unfold forcing_page_fault.
  set (s1 := pf_recorded vaddr type s) in *.
  assert (Hkeep : forall (reg : zloc) (v : Z),
            reg = vstval \/ reg = stval \/ reg = mtval ->
            (bv (set_z reg v s1) cpu_guided_exec = true
             /\ bv (set_z reg v s1) guide_force_raise_exception = true
             /\ zv (set_z reg v s1) guide_exception_num
                = page_fault_of type false)
            /\ zv (set_z reg v s1) (pf_last_addr type) = vaddr
            /\ zv (set_z reg v s1) (pf_force_count type) = c).
  { intros reg v Hr. rewrite !bv_set_z, Hb.
    destruct Hr as [-> | [-> | ->]];
      rewrite !zv_set_z_other by discriminate;
      rewrite Hz by discriminate; auto. }
  assert (Hkeep0 : (bv s1 cpu_guided_exec = true
             /\ bv s1 guide_force_raise_exception = true
             /\ zv s1 guide_exception_num = page_fault_of type false)
            /\ zv s1 (pf_last_addr type) = vaddr
            /\ zv s1 (pf_force_count type) = c).
  { rewrite Hb, Hz by discriminate. auto. }
  destruct Ht as [-> | [-> | ->]];
    cbn [mem_type_eqb mem_type_beq page_fault_of andb negb];
    rewrite ?Z.eqb_refl; cbn [andb];
    change (EX_LPF =? EX_IPF) with false; change (EX_SPF =? EX_IPF) with false;
    change (EX_SPF =? EX_LPF) with false; cbv iota;
    rewrite (bind_Ret _ _ _ _ _ (force_raise_pf_record_value vaddr _ s));
    fold s1; rewrite Hc;
    (destruct (c =? 5); [exists s1; split; [reflexivity|exact Hkeep0]|]);
    cbn [bind get wr_z longjmp_exception];
    try (unfold INTR_TVAL_REG);
    (destruct (intr_deleg_VS _ s1); [|destruct (intr_deleg_S _ s1)]);
    cbn [bind get wr_z longjmp_exception];
    eexists; (split; [reflexivity|]); apply Hkeep; auto.
Qed.

Lemma to_int_small (x : Z) : 0 <= x < 2 ^ 31 -> to_int x = x.
Proof.
  intros H. unfold to_int. rewrite Z.mod_small by lia.
  destruct (Z.ltb_spec x (2 ^ 31)); lia.
Qed.

Lemma force_raise_pf_repeat_counts (cfg : config) (vaddr : Z)
    (type : mem_type) (s : state) :
  type = MEM_TYPE_IFETCH \/ type = MEM_TYPE_READ \/ type = MEM_TYPE_WRITE ->
  forcing_page_fault type s ->
  zv s (pf_last_addr type) <> vaddr ->
  forall k, (k < 5)%nat ->
    let sk := force_raise_pf_repeat cfg (S k) vaddr type s in
    forcing_page_fault type sk
    /\ zv sk (pf_last_addr type) = vaddr
    /\ zv sk (pf_force_count type) = Z.of_nat (S k).
Proof.
  intros Ht Hf Hl. induction k as [|k IH]; intros Hk.
  - cbn [force_raise_pf_repeat].
    destruct (force_raise_pf_step cfg vaddr type s Ht Hf)
      as (s' & E & Hf' & Hl' & Hc').
    assert ((vaddr =? zv s (pf_last_addr type)) = false) as Ea
      by (apply Z.eqb_neq; congruence).
    rewrite Ea in E, Hc'. change (to_int (0 + 1)) with 1 in E, Hc'.
    change (1 =? 5) with false in E. cbv iota in E.
    rewrite E. cbn [state_after]. auto.
  - specialize (IH ltac:(lia)). cbv zeta in IH.
    destruct IH as (Hf1 & Hl1 & Hc1).
    set (sk := force_raise_pf_repeat cfg (S k) vaddr type s) in *.
    change (force_raise_pf_repeat cfg (S (S k)) vaddr type s)
      with (state_after (force_raise_pf cfg vaddr type sk) sk).
    destruct (force_raise_pf_step cfg vaddr type sk Ht Hf1)
      as (s' & E & Hf' & Hl' & Hc').
    rewrite Hl1, Z.eqb_refl, Hc1 in E, Hc'.
    rewrite to_int_small in E, Hc' by lia.
    assert (state_after (force_raise_pf cfg vaddr type sk) sk = s') as ->
      by (rewrite E; now destruct (_ =? 5)).
    split; [exact Hf'|]. split; [exact Hl'|]. rewrite Hc'. lia.
Qed.

(** X21: when guided execution is forcing the page fault of an access and
    the address is not the one recorded last, the first four consecutive
    calls of [force_raise_pf] for the access raise the page fault, and the
    fifth returns [MEM_RET_OK]. *)
Theorem force_raise_pf_fifth_attempt_passes (cfg : config) (vaddr : Z)
    (type : mem_type) (s : state) :
  type = MEM_TYPE_IFETCH \/ type = MEM_TYPE_READ \/ type = MEM_TYPE_WRITE ->
  forcing_page_fault type s ->
  zv s (pf_last_addr type) <> vaddr ->
  (forall k, (k < 4)%nat ->
     exists s',
       force_raise_pf cfg vaddr type (force_raise_pf_repeat cfg k vaddr type s)
       = Exc (page_fault_of type false) s')
  /\ exists s',
       force_raise_pf cfg vaddr type (force_raise_pf_repeat cfg 4 vaddr type s)
       = Ret MEM_RET_OK s'.
Proof.
  intros Ht Hf Hl.
  assert (Hnext : forall k, (k < 5)%nat ->
            exists s',
              force_raise_pf cfg vaddr type
                (force_raise_pf_repeat cfg k vaddr type s)
              = if Z.of_nat k + 1 =? 5 then Ret MEM_RET_OK s'
                else Exc (page_fault_of type false) s').
  { intros [|k] Hk.
    - destruct (force_raise_pf_step cfg vaddr type s Ht Hf)
        as (s' & E & _).
      assert ((vaddr =? zv s (pf_last_addr type)) = false) as Ea
        by (apply Z.eqb_neq; congruence).
      rewrite Ea in E. exists s'. exact E.
    - destruct (force_raise_pf_repeat_counts cfg vaddr type s Ht Hf Hl k)
        as (Hf1 & Hl1 & Hc1); [lia|].
      destruct (force_raise_pf_step cfg vaddr type _ Ht Hf1)
        as (s' & E & _).
      rewrite Hl1, Z.eqb_refl, Hc1 in E.
      rewrite to_int_small in E by lia.
      exists s'. exact E. }
  split.
  - intros k Hk. destruct (Hnext k) as (s' & E); [lia|].
    exists s'. rewrite E.
    destruct (Z.eqb_spec (Z.of_nat k + 1) 5); [lia|reflexivity].
  - destruct (Hnext 4%nat) as (s' & E); [lia|]. exists s'. exact E.
Qed.

(** ** Region PMP: no match, full match *)

Section PmpMore.
Variable CONFIG_RV_PMP_ACTIVE_NUM : nat.
Variable pmpaddr_from_index : nat -> Z.
Variable pmpcfg_from_index : nat -> Z.
Variable pmp_tor_mask : Z.

#[local] Abbreviation pmp_match_ := (pmp_match pmpaddr_from_index pmpcfg_from_index pmp_tor_mask).
#[local] Abbreviation pmp_entry_loop_ := (pmp_entry_loop pmpaddr_from_index pmpcfg_from_index pmp_tor_mask).
#[local] Abbreviation pmp_entry_matches_ := (pmp_entry_matches pmpaddr_from_index pmpcfg_from_index pmp_tor_mask).
#[local] Abbreviation pmp_base_ := (pmp_base pmpaddr_from_index pmp_tor_mask).
#[local] Abbreviation pmp_cfg_ := (pmp_cfg pmpcfg_from_index).

(** The entry loop passes over the entries that match no sector. *)
Lemma pmp_entry_loop_skip (addr len : Z) (type : mem_type) (mode : Z) :
  0 <= len < 2 ^ 31 ->
  forall k1 k2 i0,
    (forall j off, (i0 <= j < i0 + k1)%nat -> In off (pmp_sector_offsets len) ->
                   pmp_entry_matches_ j addr off = false) ->
    pmp_entry_loop_ (k1 + k2) i0 (pmp_base_ i0) addr len type mode
    = pmp_entry_loop_ k2 (i0 + k1) (pmp_base_ (i0 + k1)) addr len type mode.
Proof.
  intros Hlen. induction k1 as [|k1 IH]; intros k2 i0 Hlow.
  - now rewrite Nat.add_0_r.
  - cbn [Nat.add pmp_entry_loop].
    change 0 with (4 * Z.of_nat 0) at 1.
    rewrite pmp_sector_loop_spec by (apply pmp_sectors_bound; exact Hlen).
    fold (pmp_sector_offsets len). cbn [orb andb].
    assert (pmp_entry_loop_ (k1 + k2) (S i0) (pmp_base_ (S i0))
              addr len type mode
            = pmp_entry_loop_ k2 (i0 + S k1) (pmp_base_ (i0 + S k1))
                addr len type mode) as Hrec.
    { rewrite IH; [now rewrite Nat.add_succ_comm|].
      intros j off Hj. apply Hlow. lia. }
    cbn [pmp_base] in Hrec.
    destruct (nz (Z.land (pmp_cfg_ i0) PMP_A)) eqn:Hon; [|exact Hrec].
    assert (existsb (fun off => pmp_match_ i0 (pmp_base_ i0) (wrap64 (addr + off)))
                    (pmp_sector_offsets len) = false) as ->.
    { destruct (existsb _ _) eqn:E; [|reflexivity].
      apply existsb_exists in E as (off & Hin & Hm).
      assert (pmp_entry_matches_ i0 addr off = false) as Hf
        by (apply Hlow; [lia|exact Hin]).
      unfold pmp_entry_matches in Hf.
      rewrite Hon, Hm in Hf. discriminate. }
    exact Hrec.
Qed.

(** X22: when no active entry matches any four-byte sector of an access
    (every entry off, the access outside every region, or an access of
    length zero), the PMP check grants it exactly in machine mode, the mode
    being the effective one: [mstatus.MPP] for a data access under
    [mstatus.MPRV].  With no entry implemented it grants every access. *)
Theorem isa_pmp_check_no_match (addr len : Z) (type : mem_type)
    (out_mode : Z) (s : state) :
  0 <= len < 2 ^ 31 ->
  (forall j off, (j < CONFIG_RV_PMP_ACTIVE_NUM)%nat ->
                 In off (pmp_sector_offsets len) ->
                 pmp_entry_matches_ j addr off = false) ->
  isa_pmp_check_permission CONFIG_RV_PMP_ACTIVE_NUM pmpaddr_from_index
    pmpcfg_from_index pmp_tor_mask addr len type out_mode s
  = (CONFIG_RV_PMP_ACTIVE_NUM =? 0)%nat
    || (pmp_effective_mode type out_mode s =? MODE_M).
Proof.
  intros Hlen Hno. unfold isa_pmp_check_permission.
  destruct (CONFIG_RV_PMP_ACTIVE_NUM =? 0)%nat; [reflexivity|].
  cbn [orb]. change 0 with (pmp_base_ 0) at 1.
  rewrite <- (Nat.add_0_r CONFIG_RV_PMP_ACTIVE_NUM) at 1.
  rewrite (pmp_entry_loop_skip addr len type _ Hlen); [reflexivity|].
  intros j off Hj. apply Hno. lia.
Qed.

(** X23: when the lowest-numbered active entry that matches any sector of an
    access matches every sector, its configuration byte decides: an unlocked
    entry grants the access to machine mode, a locked one binds machine mode
    too, and otherwise the R bit grants reads, the W bit writes and the X
    bit fetches; higher-numbered entries are not consulted. *)
Theorem isa_pmp_check_full_match (addr len : Z) (type : mem_type)
    (out_mode : Z) (s : state) (i : nat) :
  0 < len < 2 ^ 31 ->
  (i < CONFIG_RV_PMP_ACTIVE_NUM)%nat ->
  (forall j off, (j < i)%nat -> In off (pmp_sector_offsets len) ->
                 pmp_entry_matches_ j addr off = false) ->
  (forall off, In off (pmp_sector_offsets len) ->
               pmp_entry_matches_ i addr off = true) ->
  isa_pmp_check_permission CONFIG_RV_PMP_ACTIVE_NUM pmpaddr_from_index
    pmpcfg_from_index pmp_tor_mask addr len type out_mode s
  = pmp_cfg_grants (pmp_cfg_ i) type (pmp_effective_mode type out_mode s).
Proof.
  intros Hlen Hi Hlow Hall. unfold isa_pmp_check_permission.
  destruct (Nat.eqb_spec CONFIG_RV_PMP_ACTIVE_NUM 0) as [E|_]; [lia|].
  fold (pmp_effective_mode type out_mode s).
  set (mode := pmp_effective_mode type out_mode s).
  change 0 with (pmp_base_ 0) at 1.
  replace CONFIG_RV_PMP_ACTIVE_NUM
    with (i + S (CONFIG_RV_PMP_ACTIVE_NUM - S i))%nat at 1 by lia.
  rewrite (pmp_entry_loop_skip addr len type mode).
  2: lia.
  2: { intros j off Hj. apply Hlow. lia. }
  cbn [Nat.add pmp_entry_loop].
  change 0 with (4 * Z.of_nat 0) at 1.
  rewrite pmp_sector_loop_spec by (apply pmp_sectors_bound; lia).
  fold (pmp_sector_offsets len). cbn [orb andb].
  assert (In 0 (pmp_sector_offsets len)) as H0.
  { unfold pmp_sector_offsets.
    assert (pmp_sectors len <> 0%nat) as Hs.
    { unfold pmp_sectors, wrap64. rewrite Z.mod_small by lia.
      assert (1 <= (len + 3) / 4) by (apply Z.div_le_lower_bound; lia). lia. }
    destruct (pmp_sectors len); [contradiction|]. cbn. now left. }
  pose proof (Hall 0 H0) as Hm0. unfold pmp_entry_matches in Hm0.
  apply andb_true_iff in Hm0 as [Hon Hm0]. rewrite Hon.
  assert (existsb (fun off => pmp_match_ i (pmp_base_ i) (wrap64 (addr + off)))
                  (pmp_sector_offsets len) = true) as ->.
  { apply existsb_exists. eauto. }
  assert (forallb (fun off => pmp_match_ i (pmp_base_ i) (wrap64 (addr + off)))
                  (pmp_sector_offsets len) = true) as ->.
  { apply forallb_forall. intros off Hin. specialize (Hall off Hin).
    unfold pmp_entry_matches in Hall. now apply andb_true_iff in Hall. }
  reflexivity.
Qed.

End PmpMore.

(** ** Region PMP: the naturally aligned regions *)

Lemma testbit_mul_pow2_add (a y e n : Z) :
  0 <= e -> 0 <= y < 2 ^ e -> 0 <= n ->
  Z.testbit (a * 2 ^ e + y) n
  = if n <? e then Z.testbit y n else Z.testbit a (n - e).
Proof.
  intros He Hy Hn. destruct (Z.ltb_spec n e).
  - rewrite <- (Z.mod_pow2_bits_low (a * 2 ^ e + y) e n) by lia.
    rewrite Z.add_comm, Z.mod_add by lia. now rewrite Z.mod_small by lia.
  - replace n with ((n - e) + e) at 1 by lia.
    rewrite <- Z.div_pow2_bits by lia.
    rewrite Z.div_add_l by lia. rewrite (Z.div_small y) by lia.
    now rewrite Z.add_0_r.
Qed.

Lemma testbit_above_64 (x n : Z) :
  0 <= x < 2 ^ 64 -> 64 <= n -> Z.testbit x n = false.
Proof.
  intros Hx Hn. rewrite <- (Z.mod_small x (2 ^ 64)) by lia.
  apply Z.mod_pow2_bits_high. lia.
Qed.

(** [mask & ~(mask + 1)] keeps the trailing ones of [mask]. *)
Lemma trailing_ones (a j : Z) :
  0 <= j -> 0 <= a ->
  let m := a * 2 ^ (j + 1) + (2 ^ j - 1) in
  m + 1 < 2 ^ 64 ->
  Z.land m (not64 (wrap64 (m + 1))) = 2 ^ j - 1.
Proof.
  intros Hj Ha m Hm.
  assert (0 < 2 ^ j) by (apply Z.pow_pos_nonneg; lia).
  assert (2 ^ (j + 1) = 2 * 2 ^ j) as E2
    by (rewrite Z.pow_add_r by lia; change (2 ^ 1) with 2; lia).
  assert (0 <= m) by (subst m; nia).
  assert (j < 64).
  { destruct (Z.lt_ge_cases j 64); [assumption|].
    assert (2 ^ 64 <= 2 ^ j) by (apply Z.pow_le_mono_r; lia). subst m. nia. }
  unfold wrap64. rewrite (Z.mod_small (m + 1)) by lia.
  apply Z.bits_inj'. intros n Hn.
  rewrite Z.land_spec, testbit_low_mask by lia.
  destruct (Z.lt_ge_cases n 64) as [Hlt|Hge].
  2: { rewrite (testbit_above_64 m) by lia. cbn.
       symmetry. apply Z.ltb_ge. lia. }
  rewrite testbit_not64 by lia.
  replace (m + 1) with (a * 2 ^ (j + 1) + 2 ^ j) by (subst m; lia).
  subst m. rewrite !testbit_mul_pow2_add by lia.
  destruct (Z.ltb_spec n (j + 1)).
  - rewrite testbit_low_mask, Z.pow2_bits_eqb by lia.
    destruct (Z.ltb_spec n j), (Z.eqb_spec j n); try reflexivity; lia.
  - destruct (Z.ltb_spec n j); [lia|]. apply andb_negb_r.
Qed.

Lemma testbit_high_mask (K n : Z) :
  0 <= K <= 64 -> 0 <= n ->
  Z.testbit (2 ^ 64 - 2 ^ K) n = (K <=? n) && (n <? 64).
Proof.
  intros HK Hn.
  replace (2 ^ 64 - 2 ^ K) with ((2 ^ (64 - K) - 1) * 2 ^ K + 0).
  2: { rewrite Z.mul_sub_distr_r, <- Z.pow_add_r by lia.
       replace (64 - K + K) with 64 by lia. lia. }
  assert (0 < 2 ^ K) by (apply Z.pow_pos_nonneg; lia).
  rewrite testbit_mul_pow2_add by lia.
  destruct (Z.ltb_spec n K), (Z.leb_spec K n); try lia; cbn [andb].
  - apply Z.bits_0.
  - rewrite testbit_low_mask by lia.
    destruct (Z.ltb_spec (n - K) (64 - K)), (Z.ltb_spec n 64);
      try reflexivity; lia.
Qed.

(** Two 64-bit words agree above bit [K] when they are in the same block of
    [2^K] addresses. *)
Lemma high_bits_same_block (x y K : Z) :
  0 <= x < 2 ^ 64 -> 0 <= y < 2 ^ 64 -> 0 <= K <= 64 ->
  (Z.land (Z.lxor x y) (2 ^ 64 - 2 ^ K) =? 0) = (x / 2 ^ K =? y / 2 ^ K).
Proof.
  intros Hx Hy HK.
  destruct (Z.eqb_spec (x / 2 ^ K) (y / 2 ^ K)) as [E|E].
  - apply Z.eqb_eq. apply Z.bits_inj'. intros n Hn.
    rewrite Z.land_spec, Z.lxor_spec, testbit_high_mask, Z.bits_0 by lia.
    destruct (Z.leb_spec K n); cbn [andb]; [|apply andb_false_r].
    replace n with ((n - K) + K) by lia.
    rewrite <- !Z.div_pow2_bits, E by lia.
    now rewrite xorb_nilpotent.
  - apply Z.eqb_neq. intros H. apply E.
    apply Z.bits_inj'. intros n Hn.
    rewrite !Z.div_pow2_bits by lia.
    destruct (Z.lt_ge_cases (n + K) 64) as [Hlt|Hge].
    2: now rewrite !testbit_above_64 by lia.
    assert (Z.testbit (Z.land (Z.lxor x y) (2 ^ 64 - 2 ^ K)) (n + K) = false)
      as Hb by (rewrite H; apply Z.bits_0).
    rewrite Z.land_spec, Z.lxor_spec, testbit_high_mask in Hb by lia.
    destruct (Z.leb_spec K (n + K)); [|lia].
    destruct (Z.ltb_spec (n + K) 64); [|lia].
    rewrite andb_true_r in Hb. now apply xorb_eq.
Qed.

Lemma same_block_range (x q d : Z) :
  0 < d -> (x / d =? q) = (q * d <=? x) && (x <? (q + 1) * d).
Proof.
  intros Hd. pose proof (Z.div_mod x d ltac:(lia)) as E.
  pose proof (Z.mod_pos_bound x d Hd) as Hr.
  destruct (Z.eqb_spec (x / d) q) as [Eq|Ne].
  - symmetry. apply andb_true_iff. split; [apply Z.leb_le|apply Z.ltb_lt]; nia.
  - symmetry. apply andb_false_iff.
    destruct (Z.leb_spec (q * d) x); [right|now left].
    apply Z.ltb_ge. destruct (Z.lt_ge_cases x ((q + 1) * d)); [|assumption].
    exfalso. apply Ne. symmetry. apply (Z.div_unique x d q (x - q * d)); lia.
Qed.

Lemma not64_small (x : Z) : 0 <= x < 2 ^ 64 -> not64 x = 2 ^ 64 - 1 - x.
Proof.
  intros H. unfold not64, wrap64, Z.lnot.
  symmetry. apply (Z.mod_unique _ _ (- 1)); lia.
Qed.

Lemma lor_double_1 (p : Z) : Z.lor (2 * p) 1 = 2 * p + 1.
Proof.
  assert (Z.land (2 * p) 1 = 0) as H.
  { change 1 with (Z.ones 1) at 1. rewrite Z.land_ones by lia.
    change (2 ^ 1) with 2. rewrite Z.mul_comm. apply Z.mod_mul. lia. }
  rewrite <- Z.lxor_lor by exact H. symmetry. now apply Z.add_nocarry_lxor.
Qed.

Section PmpNatural.
Variable pmpaddr_from_index : nat -> Z.
Variable pmpcfg_from_index : nat -> Z.

#[local] Abbreviation pmp_match4 :=
  (pmp_match pmpaddr_from_index pmpcfg_from_index (2 ^ 64 - 1)).
#[local] Abbreviation pmp_mask4 :=
  (pmp_mask pmpaddr_from_index pmpcfg_from_index (2 ^ 64 - 1)).
#[local] Abbreviation pmp_tor4 := (pmp_tor pmpaddr_from_index (2 ^ 64 - 1)).
#[local] Abbreviation pmp_cfg4 := (pmp_cfg pmpcfg_from_index).

Lemma pmp_tor_value (i : nat) :
  0 <= pmpaddr_from_index i < 2 ^ 61 ->
  pmp_tor4 i = 4 * pmpaddr_from_index i.
Proof.
  intros H. unfold pmp_tor, shl64, wrap64, PMP_SHIFT.
  change (2 ^ 64 - 1) with (Z.ones 64). rewrite Z.land_ones by lia.
  rewrite (Z.mod_small (pmpaddr_from_index i)) by lia.
  rewrite Z.shiftl_mul_pow2 by lia. change (2 ^ 2) with 4.
  rewrite Z.mod_small; lia.
Qed.

(** The mask of an entry whose [pmpaddr], shifted left with the mode bit
    appended, ends in [j] ones: the address bits from [j + 2] up. *)
Lemma pmp_mask_value (i : nat) (a j : Z) :
  0 <= j -> 0 <= a ->
  0 <= pmpaddr_from_index i < 2 ^ 61 ->
  2 * pmpaddr_from_index i
  + (if Z.land (pmp_cfg4 i) PMP_A =? PMP_NA4 then 0 else 1)
  = a * 2 ^ (j + 1) + (2 ^ j - 1) ->
  j <= 62 /\ pmp_mask4 i = 2 ^ 64 - 2 ^ (j + 2).
Proof.
  intros Hj Ha Hp E. unfold pmp_mask.
  set (p := pmpaddr_from_index i) in *.
  set (na4 := Z.land (pmp_cfg4 i) PMP_A =? PMP_NA4) in *.
  assert (shl64 p 1 = 2 * p) as ->.
  { unfold shl64, wrap64. rewrite Z.shiftl_mul_pow2 by lia.
    change (2 ^ 1) with 2. rewrite Z.mod_small; lia. }
  change (not64 (2 ^ 64 - 1)) with 0. rewrite Z.lor_0_r.
  assert (Z.lor (2 * p) (if na4 then 0 else 1)
          = a * 2 ^ (j + 1) + (2 ^ j - 1)) as ->.
  { rewrite <- E. destruct na4; [rewrite Z.lor_0_r; lia|apply lor_double_1]. }
  assert (0 < 2 ^ j) by (apply Z.pow_pos_nonneg; lia).
  assert (0 <= a * 2 ^ (j + 1)) by (apply Z.mul_nonneg_nonneg; lia).
  assert (2 ^ j <= 2 ^ 62) as Hle by (destruct na4; lia).
  assert (j <= 62) as Hj62.
  { destruct (Z.le_gt_cases j 62); [assumption|].
    assert (2 ^ 63 <= 2 ^ j) by (apply Z.pow_le_mono_r; lia). lia. }
  split; [exact Hj62|].
  rewrite trailing_ones by (try assumption; destruct na4; lia).
  rewrite not64_small by lia.
  unfold shl64, wrap64, PMP_SHIFT. rewrite Z.shiftl_mul_pow2 by lia.
  assert (2 ^ (j + 2) = 4 * 2 ^ j) as ->
    by (rewrite Z.pow_add_r by lia; change (2 ^ 2) with 4; lia).
  change (2 ^ 2) with 4.
  symmetry. apply (Z.mod_unique _ _ 3); lia.
Qed.

(** X24: with a granularity mask of all ones, a naturally aligned
    four-byte entry matches exactly the four bytes from [4 * pmpaddr] on,
    and a naturally aligned power-of-two entry whose [pmpaddr] ends in a
    zero followed by [k] ones matches exactly the block of [2^(k+3)] bytes
    that the bits above them select. *)
Theorem pmp_match_natural_regions (i : nat) (base cur : Z) :
  0 <= pmpaddr_from_index i < 2 ^ 61 ->
  0 <= cur < 2 ^ 64 ->
  (Z.land (pmp_cfg4 i) PMP_A = PMP_NA4 ->
   pmp_match4 i base cur
   = (4 * pmpaddr_from_index i <=? cur)
     && (cur <? 4 * pmpaddr_from_index i + 4))
  /\ (Z.land (pmp_cfg4 i) PMP_A = PMP_NAPOT ->
      forall q k, 0 <= k -> 0 <= q ->
        pmpaddr_from_index i = q * 2 ^ (k + 1) + (2 ^ k - 1) ->
        pmp_match4 i base cur
        = (q * 2 ^ (k + 3) <=? cur) && (cur <? (q + 1) * 2 ^ (k + 3))).
Proof.
  intros Hp Hc. set (p := pmpaddr_from_index i) in *.
  pose proof (pmp_tor_value i Hp) as Htor. fold p in Htor.
  split.
  - intros Hm. unfold pmp_match. rewrite Hm.
    change (PMP_NA4 =? PMP_TOR) with false. cbv iota.
    destruct (pmp_mask_value i p 0) as [_ ->]; try lia.
    { rewrite Hm. change (PMP_NA4 =? PMP_NA4) with true. fold p.
      change (2 ^ (0 + 1)) with 2. change (2 ^ 0) with 1. lia. }
    rewrite Htor. rewrite high_bits_same_block by lia.
    change (2 ^ (0 + 2)) with 4.
    replace (4 * p / 4) with p
      by (rewrite Z.mul_comm, Z.div_mul; lia).
    rewrite same_block_range by lia.
    f_equal; [f_equal; lia|f_equal; lia].
  - intros Hm q k Hk Hq E. unfold pmp_match. rewrite Hm.
    change (PMP_NAPOT =? PMP_TOR) with false. cbv iota.
    assert (0 < 2 ^ k) by (apply Z.pow_pos_nonneg; lia).
    assert (2 ^ (k + 1) = 2 * 2 ^ k) as E1
      by (rewrite Z.pow_add_r by lia; change (2 ^ 1) with 2; lia).
    assert (2 ^ (k + 1 + 1) = 4 * 2 ^ k) as E2
      by (rewrite !Z.pow_add_r by lia; change (2 ^ 1) with 2; lia).
    assert (2 ^ (k + 3) = 8 * 2 ^ k) as E3
      by (rewrite Z.pow_add_r by lia; change (2 ^ 3) with 8; lia).
    destruct (pmp_mask_value i q (k + 1)) as [Hk62 ->]; try lia.
    { rewrite Hm. change (PMP_NAPOT =? PMP_NA4) with false. fold p.
      rewrite E, E1, E2. lia. }
    replace (k + 1 + 2) with (k + 3) by lia.
    rewrite Htor. rewrite high_bits_same_block by lia.
    assert (4 * p / 2 ^ (k + 3) = q) as ->.
    { symmetry. apply (Z.div_unique _ _ _ (4 * 2 ^ k - 4)); [lia|].
      rewrite E, E1, E3. lia. }
    apply same_block_range. lia.
Qed.

End PmpNatural.

(** ** Trap values *)

Lemma SEXT_range (x len : Z) : 0 < len < 64 -> 0 <= SEXT x len < 2 ^ 64.
Proof.
  intros H. unfold SEXT.
  assert (0 < 2 ^ len) by (apply Z.pow_pos_nonneg; lia).
  assert (2 ^ len < 2 ^ 64) by (apply Z.pow_lt_mono_r; lia).
  pose proof (Z.mod_pos_bound x (2 ^ len) ltac:(lia)).
  destruct (Z.testbit _ _); [apply Z.mod_pos_bound|]; lia.
Qed.

Lemma SEXT_bits (x len i : Z) :
  0 < len < 64 -> 0 <= i < 64 ->
  Z.testbit (SEXT x len) i
  = if i <? len then Z.testbit x i else Z.testbit x (len - 1).
Proof.
  intros Hl Hi. unfold SEXT.
  assert (0 < 2 ^ len) by (apply Z.pow_pos_nonneg; lia).
  assert (2 ^ len < 2 ^ 64) by (apply Z.pow_lt_mono_r; lia).
  pose proof (Z.mod_pos_bound x (2 ^ len) ltac:(lia)) as Hy.
  set (y := x mod 2 ^ len) in *.
  assert (Hlow : forall n, 0 <= n < len -> Z.testbit y n = Z.testbit x n)
    by (intros n Hn; apply Z.mod_pow2_bits_low; lia).
  assert (Hhigh : forall n, len <= n -> Z.testbit y n = false)
    by (intros n Hn; apply Z.mod_pow2_bits_high; lia).
  destruct (Z.testbit y (len - 1)) eqn:Eb.
  - assert (wrap64 (y - 2 ^ len) = (2 ^ (64 - len) - 1) * 2 ^ len + y) as ->.
    { assert ((2 ^ (64 - len) - 1) * 2 ^ len = 2 ^ 64 - 2 ^ len) as ->.
      { assert (2 ^ 64 = 2 ^ (64 - len) * 2 ^ len) as E64
          by (rewrite <- Z.pow_add_r by lia; f_equal; lia).
        rewrite E64. ring. }
      unfold wrap64. symmetry. apply (Z.mod_unique _ _ (- 1)); lia. }
    rewrite testbit_mul_pow2_add by lia.
    rewrite <- (Hlow (len - 1)), Eb by lia.
    destruct (Z.ltb_spec i len); [apply Hlow; lia|].
    rewrite testbit_low_mask by lia. apply Z.ltb_lt. lia.
  - rewrite <- (Hlow (len - 1)), Eb by lia.
    destruct (Z.ltb_spec i len); [apply Hlow; lia|apply Hhigh; lia].
Qed.

(** X25: the trap value that the XiangShan CSR layout records is the address
    sign-extended from the top bit of the virtual-address width (bit 47 with
    the 48-bit scheme built in, bit 38 otherwise): it keeps the bits of the
    address up to that bit, repeats that bit above, and is the address
    itself when the address is sign-extended already. *)
Theorem INTR_TVAL_SV48_SEXT_canonical (cfg : config) (vaddr : Z) :
  0 <= vaddr < 2 ^ 64 ->
  let b := if CONFIG_RV_SV48 cfg then 47 else 38 in
  let tval := INTR_TVAL_SV48_SEXT cfg vaddr in
  0 <= tval < 2 ^ 64
  /\ (forall i, 0 <= i <= b -> Z.testbit tval i = Z.testbit vaddr i)
  /\ sign_extended_from b tval
  /\ (sign_extended_from b vaddr -> tval = vaddr).
Proof.
  intros Hv b tval.
  assert (Hbits : forall i, 0 <= i < 64 ->
            Z.testbit tval i
            = if i <=? b then Z.testbit vaddr i else Z.testbit vaddr b).
  { intros i Hi. subst tval b. unfold INTR_TVAL_SV48_SEXT.
    destruct (CONFIG_RV_SV48 cfg); rewrite SEXT_bits by lia;
      rewrite !Z.land_spec.
    - change 0xFFFFFFFFFFFF with (2 ^ 48 - 1).
      rewrite !testbit_low_mask by lia. change (48 - 1) with 47.
      change (47 <? 48) with true.
      destruct (Z.ltb_spec i 48), (Z.leb_spec i 47); try lia;
        apply andb_true_r.
    - change 0x7FFFFFFFFF with (2 ^ 39 - 1).
      rewrite !testbit_low_mask by lia. change (39 - 1) with 38.
      change (38 <? 39) with true.
      destruct (Z.ltb_spec i 39), (Z.leb_spec i 38); try lia;
        apply andb_true_r. }
  assert (Hr : 0 <= tval < 2 ^ 64).
  { subst tval. unfold INTR_TVAL_SV48_SEXT.
    destruct (CONFIG_RV_SV48 cfg); apply SEXT_range; lia. }
  assert (Hb : b = 47 \/ b = 38) by (subst b; destruct (CONFIG_RV_SV48 cfg); auto).
  split; [exact Hr|]. split; [|split].
  - intros i Hi. rewrite Hbits by lia.
    destruct (Z.leb_spec i b); [reflexivity|lia].
  - intros i Hi. rewrite !Hbits by lia.
    destruct (Z.leb_spec i b), (Z.leb_spec b b); try lia; try reflexivity.
    now replace i with b by lia.
  - intros Hs. apply Z.bits_inj'. intros n Hn.
    destruct (Z.lt_ge_cases n 64).
    + rewrite Hbits by lia. destruct (Z.leb_spec n b); [reflexivity|].
      symmetry. apply Hs. lia.
    + now rewrite !testbit_above_64 by lia.
Qed.

(** ** The PMP check of the table extension *)

(** X26: [napot_decode] for a [pmpaddr] that ends in a zero followed by [k]
    ones accepts the addresses from the base of the block of [2^(k+3)]
    bytes that the bits above them select up to, but not including, the
    last four bytes of the block. *)
Theorem napot_decode_range (addr pmpaddr q k : Z) :
  0 <= k -> 0 <= q ->
  pmpaddr = q * 2 ^ (k + 1) + (2 ^ k - 1) ->
  pmpaddr < 2 ^ 61 ->
  napot_decode addr pmpaddr
  = (q * 2 ^ (k + 3) <=? addr) && (addr <? (q + 1) * 2 ^ (k + 3) - 4).
Proof.
  intros Hk Hq E Hp.
  assert (0 < 2 ^ k) by (apply Z.pow_pos_nonneg; lia).
  assert (2 ^ (k + 1) = 2 * 2 ^ k) as E1
    by (rewrite Z.pow_add_r by lia; change (2 ^ 1) with 2; lia).
  assert (2 ^ (k + 3) = 8 * 2 ^ k) as E3
    by (rewrite Z.pow_add_r by lia; change (2 ^ 3) with 8; lia).
  assert (0 <= q * 2 ^ k) by (apply Z.mul_nonneg_nonneg; lia).
  unfold napot_decode.
  assert (wrap64 (pmpaddr + 1) = pmpaddr + 1) as ->
    by (unfold wrap64; apply Z.mod_small; nia).
  assert (Z.land pmpaddr (pmpaddr + 1) = q * 2 ^ (k + 1) + 0) as ->.
  { replace (pmpaddr + 1) with (q * 2 ^ (k + 1) + 2 ^ k) by lia.
    rewrite E. apply Z.bits_inj'. intros n Hn.
    rewrite Z.land_spec, !testbit_mul_pow2_add by lia.
    destruct (Z.ltb_spec n (k + 1)); [|apply andb_diag].
    rewrite testbit_low_mask, Z.pow2_bits_eqb, Z.bits_0 by lia.
    destruct (Z.ltb_spec n k), (Z.eqb_spec k n); try reflexivity; lia. }
  assert (Z.lor pmpaddr (pmpaddr + 1)
          = q * 2 ^ (k + 1) + (2 ^ (k + 1) - 1)) as ->.
  { replace (pmpaddr + 1) with (q * 2 ^ (k + 1) + 2 ^ k) by lia.
    rewrite E. apply Z.bits_inj'. intros n Hn.
    rewrite Z.lor_spec, !testbit_mul_pow2_add by lia.
    destruct (Z.ltb_spec n (k + 1)); [|apply orb_diag].
    rewrite !testbit_low_mask, Z.pow2_bits_eqb by lia.
    destruct (Z.ltb_spec n k), (Z.eqb_spec k n), (Z.ltb_spec n (k + 1));
      try reflexivity; lia. }
  unfold shl64, wrap64, PMP_SHIFT. rewrite !Z.shiftl_mul_pow2 by lia.
  change (2 ^ 2) with 4.
  rewrite !Z.mod_small by nia.
  f_equal; [f_equal; nia|f_equal; nia].
Qed.

(** [pmp_address_match] counts the ends of the access that the entry
    contains. *)
Lemma pmp_address_match_values (base addr len pmpaddr addr_mode : Z) :
  let m := pmp_address_match base addr len pmpaddr addr_mode in
  m = 0 \/ m = 1 \/ m = 2.
Proof.
  unfold pmp_address_match.
  repeat match goal with
         | |- context [if ?c then _ else _] => destruct c
         end; cbn; auto.
Qed.

Section PmpTableProps.
Variable host_read : Z -> Z -> Z.
Variable PMP_T : Z.
Variable CONFIG_RV_PMP_ACTIVE_NUM : nat.
Variable pmpaddr_from_index : nat -> Z.
Variable pmpcfg_from_index : nat -> Z.

#[local] Abbreviation pmptable_entry_loop_ :=
  (pmptable_entry_loop host_read PMP_T pmpaddr_from_index pmpcfg_from_index).
#[local] Abbreviation pmptable_base_ :=
  (pmptable_base pmpaddr_from_index pmpcfg_from_index).
#[local] Abbreviation pmptable_match_ :=
  (pmptable_match pmpaddr_from_index pmpcfg_from_index).
#[local] Abbreviation pmptable_entry_grants_ :=
  (pmptable_entry_grants host_read PMP_T pmpaddr_from_index
     pmpcfg_from_index).

(** The loop passes the entries that contain no end of the access, and
    reaches the next one with the floor of [pmptable_base]. *)
Lemma pmptable_entry_loop_skip (addr len : Z) (type : mem_type)
    (out_mode : Z) (k1 : nat) :
  forall i k2,
    (forall j, (i <= j < i + k1)%nat -> pmptable_match_ j addr len = 0) ->
    pmptable_entry_loop_ (k1 + k2) i (pmptable_base_ i) addr len type out_mode
    = pmptable_entry_loop_ k2 (i + k1) (pmptable_base_ (i + k1)) addr len
        type out_mode.
Proof.
  induction k1 as [|k1 IH]; intros i k2 H.
  - now rewrite Nat.add_0_r.
  - replace (i + S k1)%nat with (S i + k1)%nat by lia.
    rewrite <- IH by (intros j Hj; apply H; lia).
    cbn [Nat.add pmptable_entry_loop pmptable_base].
    pose proof (H i ltac:(lia)) as Hi. unfold pmptable_match in Hi.
    destruct (nz (Z.land (Z.land (pmpcfg_from_index i) 0xff) PMP_A));
      [|reflexivity].
    now rewrite Hi.
Qed.

(** The entry at which the loop stops: it denies when the entry contains
    one end of the access, and lets the entry decide when it contains
    both. *)
Lemma pmptable_entry_loop_decides (addr len : Z) (type : mem_type)
    (out_mode : Z) (k : nat) (i : nat) :
  pmptable_match_ i addr len <> 0 ->
  pmptable_entry_loop_ (S k) i (pmptable_base_ i) addr len type out_mode
  = if pmptable_match_ i addr len =? 1 then false
    else pmptable_entry_grants_ i addr type out_mode.
Proof.
  intros Hm. cbn [pmptable_entry_loop].
  unfold pmptable_match in *. unfold pmptable_entry_grants.
  destruct (nz (Z.land (Z.land (pmpcfg_from_index i) 0xff) PMP_A));
    [|congruence].
  destruct (_ =? 1); [reflexivity|].
  apply Z.eqb_neq in Hm. rewrite Hm.
  destruct (nz (Z.land _ PMP_T)).
  - unfold pmptable_check_permission.
    destruct (out_mode =? MODE_M); reflexivity.
  - unfold pmpcfg_check_permission.
    destruct (out_mode =? MODE_M); reflexivity.
Qed.

(** X27: the table variant of the PMP check goes by the first entry, in
    index order, that is active and contains an end of the access, tested
    against the floor that the loop holds there (the top of the nearest
    entry below that is off, or zero).  That entry denies the access, in
    every mode, when it contains only one end; when it contains both it
    grants machine mode, and outside machine mode its table decides, if its
    table bit is set, and else its configuration byte.  An access of which
    no active entry contains an end is granted in every mode. *)
Theorem isa_pmp_check_table_first_match (addr len : Z) (type : mem_type)
    (out_mode : Z) :
  let granted :=
    isa_pmp_check_permission_table host_read PMP_T CONFIG_RV_PMP_ACTIVE_NUM
      pmpaddr_from_index pmpcfg_from_index addr len type out_mode in
  ((forall j, (j < CONFIG_RV_PMP_ACTIVE_NUM)%nat ->
              pmptable_match_ j addr len = 0) ->
   granted = true)
  /\ (forall i, (i < CONFIG_RV_PMP_ACTIVE_NUM)%nat ->
        (forall j, (j < i)%nat -> pmptable_match_ j addr len = 0) ->
        pmptable_match_ i addr len <> 0 ->
        granted = if pmptable_match_ i addr len =? 1 then false
                  else pmptable_entry_grants_ i addr type out_mode).
Proof.
  intros granted. subst granted. unfold isa_pmp_check_permission_table.
  split.
  - intros H. destruct (CONFIG_RV_PMP_ACTIVE_NUM =? 0)%nat; [reflexivity|].
    change 0 with (pmptable_base_ 0) at 1.
    rewrite <- (Nat.add_0_r CONFIG_RV_PMP_ACTIVE_NUM) at 1.
    rewrite pmptable_entry_loop_skip by (intros j Hj; apply H; lia).
    reflexivity.
  - intros i Hi Hlow Hm.
    destruct (Nat.eqb_spec CONFIG_RV_PMP_ACTIVE_NUM 0) as [E|_]; [lia|].
    change 0 with (pmptable_base_ 0) at 1.
    replace CONFIG_RV_PMP_ACTIVE_NUM
      with (i + S (CONFIG_RV_PMP_ACTIVE_NUM - S i))%nat at 1 by lia.
    rewrite pmptable_entry_loop_skip by (intros j Hj; apply Hlow; lia).
    cbn [Nat.add]. now apply pmptable_entry_loop_decides.
Qed.

End PmpTableProps.

(** X28: [isa_mmu_check] lets every address through when no paged scheme
    applies to the access, and every sign-extended address when one does:
    outside the guest-bare case (guest mode with [vsatp.mode = 0]), an
    access that is a fetch or aligned, to any address with translation off
    for its effective mode, or to an address sign-extended from the boundary
    bit, returns the cached MMU state, and changes nothing. *)
Theorem isa_mmu_check_canonical_passes (cfg : config) (vaddr len : Z)
    (type : mem_type) (s : state) :
  (type = MEM_TYPE_IFETCH \/ CONFIG_AC_SOFT cfg = false
   \/ Z.land vaddr (wrap64 (len - 1)) = 0) ->
  0 <= vaddr < 2 ^ 64 ->
  ~ (zv s cpu_v <> 0 /\ zv s vsatp_mode = 0) ->
  (vm_enable (mem_type_eqb type MEM_TYPE_IFETCH) s = false
   \/ sign_extended_from (boundary_bit s) vaddr) ->
  isa_mmu_check cfg vaddr len type s
  = Ret (if nz (cached_mmu_state type s) then MMU_TRANSLATE else MMU_DIRECT) s.
Proof.
  intros Hal Hv Hgb Hc. unfold isa_mmu_check.
  assert (when (negb (mem_type_eqb type MEM_TYPE_IFETCH))
            (isa_misalign_data_addr_check cfg vaddr len type) s = Ret tt s)
    as Hmis.
  { destruct Hal as [-> | Hal]; [reflexivity|].
    destruct (negb _); [|reflexivity]. now apply isa_misalign_passes. }
  rewrite (bind_Ret _ _ _ _ _ Hmis). unfold get at 1. unfold bind at 1.
  assert (nz (zv s cpu_v) && (zv s vsatp_mode =? 0) = false) as Hgb'.
  { destruct (nz (zv s cpu_v)) eqn:E1; [|reflexivity].
    destruct (Z.eqb_spec (zv s vsatp_mode) 0) as [E2|]; [|reflexivity].
    exfalso. apply Hgb. split; [|exact E2].
    intros E0. rewrite E0 in E1. discriminate. }
  rewrite Hgb'.
  assert (Hok : forall b, b = 38 \/ b = 47 -> boundary_bit s = b ->
            vm_enable (mem_type_eqb type MEM_TYPE_IFETCH) s = true ->
            va_msbs_ok_at b vaddr = true).
  { intros b Hb Eb Hvm. apply sign_extended_va_msbs_ok; try assumption.
    destruct Hc as [Hc|Hc]; [congruence|now rewrite <- Eb]. }
  unfold cached_mmu_state, boundary_bit in *.
  destruct (vm_enable _ s) eqn:Evm.
  - assert (enable_39 s || enable_48 s = true) as Hen.
    { unfold vm_enable in Evm. now apply andb_true_iff in Evm. }
    destruct (enable_48 s) eqn:E48.
    + cbn [bind ret]. rewrite (Hok 47) by auto. cbn [negb].
      destruct (mem_type_eqb type MEM_TYPE_IFETCH), (nz (zv s cpu_v)),
        (bv s hld_st); reflexivity.
    + rewrite orb_false_r in Hen. rewrite Hen.
      cbn [bind ret]. rewrite (Hok 38) by auto. cbn [negb].
      destruct (mem_type_eqb type MEM_TYPE_IFETCH), (nz (zv s cpu_v)),
        (bv s hld_st); reflexivity.
  - cbn [bind ret negb].
    destruct (mem_type_eqb type MEM_TYPE_IFETCH), (nz (zv s cpu_v)),
      (bv s hld_st); reflexivity.
Qed.

Lemma ptw_ad_fault_raises (vaddr : Z) (type : mem_type) (s : state) :
  type = MEM_TYPE_IFETCH \/ type = MEM_TYPE_READ \/ type = MEM_TYPE_WRITE ->
  exists s',
    ptw_ad_fault vaddr type s = Exc (page_fault_of type (bv s cpu_amo)) s'
    /\ reads s' = reads s.
Proof.
  intros Ht. unfold ptw_ad_fault, bind, get.
  destruct Ht as [-> | [-> | ->]];
    (destruct (nz (zv s cpu_v)); [destruct (intr_deleg_S _ s)|]);
    cbn [wr_z longjmp_exception]; eexists; split; reflexivity.
Qed.

(** X29: the walker lets no access through a leaf whose accessed bit is
    clear, and no write through a leaf whose dirty bit is clear, whether
    the bits are checked by [check_permission] ([CONFIG_SHARE]) or by the
    walker itself: for a fetch, a read or a write, the code of [ptw] after
    its loop returns only for a leaf with the accessed bit set, and for a
    write with the dirty bit set too. *)
Theorem ptw_after_loop_needs_accessed_dirty (cfg : config) (pmem : Z -> Z)
    (level pte pg_base vaddr : Z) (type : mem_type) (virt mode : Z)
    (s s' : state) (pa : Z) :
  type = MEM_TYPE_IFETCH \/ type = MEM_TYPE_READ \/ type = MEM_TYPE_WRITE ->
  ptw_after_loop cfg pmem level pte pg_base vaddr type virt mode s = Ret pa s' ->
  pte_a pte = true /\ (type = MEM_TYPE_WRITE -> pte_d pte = true).
Proof.
  intros Ht. unfold ptw_after_loop. unfold bind at 1.
  destruct (check_permission cfg pte true vaddr type virt mode s)
    as [ok s1| |] eqn:E; try discriminate.
  pose proof (check_permission_granted _ _ _ _ _ _ _ _ _ _ E)
    as (_ & _ & _ & Hshare).
  apply check_permission_returns in E as (-> & -> & _). cbn [negb].
  cbn [bind wr_z].
  destruct ((0 <? level) && nz (Z.land pg_base (2 ^ VPNiSHFT level - 1))).
  { intros H. now apply ptw_bad_never_returns in H. }
  set (s1 := set_z pt_level level s).
  set (pgb0 := if 0 <? level then _ else pg_base).
  assert (Hfin : forall pgb s2 pa s',
            (x <- (if CONFIG_SHARE cfg then ret tt
                   else when (negb (pte_a pte)
                              || negb (pte_d pte)
                                 && mem_type_eqb type MEM_TYPE_WRITE)
                          (ptw_ad_fault vaddr type)) ;;
             ret (Z.lor pgb MEM_RET_OK)) s2 = Ret pa s' ->
            pte_a pte = true /\ (type = MEM_TYPE_WRITE -> pte_d pte = true)).
  { intros pgb s2 pa0 s0. destruct (CONFIG_SHARE cfg) eqn:Es.
    - intros _. destruct (Hshare eq_refl) as [Ha Hd]. split; [exact Ha|].
      intros ->. apply Hd; discriminate.
    - destruct (pte_a pte); cbn [negb orb].
      2: { cbn [when]. destruct (ptw_ad_fault_raises vaddr type s2 Ht)
             as (s3 & E3 & _).
           rewrite (bind_Ret_Exc _ _ _ _ _ E3). discriminate. }
      destruct (pte_d pte); cbn [negb andb]; [auto|].
      destruct Ht as [-> | [-> | ->]];
        cbn [mem_type_eqb mem_type_beq]; intros H;
        (split; [reflexivity|]); try discriminate.
      revert H. cbn [when]. destruct (ptw_ad_fault_raises vaddr MEM_TYPE_WRITE s2)
        as (s3 & E3 & _); [auto|].
      rewrite (bind_Ret_Exc _ _ _ _ _ E3). discriminate. }
  destruct (nz virt); cbn [andb].
  - unfold bind at 1 2.
    destruct (gpa_stage cfg pmem _ vaddr type s1) as [r s2| |];
      try discriminate.
    cbn [ret]. rewrite (aligned_not_fail _ (masked_aligned r)).
    apply Hfin.
  - cbn [bind ret]. apply Hfin.
Qed.

(** ** The exceptions of a walk *)

Lemma raises_only_bind {A B} (P : Z -> Prop) (m : M A) (k : A -> M B)
    (s : state) :
  raises_only P (m s) ->
  (forall a s1, m s = Ret a s1 -> raises_only P (k a s1)) ->
  raises_only P (bind m k s).
Proof.
  intros Hm Hk. unfold bind. destruct (m s); cbn in *; auto.
Qed.

Lemma raises_only_weaken {A} (P Q : Z -> Prop) (o : outcome A) :
  (forall ex, P ex -> Q ex) -> raises_only P o -> raises_only Q o.
Proof. intros H. destruct o; cbn; auto. Qed.

Lemma gpa_stage_loop_raises_only (cfg : config) (pmem : Z -> Z)
    (gpaddr vaddr : Z) (type : mem_type) (n : nat) :
  forall (pg_base : Z) (s : state),
    bv s cpu_guided_exec = false ->
    raises_only (eq (guest_fault_of type (bv s cpu_amo)))
      (gpa_stage_loop cfg pmem n pg_base gpaddr vaddr type s).
Proof.
  induction n as [|n IH]; intros pg_base s Hg.
  - cbn [gpa_stage_loop]. rewrite raise_guest_excep_records by exact Hg.
    reflexivity.
  - rewrite gpa_stage_loop_step by exact Hg. cbv zeta.
    repeat match goal with
           | |- context [if ?c then _ else _] => destruct c
           end; try (cbn; auto; fail).
    apply (IH _ (log_read _ s)). exact Hg.
Qed.

Lemma gpa_stage_raises_only (cfg : config) (pmem : Z -> Z)
    (gpaddr vaddr : Z) (type : mem_type) (s : state) :
  bv s cpu_guided_exec = false ->
  raises_only (eq (guest_fault_of type (bv s cpu_amo)))
    (gpa_stage cfg pmem gpaddr vaddr type s).
Proof.
  intros Hg. unfold gpa_stage. cbn [bind wr_z get].
  set (s0 := set_z pt_level 0 s).
  assert (bv s0 cpu_guided_exec = false) as Hg0 by exact Hg.
  assert (Hloop : forall n pg_base,
            raises_only (eq (guest_fault_of type (bv s cpu_amo)))
              (gpa_stage_loop cfg pmem n pg_base gpaddr vaddr type s0))
    by (intros n pg_base; now apply (gpa_stage_loop_raises_only cfg pmem
                                       gpaddr vaddr type n pg_base s0)).
  destruct (zv s0 hgatp_mode =? 0); [exact I|].
  destruct (zv s0 hgatp_mode =? 9); [|destruct (zv s0 hgatp_mode =? 8)];
    try (cbn [bind ret]; apply Hloop);
    (destruct (nz (Z.land gpaddr _)); cbn [when];
     [|cbn [bind ret]; apply Hloop]);
    unfold bind; rewrite raise_guest_excep_records by exact Hg0;
    reflexivity.
Qed.

Lemma check_permission_raises_only (cfg : config) (pte : Z) (ok : bool)
    (vaddr : Z) (type : mem_type) (virt mode : Z) (s : state) :
  mode = MODE_U \/ mode = MODE_S ->
  (type = MEM_TYPE_IFETCH -> bv s cpu_amo = false) ->
  raises_only (eq (page_fault_of type (bv s cpu_amo)))
    (check_permission cfg pte ok vaddr type virt mode s).
Proof.
  intros Hm Ha.
  destruct (check_permission_cases cfg pte ok vaddr type virt mode s Hm Ha)
    as [(E & _) | E]; rewrite E; reflexivity.
Qed.

Lemma pte_read_raises_only (cfg : config) (pmem : Z -> Z)
    (is_in_mmio : Z -> bool) (addr : Z) (type : mem_type) (vaddr : Z)
    (s : state) :
  raises_only (eq (access_fault_of type))
    (pte_read cfg pmem is_in_mmio addr type vaddr s).
Proof.
  unfold pte_read, access_fault_of.
  destruct (CONFIG_SHARE cfg && is_in_mmio addr); reflexivity.
Qed.

Section WalkOutcome.
Variable cfg : config.
Variable pmem : Z -> Z.
Variable is_in_mmio : Z -> bool.
Variable vaddr : Z.
Variable type : mem_type.
Variable virt mode : Z.
Variable amo : bool.

Hypothesis Hmode : mode = MODE_U \/ mode = MODE_S.
Hypothesis Hamo : type = MEM_TYPE_IFETCH -> amo = false.

Lemma walk_ready_walked (n : nat) (s s' : state) :
  walked n s s' -> walk_ready amo s -> walk_ready amo s'.
Proof. intros (Hb & _) [H1 H2]. unfold walk_ready. now rewrite Hb. Qed.

Lemma ptw_bad_raises_only (pte : Z) (s : state) :
  walk_ready amo s ->
  raises_only (ptw_exception type amo) (ptw_bad cfg pte vaddr type virt mode s).
Proof.
  intros [Hg Ha]. unfold ptw_bad. apply raises_only_bind; [|reflexivity].
  eapply raises_only_weaken;
    [|apply check_permission_raises_only; [exact Hmode|]].
  - intros ex <-. left. now rewrite Ha.
  - intros Ht. rewrite Ha. now apply Hamo.
Qed.

Lemma ptw_after_loop_raises_only (level pte pg_base : Z) (s : state) :
  walk_ready amo s ->
  raises_only (ptw_exception type amo)
    (ptw_after_loop cfg pmem level pte pg_base vaddr type virt mode s).
Proof.
  intros Hr. pose proof Hr as [Hg Ha]. unfold ptw_after_loop.
  apply raises_only_bind.
  { eapply raises_only_weaken;
      [|apply check_permission_raises_only; [exact Hmode|]].
    - intros ex <-. left. now rewrite Ha.
    - intros Ht. rewrite Ha. now apply Hamo. }
  intros ok s1 E. apply check_permission_returns in E as (-> & -> & _).
  cbn [negb bind wr_z].
  set (s1 := set_z pt_level level s).
  assert (walk_ready amo s1) as Hr1 by exact Hr.
  destruct ((0 <? level) && nz (Z.land pg_base (2 ^ VPNiSHFT level - 1)));
    [now apply ptw_bad_raises_only|].
  assert (Hfin : forall pgb s2,
            walk_ready amo s2 ->
            raises_only (ptw_exception type amo)
              ((x <- (if CONFIG_SHARE cfg then ret tt
                      else when (negb (pte_a pte)
                                 || negb (pte_d pte)
                                    && mem_type_eqb type MEM_TYPE_WRITE)
                             (ptw_ad_fault vaddr type)) ;;
                ret (Z.lor pgb MEM_RET_OK)) s2)).
  { intros pgb s2 [Hg2 Ha2]. apply raises_only_bind; [|reflexivity].
    destruct (CONFIG_SHARE cfg); [exact I|].
    destruct (_ || _); [|exact I]. cbn [when].
    unfold ptw_ad_fault, bind, get.
    destruct type;
      try (destruct (nz (zv s2 cpu_v)); [destruct (intr_deleg_S _ s2)|]);
      cbn [wr_z longjmp_exception raises_only]; try exact I;
      left; now rewrite Ha2. }
  destruct (nz virt); cbn [andb].
  - apply raises_only_bind.
    + apply raises_only_bind.
      * eapply raises_only_weaken; [|apply gpa_stage_raises_only; exact Hg].
        intros ex <-. right. left. now rewrite <- Ha.
      * intros; exact I.
    + intros pgb s2 E. unfold bind in E.
      destruct (gpa_stage cfg pmem _ vaddr type s1) as [r s3| |] eqn:E3;
        try discriminate.
      injection E as <- <-.
      rewrite (aligned_not_fail _ (masked_aligned r)).
      apply Hfin. apply gpa_stage_returns in E3 as (_ & _ & Hw).
      exact (walk_ready_walked _ _ _ Hw Hr1).
  - cbn [bind ret]. now apply Hfin.
Qed.

Lemma ptw_loop_raises_only (n : nat) :
  forall (pte pg_base : Z) (s : state),
    walk_ready amo s ->
    raises_only (ptw_exception type amo)
      (ptw_loop cfg pmem is_in_mmio n pte pg_base vaddr type virt mode s).
Proof.
  induction n as [|n IH]; intros pte pg_base s Hr.
  - cbn [ptw_loop]. now apply ptw_after_loop_raises_only.
  - cbn [ptw_loop]. pose proof Hr as [Hg Ha].
    apply raises_only_bind.
    { destruct (nz virt); [|exact I].
      eapply raises_only_weaken; [|apply gpa_stage_raises_only; exact Hg].
      intros ex <-. right. left. now rewrite <- Ha. }
    intros p_pte s1 E1.
    assert (walk_ready amo s1) as Hr1.
    { destruct (nz virt).
      - apply gpa_stage_returns in E1 as (_ & _ & Hw).
        exact (walk_ready_walked _ _ _ Hw Hr).
      - now injection E1 as _ <-. }
    apply raises_only_bind.
    { eapply raises_only_weaken; [|apply pte_read_raises_only].
      intros ex <-. right. now right. }
    intros pte1 s2 E2. apply pte_read_returns in E2 as [-> ->].
    assert (walk_ready amo (log_read p_pte s1)) as Hr2 by exact Hr1.
    destruct (negb _ || _); [now apply ptw_bad_raises_only|].
    destruct (_ || _ || _); [now apply ptw_after_loop_raises_only|].
    destruct n; [now apply ptw_bad_raises_only|now apply IH].
Qed.

End WalkOutcome.

(** X30: outside guided execution, with a translation mode of user or
    supervisor and no atomic operation pending on a fetch, [ptw] never stops
    the simulator on an assertion; it returns the base of a page, or leaves
    with the page fault or the guest-page fault of the access, or with the
    access fault of a page-table read from memory-mapped I/O. *)
Theorem ptw_outcome (cfg : config) (pmem : Z -> Z) (is_in_mmio : Z -> bool)
    (pte_uninit vaddr : Z) (type : mem_type) (s : state) :
  bv s cpu_guided_exec = false ->
  snd (ptw_virt_mode type s) = MODE_U \/ snd (ptw_virt_mode type s) = MODE_S ->
  (type = MEM_TYPE_IFETCH -> bv s cpu_amo = false) ->
  match ptw cfg pmem is_in_mmio pte_uninit vaddr type s with
  | Ret pa _ => Z.land pa PAGE_MASK = 0
  | Exc ex _ => ptw_exception type (bv s cpu_amo) ex
  | Crash => False
  end.
Proof.
  intros Hg Hm Ha.
  assert (raises_only (ptw_exception type (bv s cpu_amo))
            (ptw cfg pmem is_in_mmio pte_uninit vaddr type s)) as H.
  { unfold ptw. cbn [bind get].
    destruct (ptw_virt_mode type s) as [virt mode]. cbn [snd] in Hm.
    assert (walk_ready (bv s cpu_amo) s) as Hr by (split; auto).
    destruct (nz virt && (zv s vsatp_mode =? 0)).
    - apply raises_only_bind; [|reflexivity].
      eapply raises_only_weaken; [|apply gpa_stage_raises_only; exact Hg].
      intros ex <-. right. now left.
    - destruct (negb _).
      + now apply ptw_bad_raises_only.
      + now apply ptw_loop_raises_only. }
  destruct (ptw cfg pmem is_in_mmio pte_uninit vaddr type s) as [pa s'| |] eqn:E;
    [|exact H|exact H].
  now apply ptw_returns in E.
Qed.

(** * The further properties at concrete inputs *)

(** X1 at the timer interrupt of machine mode with a vectored [mtvec]. *)
Lemma get_trap_pc_vectoring_witness :
  get_trap_pc 0x80000001 (2 ^ 63 + 7) = 0x8000001c
  /\ get_trap_pc 0x80000001 (2 ^ 63 + 7) mod 4 = 0.
Proof.
  destruct (get_trap_pc_vectoring 0x80000001 (2 ^ 63 + 7)) as [H1 H2].
  - split; [apply Z.leb_le | apply Z.ltb_lt]; reflexivity.
  - split; [apply Z.leb_le | apply Z.ltb_lt]; reflexivity.
  - split; [rewrite H1; reflexivity | exact H2].
Defined.

(** X2 in supervisor mode with the 39-bit scheme on. *)
Lemma update_mmu_state_idempotent_witness :
  exists b s1 s2,
    update_mmu_state cfg_plain st_sv39 = Ret b s1
    /\ update_mmu_state cfg_plain s1 = Ret false s2
    /\ same_store s1 s2.
Proof.
  apply (update_mmu_state_idempotent cfg_plain st_sv39).
  repeat split; reflexivity.
Defined.

(** X3 at a read in supervisor mode whose cached data state says
    "translate". *)
Lemma isa_mmu_check_pure_witness :
  mmu_state_updated cfg_plain st_sv39 = mmu_state_updated cfg_plain st_sv39
  /\ (MMU_TRANSLATE = MMU_DIRECT \/ MMU_TRANSLATE = MMU_TRANSLATE)
  /\ isa_mmu_check cfg_plain 0x1000 4 MEM_TYPE_READ
       (mmu_state_updated cfg_plain st_sv39)
     = Ret MMU_TRANSLATE (mmu_state_updated cfg_plain st_sv39).
Proof.
  apply (isa_mmu_check_pure cfg_plain 0x1000 4 MEM_TYPE_READ
           (mmu_state_updated cfg_plain st_sv39)
           (mmu_state_updated cfg_plain st_sv39) MMU_TRANSLATE).
  vm_compute. reflexivity.
Defined.

(** X4 at a read in supervisor mode with the 39-bit scheme on. *)
Lemma isa_mmu_check_after_update_witness :
  MMU_TRANSLATE = mmu_state_of cfg_plain false st_sv39.
Proof.
  apply (isa_mmu_check_after_update cfg_plain 0x1000 4 MEM_TYPE_READ st_sv39
           (mmu_state_updated cfg_plain st_sv39)
           (mmu_state_updated cfg_plain st_sv39) true MMU_TRANSLATE).
  - repeat split; reflexivity.
  - vm_compute. reflexivity.
  - vm_compute. reflexivity.
Defined.

(** X5 at an illegal instruction in supervisor mode that nothing
    delegates. *)
Lemma raise_intr_machine_entry_witness :
  exists s',
    raise_intr cfg_plain EX_II 0x1000 st_sv39
    = Ret (get_trap_pc (zv st_sv39 mtvec) EX_II) s'
    /\ zv s' mcause = EX_II /\ zv s' mepc = 0x1000
    /\ zv s' mstatus_mpp = zv st_sv39 cpu_mode mod 4
    /\ bv s' mstatus_mpie = bv st_sv39 mstatus_mie
    /\ bv s' mstatus_mie = false
    /\ bv s' mstatus_mpv = bit0 (zv st_sv39 cpu_v)
    /\ zv s' cpu_v = 0 /\ zv s' cpu_mode = MODE_M
    /\ bv s' hld_st = false
    /\ bv s' sys_state_flush_tcache = true
    /\ zv s' ifetch_mmu_state = MMU_DIRECT.
Proof.
  apply (raise_intr_machine_entry cfg_plain EX_II 0x1000 st_sv39).
  - reflexivity.
  - repeat split; reflexivity.
Defined.

(** X6 at a breakpoint in machine mode while [medeleg] delegates
    breakpoints. *)
Lemma raise_intr_in_machine_mode_witness :
  Z.testbit (zv st_machine_deleg medeleg) EX_BP = true
  /\ exists s',
       raise_intr cfg_plain EX_BP 0x1000 st_machine_deleg
       = Ret (get_trap_pc (zv st_machine_deleg mtvec) EX_BP) s'
       /\ zv s' mcause = EX_BP /\ zv s' mepc = 0x1000
       /\ zv s' cpu_mode = MODE_M /\ zv s' mstatus_mpp = MODE_M
       /\ zv s' scause = zv st_machine_deleg scause
       /\ zv s' vscause = zv st_machine_deleg vscause.
Proof.
  split; [reflexivity|].
  apply (raise_intr_in_machine_mode cfg_plain EX_BP 0x1000 st_machine_deleg).
  - reflexivity.
  - repeat split; reflexivity.
Defined.

(** X7 at a breakpoint in user mode that [medeleg] delegates. *)
Lemma raise_intr_supervisor_entry_witness :
  exists s',
    raise_intr cfg_plain EX_BP 0x1000 st_user_deleg
    = Ret (get_trap_pc (zv st_user_deleg stvec) EX_BP) s'
    /\ zv s' scause = EX_BP /\ zv s' sepc = 0x1000
    /\ bv s' mstatus_spp = bit0 (zv st_user_deleg cpu_mode)
    /\ bv s' mstatus_spie = bv st_user_deleg mstatus_sie
    /\ bv s' mstatus_sie = false
    /\ bv s' hstatus_spv = bit0 (zv st_user_deleg cpu_v)
    /\ bv s' hstatus_spvp
       = (if nz (zv st_user_deleg cpu_v)
          then bit0 (zv st_user_deleg cpu_mode)
          else bv st_user_deleg hstatus_spvp)
    /\ zv s' cpu_v = 0 /\ zv s' cpu_mode = MODE_S
    /\ bv s' hld_st = false
    /\ bv s' sys_state_flush_tcache = true.
Proof.
  apply (raise_intr_supervisor_entry cfg_plain EX_BP 0x1000 st_user_deleg).
  - vm_compute. reflexivity.
  - repeat split; reflexivity.
Defined.

(** X8 at a load page fault in supervisor mode that nothing delegates. *)
Lemma raise_intr_keeps_fault_tval_witness :
  exists pc s',
    raise_intr cfg_plain EX_LPF 0x1000 st_sv39 = Ret pc s'
    /\ zv s' vstval = zv st_sv39 vstval /\ zv s' stval = zv st_sv39 stval
    /\ zv s' mtval = zv st_sv39 mtval
    /\ (trap_target_of EX_LPF st_sv39 = TargetS -> zv s' htval = 0)
    /\ (trap_target_of EX_LPF st_sv39 = TargetM -> zv s' mtval2 = 0).
Proof.
  apply (proj1 (raise_intr_keeps_fault_tval cfg_plain EX_LPF 0x1000 st_sv39
                  (conj eq_refl (conj eq_refl eq_refl)))).
  reflexivity.
Defined.

(** X9 at a read in supervisor mode through an invalid entry. *)
Lemma page_fault_tval_reaches_handler_witness :
  EX_LPF = page_fault_of MEM_TYPE_READ (bv st_sv39 cpu_amo)
  /\ exists pc s2,
       raise_intr cfg_plain EX_LPF 0x2000
         (set_b cpu_amo false (set_z mtval 0x1000 st_sv39)) = Ret pc s2
       /\ zv s2 mtval = 0x1000.
Proof.
  apply (page_fault_tval_reaches_handler cfg_plain 0 true 0x1000 MEM_TYPE_READ
           0 MODE_S st_sv39
           (set_b cpu_amo false (set_z mtval 0x1000 st_sv39)) EX_LPF 0x2000).
  - repeat split; reflexivity.
  - vm_compute. reflexivity.
Defined.

(** X10 at a read of guest-physical [0x2000] through an empty second-stage
    table. *)
Lemma guest_fault_tval_reaches_handler_witness :
  EX_LGPF = guest_fault_of MEM_TYPE_READ (bv st_gstage cpu_amo)
  /\ exists pc s2,
       raise_intr cfg_plain EX_LGPF 0x3000
         (set_z mtval2 0x800
            (set_z mtval 0x2000
               (log_read 0x80000000 (set_z pt_level 0 st_gstage))))
       = Ret pc s2
       /\ zv s2 mcause = EX_LGPF /\ zv s2 mtval = 0x2000
       /\ zv s2 mtval2 = Z.shiftr 0x2000 2.
Proof.
  apply (guest_fault_tval_reaches_handler cfg_plain (mem_of []) 0x2000 0x2000
           MEM_TYPE_READ st_gstage
           (set_z mtval2 0x800
              (set_z mtval 0x2000
                 (log_read 0x80000000 (set_z pt_level 0 st_gstage))))
           EX_LGPF 0x3000).
  - repeat split; reflexivity.
  - reflexivity.
  - vm_compute. reflexivity.
  - vm_compute. reflexivity.
Defined.

(** X11 at a pending and enabled machine timer interrupt. *)
Lemma isa_query_intr_masked_in_machine_mode_witness :
  irq_pending_enabled st_machine_timer IRQ_MTIP = true
  /\ isa_query_intr cfg_plain st_machine_timer = INTR_EMPTY.
Proof.
  split; [reflexivity|].
  apply (isa_query_intr_masked_in_machine_mode cfg_plain st_machine_timer);
    reflexivity.
Defined.

(** X12 at a delegated supervisor timer interrupt in user mode. *)
Lemma isa_query_intr_selects_deliverable_witness :
  exists irq,
    In irq (priority cfg_plain)
    /\ isa_query_intr cfg_plain st_user_timer = Z.lor irq INTR_BIT
    /\ Z.testbit (zv st_user_timer mip) irq = true
    /\ Z.testbit (zv st_user_timer mie) irq = true
    /\ trap_target_of (isa_query_intr cfg_plain st_user_timer) st_user_timer
       = if Z.testbit (zv st_user_timer mideleg) irq
            && Z.testbit (zv st_user_timer hideleg) irq
         then TargetVS
         else if Z.testbit (zv st_user_timer mideleg) irq
                 && (zv st_user_timer cpu_mode <? MODE_M)
         then TargetS else TargetM.
Proof.
  apply (isa_query_intr_selects_deliverable cfg_plain st_user_timer).
  vm_compute. discriminate.
Defined.

(** X13 at a four-byte read at [0x1001]. *)
Lemma isa_mmu_check_misaligned_first_witness :
  isa_mmu_check cfg_ac_soft 0x1001 4 MEM_TYPE_READ st_sv39
  = Exc EX_LAM (set_z mtval 0x1001 st_sv39).
Proof.
  apply (isa_mmu_check_misaligned_first cfg_ac_soft 0x1001 4 MEM_TYPE_READ
           st_sv39).
  - reflexivity.
  - discriminate.
  - vm_compute. discriminate.
Defined.

(** X14 at a write in supervisor mode through a leaf with R, W, X, A and
    D. *)
Lemma check_permission_success_witness :
  pte_v 0xcf = true /\ pte_pad 0xcf = 0
  /\ (MODE_S = MODE_U -> pte_u 0xcf = true)
  /\ (CONFIG_SHARE cfg_share = true ->
      pte_a 0xcf = true
      /\ (MEM_TYPE_WRITE <> MEM_TYPE_IFETCH -> MEM_TYPE_WRITE <> MEM_TYPE_READ ->
          pte_d 0xcf = true)).
Proof.
  apply (check_permission_success cfg_share 0xcf true 0x1000 MEM_TYPE_WRITE 0
           MODE_S st_sv39 st_sv39 true).
  vm_compute. reflexivity.
Defined.

(** X15 at guest-physical [0x1234], which the second stage of
    [mem_two_stage] maps to [0x90001234]. *)
Lemma gpa_stage_keeps_page_offset_witness :
  0x90001234 = MEM_RET_FAIL
  \/ Z.land 0x90001234 PAGE_MASK = Z.land 0x1234 PAGE_MASK.
Proof.
  apply (gpa_stage_keeps_page_offset cfg_plain mem_two_stage 0x1234 0x1234
           MEM_TYPE_READ st_gstage
           (fold_right log_read (set_z pt_level 0 st_gstage)
              [0x80002008; 0x80001000; 0x80000000])
           0x90001234).
  vm_compute. reflexivity.
Defined.

(** X16 at the same translation. *)
Lemma gpa_stage_frame_witness :
  let s' := fold_right log_read (set_z pt_level 0 st_gstage)
              [0x80002008; 0x80001000; 0x80000000] in
  zv s' pt_level = 0
  /\ (forall l, l <> pt_level -> zv s' l = zv st_gstage l)
  /\ bv s' = bv st_gstage
  /\ exists new, reads s' = new ++ reads st_gstage /\ (length new <= 4)%nat.
Proof.
  apply (gpa_stage_frame cfg_plain mem_two_stage 0x1234 0x1234
           MEM_TYPE_READ st_gstage
           (fold_right log_read (set_z pt_level 0 st_gstage)
              [0x80002008; 0x80001000; 0x80000000])
           0x90001234).
  vm_compute. reflexivity.
Defined.

(** X17 at the read of virtual [0x5000] through the three levels of
    [mem_pointer]. *)
Lemma ptw_returns_page_base_witness :
  Z.land 0x80003000 PAGE_MASK = 0 /\ 0x80003000 <> MEM_RET_FAIL.
Proof.
  apply (ptw_returns_page_base cfg_plain mem_pointer no_mmio 0 0x5000
           MEM_TYPE_READ st_sv39
           (set_z pt_level 0
              (fold_right log_read st_sv39
                 [0x80002028; 0x80001000; 0x80000000]))
           0x80003000).
  vm_compute. reflexivity.
Defined.

(** X18 at the same walk. *)
Lemma ptw_frame_witness :
  let s' := set_z pt_level 0
              (fold_right log_read st_sv39
                 [0x80002028; 0x80001000; 0x80000000]) in
  (forall l, l <> pt_level -> zv s' l = zv st_sv39 l)
  /\ bv s' = bv st_sv39
  /\ exists new,
       reads s' = new ++ reads st_sv39
       /\ (length new
           <= if nz (fst (ptw_virt_mode MEM_TYPE_READ st_sv39))
              then 24 else 4)%nat.
Proof.
  apply (ptw_frame cfg_plain mem_pointer no_mmio 0 0x5000
           MEM_TYPE_READ st_sv39
           (set_z pt_level 0
              (fold_right log_read st_sv39
                 [0x80002028; 0x80001000; 0x80000000]))
           0x80003000).
  vm_compute. reflexivity.
Defined.

(** X19 at a four-byte read of virtual [0x5000]. *)
Lemma isa_mmu_translate_result_witness :
  0x80003000 <> MEM_RET_FAIL
  /\ (0x80003000 = MEM_RET_CROSS_PAGE \/ Z.land 0x80003000 PAGE_MASK = 0).
Proof.
  apply (isa_mmu_translate_result cfg_plain mem_pointer no_mmio 0 0x5000 4
           MEM_TYPE_READ st_sv39
           (set_z pt_level 0
              (fold_right log_read st_sv39
                 [0x80002028; 0x80001000; 0x80000000]))
           0x80003000).
  vm_compute. reflexivity.
Defined.

(** X20 at the same access. *)
Lemma isa_mmu_translate_is_ptw_witness :
  isa_mmu_translate cfg_plain mem_pointer no_mmio 0 0x5000 4 MEM_TYPE_READ
    st_sv39
  = ptw cfg_plain mem_pointer no_mmio 0 0x5000 MEM_TYPE_READ st_sv39.
Proof.
  apply (isa_mmu_translate_is_ptw cfg_plain mem_pointer no_mmio 0 0x5000 4
           MEM_TYPE_READ st_sv39); reflexivity.
Defined.

(** X21 at a write to [0x1000] while guided execution forces a store page
    fault. *)
Lemma force_raise_pf_fifth_attempt_passes_witness :
  (forall k, (k < 4)%nat ->
     exists s',
       force_raise_pf cfg_plain 0x1000 MEM_TYPE_WRITE
         (force_raise_pf_repeat cfg_plain k 0x1000 MEM_TYPE_WRITE st_guided_spf)
       = Exc (page_fault_of MEM_TYPE_WRITE false) s')
  /\ exists s',
       force_raise_pf cfg_plain 0x1000 MEM_TYPE_WRITE
         (force_raise_pf_repeat cfg_plain 4 0x1000 MEM_TYPE_WRITE st_guided_spf)
       = Ret MEM_RET_OK s'.
Proof.
  apply (force_raise_pf_fifth_attempt_passes cfg_plain 0x1000 MEM_TYPE_WRITE
           st_guided_spf).
  - right. right. reflexivity.
  - repeat split; reflexivity.
  - vm_compute. discriminate.
Defined.

(** X22 at an eight-byte read at [0x2000], above the one entry, whose
    region ends at [0x1004]. *)
Lemma isa_pmp_check_no_match_witness :
  isa_pmp_check_permission 1 pmpaddr_one pmpcfg_one (2 ^ 64 - 1)
    0x2000 8 MEM_TYPE_READ MODE_S st_sv39
  = (1 =? 0)%nat || (pmp_effective_mode MEM_TYPE_READ MODE_S st_sv39 =? MODE_M).
Proof.
  apply (isa_pmp_check_no_match 1 pmpaddr_one pmpcfg_one (2 ^ 64 - 1)
           0x2000 8 MEM_TYPE_READ MODE_S st_sv39).
  - lia.
  - intros j off Hj Hin. destruct j; [|lia].
    change (pmp_sector_offsets 8) with [0; 4] in Hin.
    destruct Hin as [<- | [<- | []]]; reflexivity.
Defined.

(** X23 at a four-byte read at [0x1000], inside the one entry, which grants
    R, W and X. *)
Lemma isa_pmp_check_full_match_witness :
  isa_pmp_check_permission 1 pmpaddr_one pmpcfg_one (2 ^ 64 - 1)
    0x1000 4 MEM_TYPE_READ MODE_S st_sv39
  = pmp_cfg_grants (pmp_cfg pmpcfg_one 0) MEM_TYPE_READ
      (pmp_effective_mode MEM_TYPE_READ MODE_S st_sv39).
Proof.
  apply (isa_pmp_check_full_match 1 pmpaddr_one pmpcfg_one (2 ^ 64 - 1)
           0x1000 4 MEM_TYPE_READ MODE_S st_sv39 0%nat).
  - lia.
  - lia.
  - intros j off Hj. lia.
  - intros off Hin.
    change (pmp_sector_offsets 4) with [0] in Hin.
    destruct Hin as [<- | []]. reflexivity.
Defined.

(** X24 at entry 0 of [pmpaddr_two]: [0x5ff] ends in a zero followed by
    nine ones, and selects the 4 KiB block at [0x1000]. *)
Lemma pmp_match_natural_regions_witness :
  pmp_match pmpaddr_two pmpcfg_two (2 ^ 64 - 1) 0 0 0x1ffc
  = (1 * 2 ^ (9 + 3) <=? 0x1ffc) && (0x1ffc <? (1 + 1) * 2 ^ (9 + 3)).
Proof.
  apply (proj2 (pmp_match_natural_regions pmpaddr_two pmpcfg_two 0%nat 0 0x1ffc
                  ltac:(split; [apply Z.leb_le | apply Z.ltb_lt]; reflexivity)
                  ltac:(split; [apply Z.leb_le | apply Z.ltb_lt]; reflexivity))).
  - reflexivity.
  - lia.
  - lia.
  - reflexivity.
Defined.

(** X25 at the address [2^47], which is not sign-extended from bit 47. *)
Lemma INTR_TVAL_SV48_SEXT_canonical_witness :
  let tval := INTR_TVAL_SV48_SEXT cfg_plain (2 ^ 47) in
  0 <= tval < 2 ^ 64
  /\ (forall i, 0 <= i <= 47 -> Z.testbit tval i = Z.testbit (2 ^ 47) i)
  /\ sign_extended_from 47 tval
  /\ (sign_extended_from 47 (2 ^ 47) -> tval = 2 ^ 47).
Proof.
  apply (INTR_TVAL_SV48_SEXT_canonical cfg_plain (2 ^ 47)).
  split; [apply Z.leb_le | apply Z.ltb_lt]; reflexivity.
Defined.

(** X26 at [pmpaddr = 0x5ff] and the last word of its 4 KiB block. *)
Lemma napot_decode_range_witness :
  napot_decode 0x1ffc 0x5ff
  = (1 * 2 ^ (9 + 3) <=? 0x1ffc) && (0x1ffc <? (1 + 1) * 2 ^ (9 + 3) - 4).
Proof.
  apply (napot_decode_range 0x1ffc 0x5ff 1 9).
  - lia.
  - lia.
  - reflexivity.
  - reflexivity.
Defined.

(** X27 at two overlapping entries, the first with its top at [0x1004],
    the second the naturally aligned [0x1000, 0x2000).  An eight-byte read
    at [0x1000] is denied to machine mode by the first entry, which contains
    its start only, although the second contains it entirely; one at
    [0x1800] passes the first entry and is granted to supervisor mode by the
    second; one at [0x3000], which neither contains, is granted. *)
Lemma isa_pmp_check_table_first_match_witness :
  isa_pmp_check_permission_table host_zero PMP_T_bit 2 pmpaddr_overlap
    pmpcfg_overlap 0x1000 8 MEM_TYPE_READ MODE_M = false
  /\ isa_pmp_check_permission_table host_zero PMP_T_bit 2 pmpaddr_overlap
       pmpcfg_overlap 0x1800 8 MEM_TYPE_READ MODE_S = true
  /\ isa_pmp_check_permission_table host_zero PMP_T_bit 2 pmpaddr_overlap
       pmpcfg_overlap 0x3000 8 MEM_TYPE_READ MODE_S = true.
Proof.
  split; [|split].
  - apply (proj2 (isa_pmp_check_table_first_match host_zero PMP_T_bit 2
                    pmpaddr_overlap pmpcfg_overlap 0x1000 8 MEM_TYPE_READ
                    MODE_M) 0%nat).
    + lia.
    + intros j Hj. lia.
    + vm_compute. discriminate.
  - apply (proj2 (isa_pmp_check_table_first_match host_zero PMP_T_bit 2
                    pmpaddr_overlap pmpcfg_overlap 0x1800 8 MEM_TYPE_READ
                    MODE_S) 1%nat).
    + lia.
    + intros j Hj. assert (j = 0%nat) as -> by lia. reflexivity.
    + vm_compute. discriminate.
  - apply (proj1 (isa_pmp_check_table_first_match host_zero PMP_T_bit 2
                    pmpaddr_overlap pmpcfg_overlap 0x3000 8 MEM_TYPE_READ
                    MODE_S)).
    intros j Hj.
    assert (j = 0%nat \/ j = 1%nat) as [-> | ->] by lia; reflexivity.
Defined.

(** X28 at a four-byte read of [0x1000] in the 39-bit scheme. *)
Lemma isa_mmu_check_canonical_passes_witness :
  isa_mmu_check cfg_plain 0x1000 4 MEM_TYPE_READ st_sv39
  = Ret (if nz (cached_mmu_state MEM_TYPE_READ st_sv39)
         then MMU_TRANSLATE else MMU_DIRECT) st_sv39.
Proof.
  apply (isa_mmu_check_canonical_passes cfg_plain 0x1000 4 MEM_TYPE_READ
           st_sv39).
  - right. left. reflexivity.
  - split; [apply Z.leb_le | apply Z.ltb_lt]; reflexivity.
  - intros [H _]. apply H. reflexivity.
  - right. change (boundary_bit st_sv39) with 38. intros i Hi.
    rewrite (Z.bits_above_log2 0x1000 i), (Z.bits_above_log2 0x1000 38);
      try reflexivity; cbn; lia.
Defined.

(** X29 at a write through a leaf with R, W, X, A and D. *)
Lemma ptw_after_loop_needs_accessed_dirty_witness :
  pte_a (mk_pte 0x80003 0xcf) = true
  /\ (MEM_TYPE_WRITE = MEM_TYPE_WRITE -> pte_d (mk_pte 0x80003 0xcf) = true).
Proof.
  apply (ptw_after_loop_needs_accessed_dirty cfg_plain mem_pointer 0
           (mk_pte 0x80003 0xcf) (PGBASE 0x80003) 0x5000 MEM_TYPE_WRITE 0
           MODE_S st_sv39 (set_z pt_level 0 st_sv39) 0x80003000).
  - right. right. reflexivity.
  - vm_compute. reflexivity.
Defined.

(** X30 at the read of virtual [0x5000] through [mem_pointer]. *)
Lemma ptw_outcome_witness :
  match ptw cfg_plain mem_pointer no_mmio 0 0x5000 MEM_TYPE_READ st_sv39 with
  | Ret pa _ => Z.land pa PAGE_MASK = 0
  | Exc ex _ => ptw_exception MEM_TYPE_READ (bv st_sv39 cpu_amo) ex
  | Crash => False
  end.
Proof.
  apply (ptw_outcome cfg_plain mem_pointer no_mmio 0 0x5000 MEM_TYPE_READ
           st_sv39).
  - reflexivity.
  - right. reflexivity.
  - intros _. reflexivity.
Defined.
